(** * urbanlite: the ride/driver orchestrator and the chat session manager

    A shallow embedding of [src/index.tsx] (the [App] component): its
    [useState] cells, its [useRef] cells, the browser's interval table, the
    three [useEffect] hooks and the event handlers, followed by the
    properties of the ride state machine and of the chat streaming merge. *)

From Stdlib Require Import Ascii String DecimalString.
From Stdlib.Strings Require Byte.
From Stdlib.Floats Require SpecFloat.
From stdpp Require Import base numbers list option gmap strings.

Local Open Scope Z_scope.

(** ** JavaScript strings

    A JS string is a sequence of UTF-16 code units.  Literals of the source
    are written as Rocq strings (UTF-8 bytes) and decoded by [js]. *)

Definition jsstring := list N.

Module Utf.

Definition cont (b : N) : N := N.land b 63.

(** Code point to UTF-16 code units. *)
Definition units (cp : N) : list N :=
  if (cp <? 65536)%N then [cp]
  else let c := (cp - 65536)%N in
       [(55296 + N.shiftr c 10)%N; (56320 + N.land c 1023)%N].

(** UTF-8 bytes to UTF-16 code units; a truncated sequence is dropped. *)
Fixpoint decode (l : list N) : list N :=
  match l with
  | [] => []
  | b0 :: r0 =>
    if (b0 <? 128)%N then b0 :: decode r0 else
    match r0 with
    | [] => []
    | b1 :: r1 =>
      if (b0 <? 224)%N
      then units (N.shiftl (N.land b0 31) 6 + cont b1) ++ decode r1 else
      match r1 with
      | [] => []
      | b2 :: r2 =>
        if (b0 <? 240)%N
        then units (N.shiftl (N.land b0 15) 12 + N.shiftl (cont b1) 6
                    + cont b2) ++ decode r2 else
        match r2 with
        | [] => []
        | b3 :: r3 =>
          units (N.shiftl (N.land b0 7) 18 + N.shiftl (cont b1) 12
                 + N.shiftl (cont b2) 6 + cont b3) ++ decode r3
        end
      end
    end
  end.

End Utf.

Definition js (s : string) : jsstring :=
  Utf.decode (N_of_ascii <$> list_ascii_of_string s).

(** [WhiteSpace] and [LineTerminator] code units, the ones
    [String.prototype.trim] strips. *)
Definition is_js_space (c : N) : bool :=
  ((9 <=? c) && (c <=? 13) || (c =? 32) || (c =? 160) || (c =? 5760)
   || (8192 <=? c) && (c <=? 8202) || (c =? 8232) || (c =? 8233)
   || (c =? 8239) || (c =? 8287) || (c =? 12288) || (c =? 65279))%N.

Fixpoint trimStart (s : jsstring) : jsstring :=
  match s with
  | c :: r => if is_js_space c then trimStart r else s
  | [] => []
  end.

Definition trim (s : jsstring) : jsstring :=
  reverse (trimStart (reverse (trimStart s))).

(** The decimal digits of an integer. *)
Definition show_Z (n : Z) : jsstring :=
  js (NilZero.string_of_int (Z.to_int n)).

(** ** JavaScript numbers

    A Number is an IEEE 754 binary64: NaN, an infinity, a zero with its
    sign, or [m * 2^e] with [m] odd, which names each finite value but zero
    once.  A double has [|m| < 2^53], [-1074 <= e] and a value below
    [2^1024]; [round64] gives such values only, and every operation rounds
    through it. *)

Inductive number :=
  | NaN
  | Infinity (negative : bool)
  | Zero (negative : bool)
  | Finite (m e : Z).

#[global] Instance number_eq_dec : EqDecision number.
Proof. solve_decision. Defined.

(** [p * 2^e] with the factors of two moved into the exponent. *)
Fixpoint strip_pos (p : positive) (e : Z) : positive * Z :=
  match p with
  | xO p' => strip_pos p' (e + 1)
  | _ => (p, e)
  end.

Definition strip (a e : Z) : Z * Z :=
  match a with
  | Zpos p => let '(p', e') := strip_pos p e in (Zpos p', e')
  | _ => (a, e)
  end.

(** A magnitude [a * 2^e] of at most 53 bits: an infinity from [2^1024]
    on. *)
Definition pack (negative : bool) (a e : Z) : number :=
  if 1024 <? Z.log2 a + 1 + e then Infinity negative
  else Finite (if negative then - a else a) e.

(** The double nearest to [m * 2^e], ties to the even significand: the
    value is cut at the bit of weight [2^q], 53 bits below its leading bit
    and never below [2^-1074]. *)
Definition round64 (m e : Z) : number :=
  if m =? 0 then Zero false
  else
    let negative := m <? 0 in
    let '(a, e) := strip (Z.abs m) e in
    let q := Z.max (Z.log2 a + 1 + e - 53) (-1074) in
    if q <=? e then pack negative a e
    else
      let s := q - e in
      let hi := Z.shiftr a s in
      let lo := Z.land a (Z.ones s) in
      let half := 2 ^ (s - 1) in
      let r := if lo <? half then hi
               else if half <? lo then hi + 1
               else if Z.even hi then hi else hi + 1 in
      if r =? 0 then Zero negative
      else let '(a', e') := strip r q in pack negative a' e'.

(** The Number of an integer literal. *)
Definition number_of_Z (n : Z) : number := round64 n 0.

(** A [Finite m e] is read as the double nearest to [m * 2^e]. *)
Definition canon (x : number) : number :=
  match x with
  | Finite m e => round64 m e
  | _ => x
  end.

(** [x - 1], as [x--] computes it. *)
Definition number_pred (x : number) : number :=
  match canon x with
  | NaN => NaN
  | Infinity s => Infinity s
  | Zero _ => number_of_Z (-1)
  | Finite m e =>
    let q := Z.min e 0 in round64 (m * 2 ^ (e - q) - 2 ^ (- q)) q
  end.

(** [x > 0] *)
Definition number_gt0 (x : number) : bool :=
  match canon x with
  | NaN | Zero _ => false
  | Infinity s => negb s
  | Finite m _ => 0 <? m
  end.

(** ToBoolean of a Number: false on NaN and the zeros. *)
Definition number_truthy (x : number) : bool :=
  match canon x with
  | NaN | Zero _ => false
  | _ => true
  end.

(** *** Number::toString

    The digits are the shortest decimal [s * 10^p] that rounds to the
    number: the rounding interval of [X * 2^(E-2)] is [L * 2^(E-2)] to
    [H * 2^(E-2)], its ends included for an even significand; the largest
    [p] with a multiple of [10^p] inside gives the fewest digits, and of
    several multiples the nearest is taken. *)

Fixpoint shortest_search (fuel : nat) (X L H E : Z) (incl : bool) (p : Z)
  : Z * Z :=
  match fuel with
  | O => (0, 0)
  | S fuel =>
    let A := 10 ^ (Z.max p 0) * 2 ^ (Z.max (2 - E) 0) in
    let B := 10 ^ (Z.max (- p) 0) * 2 ^ (Z.max (E - 2) 0) in
    let smax := if incl then (H * B) / A else (H * B - 1) / A in
    let smin := if incl then (L * B + A - 1) / A else (L * B) / A + 1 in
    let smin := Z.max smin 1 in
    if smin <=? smax then
      let f := (X * B) / A in
      let r := (X * B) mod A in
      let c := if 2 * r <? A then f
               else if A <? 2 * r then f + 1
               else if Z.even f then f else f + 1 in
      (Z.min smax (Z.max smin c), p)
    else shortest_search fuel X L H E incl (p - 1)
  end.

(** The digits [s] and the power [p] of a positive double [a * 2^e]. *)
Definition shortest (a e : Z) : Z * Z :=
  let E := Z.max (Z.log2 a + 1 + e - 53) (-1074) in
  let M := a * 2 ^ (e - E) in
  let X := 4 * M in
  let L := X - (if (M =? 2 ^ 52) && (-1074 <? E) then 1 else 2) in
  let H := X + 2 in
  let t := Z.log2 H + 1 + (E - 2) in
  shortest_search 40 X L H E (Z.even M) ((t * 30103) / 100000 + 1).

Definition zeros (n : Z) : jsstring := replicate (Z.to_nat n) 48%N.

(** The digits laid out: plain up to [10^21] and down to [10^-6], with an
    exponent beyond. *)
Definition format_digits (s p : Z) : jsstring :=
  let d := show_Z s in
  let k := Z.of_nat (length d) in
  let n := k + p in
  if (k <=? n) && (n <=? 21) then d ++ zeros (n - k)
  else if (0 <? n) && (n <=? 21)
  then take (Z.to_nat n) d ++ js "." ++ drop (Z.to_nat n) d
  else if (-6 <? n) && (n <=? 0) then js "0." ++ zeros (- n) ++ d
  else
    let ex := n - 1 in
    let tail := js "e" ++ (if ex <? 0 then js "-" else js "+")
                ++ show_Z (Z.abs ex) in
    if k =? 1 then d ++ tail
    else take 1 d ++ js "." ++ drop 1 d ++ tail.

Definition number_to_string (x : number) : jsstring :=
  match canon x with
  | NaN => js "NaN"
  | Infinity s => if s then js "-Infinity" else js "Infinity"
  | Zero _ => js "0"
  | Finite m e =>
    let '(s, p) := shortest (Z.abs m) e in
    (if m <? 0 then js "-" else []) ++ format_digits s p
  end.

(** [x.toFixed(2)]: below [10^21] the integer nearest to [100 * x], the
    larger of two, with a point before its last two digits; Number::toString
    from [10^21] on and for a number that is not finite. *)
Definition toFixed2 (x : number) : jsstring :=
  match canon x with
  | Finite m e =>
    let a := Z.abs m in
    if (if 0 <=? e then 10 ^ 21 <=? a * 2 ^ e else 10 ^ 21 * 2 ^ (- e) <=? a)
    then number_to_string x
    else
      let n := if 0 <=? e then a * 2 ^ e * 100
               else (2 * a * 100 + 2 ^ (- e)) / (2 * 2 ^ (- e)) in
      let d := show_Z n in
      let d := zeros (3 - Z.of_nat (length d)) ++ d in
      let k := length d in
      (if m <? 0 then js "-" else [])
      ++ take (k - 2) d ++ js "." ++ drop (k - 2) d
  | Zero _ => js "0.00"
  | _ => number_to_string x
  end.

(** ** JavaScript values

    What [JSON.parse] returns; [undefined] is the [None] of [jsval]. *)

#[local] Unset Elimination Schemes.
Inductive json : Type :=
  | JNull
  | JBool (b : bool)
  | JNum (x : number)
  | JStr (s : jsstring)
  | JArr (l : list json)
  | JObj (o : list (jsstring * json)).
#[local] Set Elimination Schemes.

Definition jsval := option json.

(** ToBoolean, as used by [if (x)], [!x], [x || y] and [x && y]. *)
Definition truthy (v : jsval) : bool :=
  match v with
  | None | Some JNull => false
  | Some (JBool b) => b
  | Some (JNum x) => number_truthy x
  | Some (JStr s) => match s with [] => false | _ => true end
  | Some (JArr _) | Some (JObj _) => true
  end.

(** ToString of a value, as template literals and [+] apply it. *)
Fixpoint json_to_string (v : json) : jsstring :=
  match v with
  | JNull => js "null"
  | JBool b => if b then js "true" else js "false"
  | JNum x => number_to_string x
  | JStr s => s
  | JArr l =>
    (fix join (l : list json) : jsstring :=
       let elem x := match x with JNull => [] | _ => json_to_string x end in
       match l with
       | [] => []
       | [x] => elem x
       | x :: r => elem x ++ js "," ++ join r
       end) l
  | JObj _ => js "[object Object]"
  end.

Definition to_string (v : jsval) : jsstring :=
  match v with
  | None => js "undefined"
  | Some j => json_to_string j
  end.

(** An object as the component uses one: a finite map from property names to
    values.  A property holding [undefined] reads like an absent one, so it is
    kept absent. *)
Definition set_prop (k : jsstring) (v : jsval) (m : gmap jsstring json)
  : gmap jsstring json :=
  match v with
  | Some j => <[k := j]> m
  | None => delete k m
  end.

(** The own enumerable properties of a value, what [{...v}] copies.
    [JSON.parse] keeps the last of several bindings of one key. *)
Definition own_props (v : json) : gmap jsstring json :=
  match v with
  | JObj o => list_to_map (reverse o)
  | JArr l => list_to_map (imap (fun i x => (show_Z (Z.of_nat i), x)) l)
  | JStr s => list_to_map (imap (fun i c => (show_Z (Z.of_nat i), JStr [c])) s)
  | JNull | JBool _ | JNum _ => ∅
  end.

(** [v.k] for a non-null [v] and a property name [k] that is no built-in of
    [String], [Number], [Boolean] or [Array] (the component reads only such
    names: [message], [fare], [driverName], ...). *)
Definition get_prop (v : json) (k : jsstring) : jsval := own_props v !! k.

(** ** Data model *)

Inductive UserMode := mode_none | passenger | driver.
Inductive DriverStatus :=
  offline | online | request_pending | on_ride | ride_completed.
Inductive RideStatus := searching | found | tracking | completed | canceled.
Inductive VehicleType := Car | Bike.
Inductive PaymentMethod := Cash | Wallet.
Inductive Sender := user | ai.

#[global] Instance UserMode_eq_dec : EqDecision UserMode.
Proof. solve_decision. Defined.
#[global] Instance DriverStatus_eq_dec : EqDecision DriverStatus.
Proof. solve_decision. Defined.
#[global] Instance RideStatus_eq_dec : EqDecision RideStatus.
Proof. solve_decision. Defined.
#[global] Instance Sender_eq_dec : EqDecision Sender.
Proof. solve_decision. Defined.

(** [text: string | JSX.Element]; the only element ever stored is a
    [<LoadingSpinner message=... />]. *)
Inductive MessageText :=
  | Text (s : jsstring)
  | Spinner (message : jsstring).

#[global] Instance MessageText_eq_dec : EqDecision MessageText.
Proof. solve_decision. Defined.

Record ChatMessage := { sender : Sender; text : MessageText }.

(** A ride offer is a fresh object literal [{...data, k: v, ...}].  [obj_id]
    is the identity of that object ([Object.is] compares it in a dependency
    array), [props] its properties. *)
Record RideOffer := { obj_id : nat; props : gmap jsstring json }.

Definition offer_get (o : RideOffer) (k : string) : jsval := props o !! js k.

(** The SDK's chat session: the instruction it was created with and the
    messages sent through it. *)
Record Chat := { systemInstruction : jsstring; sent : list jsstring }.

(** The [useState] cells of [App].  [pickupLocation] and [destination] hold
    whatever was last stored, which [handleDriverAcceptRide] takes from the
    offer unchecked. *)
Record App := MkApp {
  userMode : UserMode;
  currentLocation : jsstring;
  pickupLocation : jsval;
  destination : jsval;
  vehicleType : VehicleType;
  paymentMethod : PaymentMethod;
  driverStatus : DriverStatus;
  currentRideOffer : option RideOffer;
  passengerRideStatus : option RideStatus;
  apiResponse : jsstring;
  loading : bool;
  error : jsstring;
  isOnline : bool;
  isChatOpen : bool;
  chatMessages : list ChatMessage;
  chatInput : jsstring
}.

Notation "s |> f" := (f s) (at level 45, left associativity, only parsing).

Definition setUserMode x (s : App) :=
  let 'MkApp _ b c d e f g h i j k l m n o p := s in
  MkApp x b c d e f g h i j k l m n o p.
Definition setCurrentLocation x (s : App) :=
  let 'MkApp a _ c d e f g h i j k l m n o p := s in
  MkApp a x c d e f g h i j k l m n o p.
Definition setPickupLocation x (s : App) :=
  let 'MkApp a b _ d e f g h i j k l m n o p := s in
  MkApp a b x d e f g h i j k l m n o p.
Definition setDestination x (s : App) :=
  let 'MkApp a b c _ e f g h i j k l m n o p := s in
  MkApp a b c x e f g h i j k l m n o p.
Definition setVehicleType x (s : App) :=
  let 'MkApp a b c d _ f g h i j k l m n o p := s in
  MkApp a b c d x f g h i j k l m n o p.
Definition setPaymentMethod x (s : App) :=
  let 'MkApp a b c d e _ g h i j k l m n o p := s in
  MkApp a b c d e x g h i j k l m n o p.
Definition setDriverStatus x (s : App) :=
  let 'MkApp a b c d e f _ h i j k l m n o p := s in
  MkApp a b c d e f x h i j k l m n o p.
Definition setCurrentRideOffer x (s : App) :=
  let 'MkApp a b c d e f g _ i j k l m n o p := s in
  MkApp a b c d e f g x i j k l m n o p.
Definition setPassengerRideStatus x (s : App) :=
  let 'MkApp a b c d e f g h _ j k l m n o p := s in
  MkApp a b c d e f g h x j k l m n o p.
Definition setApiResponse x (s : App) :=
  let 'MkApp a b c d e f g h i _ k l m n o p := s in
  MkApp a b c d e f g h i x k l m n o p.
Definition setLoading x (s : App) :=
  let 'MkApp a b c d e f g h i j _ l m n o p := s in
  MkApp a b c d e f g h i j x l m n o p.
Definition setError x (s : App) :=
  let 'MkApp a b c d e f g h i j k _ m n o p := s in
  MkApp a b c d e f g h i j k x m n o p.
Definition setIsOnline x (s : App) :=
  let 'MkApp a b c d e f g h i j k l _ n o p := s in
  MkApp a b c d e f g h i j k l x n o p.
Definition setIsChatOpen x (s : App) :=
  let 'MkApp a b c d e f g h i j k l m _ o p := s in
  MkApp a b c d e f g h i j k l m x o p.
(** [setChatMessages] is called with an updater [prev => ...] everywhere but
    in [initializeChat]; [setChatMessages (fun _ => v)] is the plain form. *)
Definition setChatMessages (upd : list ChatMessage -> list ChatMessage)
    (s : App) :=
  let 'MkApp a b c d e f g h i j k l m n o p := s in
  MkApp a b c d e f g h i j k l m n (upd o) p.
Definition setChatInput x (s : App) :=
  let 'MkApp a b c d e f g h i j k l m n o _ := s in
  MkApp a b c d e f g h i j k l m n o x.

(** The state of the first render: the [useState] initialisers. *)
Definition initialApp (navigator_onLine : bool) : App :=
  {| userMode := mode_none; currentLocation := []; pickupLocation := Some (JStr []);
     destination := Some (JStr []); vehicleType := Car; paymentMethod := Cash;
     driverStatus := offline; currentRideOffer := None;
     passengerRideStatus := None; apiResponse := []; loading := false;
     error := []; isOnline := navigator_onLine; isChatOpen := false;
     chatMessages := []; chatInput := [] |}.

(** ** Passenger and driver handlers

    A handler called from a render reads that render's state and queues
    [setX] calls; with no updater among them the queue is a composition of
    field assignments.  Handlers are given as functions on [App]. *)

Definition handlePassengerAcceptRide (s : App) : App :=
  match currentRideOffer s with
  | Some o =>
    s |> setPassengerRideStatus (Some tracking)
      |> setApiResponse (js "আপনি রাইডটি গ্রহণ করেছেন! ড্রাইভার "
                         ++ to_string (offer_get o "driverName")
                         ++ js " আসছে।")
  | None => s
  end.

Definition handlePassengerCancelRide (s : App) : App :=
  s |> setPassengerRideStatus (Some canceled)
    |> setCurrentRideOffer None
    |> setApiResponse (js "রাইড বাতিল করা হয়েছে।").

Definition handlePassengerCompleteRide (s : App) : App :=
  s |> setPassengerRideStatus (Some completed)
    |> setApiResponse (js "রাইড সম্পন্ন হয়েছে! আপনার ড্রাইভারকে রেটিং দিন।")
    |> setCurrentRideOffer None.

Definition handleDriverToggleOnline (s : App) : App :=
  if negb (isOnline s)
  then s |> setError (js "আপনি অফলাইন। অনলাইন স্ট্যাটাস পরিবর্তন করা সম্ভব নয়।")
  else
    let newStatus :=
      if decide (driverStatus s = offline) then online else offline in
    s |> setDriverStatus newStatus
      |> setApiResponse
           (if decide (newStatus = online)
            then js "আপনি অনলাইন আছেন। রাইড রিকোয়েস্টের জন্য অপেক্ষা করছেন..."
            else js "আপনি অফলাইন।")
      |> setError []
      |> setLoading false
      |> setCurrentRideOffer None.

Definition handleDriverAcceptRide (s : App) : App :=
  match currentRideOffer s with
  | Some o =>
    s |> setDriverStatus on_ride
      |> setApiResponse (js "রাইড গ্রহণ করা হয়েছে! যাত্রী "
                         ++ to_string (offer_get o "pickup") ++ js " থেকে "
                         ++ to_string (offer_get o "destination")
                         ++ js " পর্যন্ত যাবে।")
      |> setPickupLocation (offer_get o "pickup")
      |> setDestination (offer_get o "destination")
  | None => s
  end.

Definition handleDriverDeclineRide (s : App) : App :=
  s |> setDriverStatus online
    |> setApiResponse
         (js "রাইড প্রত্যাখ্যান করা হয়েছে। পরবর্তী রিকোয়েস্টের জন্য অপেক্ষা করা হচ্ছে...")
    |> setCurrentRideOffer None.

(** [x?.toFixed(2)]: [undefined] on a nullish [x], the rendering of a number,
    and a TypeError ([None]) on anything else, which has no [toFixed]. *)
Definition opt_toFixed2 (x : jsval) : option jsval :=
  match x with
  | None | Some JNull => Some None
  | Some (JNum x) => Some (Some (JStr (toFixed2 x)))
  | Some _ => None
  end.

(** When the fare expression throws, the handler stops after its first
    [setDriverStatus]: the status is updated and the offer stays. *)
Definition handleDriverCompleteRide (s : App) : App :=
  let s1 := s |> setDriverStatus ride_completed in
  match opt_toFixed2 (o ← currentRideOffer s; offer_get o "estimatedFare") with
  | Some fare =>
    s1 |> setApiResponse (js "রাইড সম্পন্ন হয়েছে! আপনি ৳" ++ to_string fare
                          ++ js " উপার্জন করেছেন। যাত্রীকে রেটিং দিন।")
       |> setCurrentRideOffer None
  | None => s1
  end.

(** The inline handler of the go-online-again button. *)
Definition handleGoOnlineAgain (s : App) : App := s |> setDriverStatus online.

(** ** Requests to the AI client

    [await ai.models.generateContent(...)] either rejects with an error
    object or fulfils with a response whose [text] is a string or
    [undefined].  An [async] handler is its synchronous part up to the
    [await] and a continuation that runs, on the state of that later moment,
    with the variables the call closed over. *)

Inductive Settled :=
  | Rejected (message : jsval)       (* [apiError.message] of the error *)
  | Fulfilled (text : option jsstring).

(** [v.k] where [v] may be [null]: a TypeError ([None]) on [null]. *)
Definition read_prop (v : json) (k : string) : option jsval :=
  match v with
  | JNull => None
  | _ => Some (get_prop v (js k))
  end.

(** [a || b] *)
Definition js_or (a b : jsval) : jsval := if truthy a then a else b.

Section Runtime.

(** [JSON.parse] of the runtime; [None] is its SyntaxError. *)
Variable JSON_parse : jsstring -> option json.

Definition parse_failed_ride : jsstring :=
  js "একটি প্রতিক্রিয়া পাওয়া গেছে, কিন্তু রাইডের বিস্তারিত তথ্য পার্স করা যায়নি। অনুগ্রহ করে আবার চেষ্টা করুন।".

(** The part of [handleFindRide] before its [await]; the flag tells whether
    the request was issued. *)
Definition handleFindRide_start (s : App) : App * bool :=
  if negb (truthy (pickupLocation s)) || negb (truthy (destination s))
  then (s |> setError (js "অনুগ্রহ করে পিকআপ এবং গন্তব্য উভয় স্থানই প্রবেশ করুন।"),
        false)
  else if negb (isOnline s)
  then (s |> setError (js "আপনি অফলাইন। রাইড খুঁজে পাওয়া সম্ভব নয়।"), false)
  else (s |> setLoading true
          |> setApiResponse []
          |> setError []
          |> setCurrentRideOffer None
          |> setPassengerRideStatus (Some searching), true).

(** The rest of [handleFindRide], for the [pickupLocation] and [destination]
    of the render that called it and a fresh object identity.  A truthy
    [message] that is no string is stored by its rendering. *)
Definition handleFindRide_settled (pickup dest : jsval) (fresh : nat)
    (r : Settled) (s : App) : App :=
  (match r with
   | Fulfilled text =>
     match trim <$> text with
     | Some ((_ :: _) as t) =>
       match rideData ← JSON_parse t;
             m ← read_prop rideData "message"; Some (rideData, m) with
       | Some (rideData, m) =>
         if truthy m
         then s |> setApiResponse (to_string m)
                |> setPassengerRideStatus None
         else
           s |> setCurrentRideOffer
                  (Some {| obj_id := fresh;
                           props := own_props rideData
                                    |> set_prop (js "pickup") pickup
                                    |> set_prop (js "destination") dest |})
             |> setApiResponse
                  (js "রাইড অফার পাওয়া গেছে! ড্রাইভার "
                   ++ to_string (get_prop rideData (js "driverName"))
                   ++ js " "
                   ++ to_string (get_prop rideData (js "etaMinutes"))
                   ++ js " মিনিট দূরে আছে।")
             |> setPassengerRideStatus (Some found)
       | None =>
         s |> setApiResponse parse_failed_ride
           |> setPassengerRideStatus None
       end
     | _ =>
       s |> setApiResponse
              (js "রাইড খুঁজে পেতে AI থেকে কোনো প্রতিক্রিয়া নেই। অনুগ্রহ করে আবার চেষ্টা করুন।")
         |> setPassengerRideStatus None
     end
   | Rejected message =>
     s |> setError (js "রাইড খুঁজে পেতে ব্যর্থ: "
                    ++ to_string (js_or message (Some (JStr (js "অজানা ত্রুটি")))))
       |> setPassengerRideStatus None
   end) |> setLoading false.

Definition parse_failed_request : jsstring :=
  js "রাইড রিকোয়েস্ট পাওয়া গেছে, কিন্তু বিস্তারিত তথ্য পার্স করা যায়নি। অনুগ্রহ করে আবার চেষ্টা করুন।".

(** [simulateDriverActivity] up to its [await].  The callback closes over
    the render [c] in which the polling effect installed it; its [setX]
    calls act on the current state.  The random pickup and destination only
    enter the prompt. *)
Definition simulateDriverActivity_start (c s : App) : App * bool :=
  if bool_decide (driverStatus c = online) && isOnline c && negb (loading c)
     && bool_decide (currentRideOffer c = None)
  then (s |> setLoading true |> setError [], true)
  else (s, false).

(** The rest of [simulateDriverActivity].  [requestData.fare.toFixed(2)]
    throws on a fare that is no number, after the offer and the status have
    been set; the inner [catch] then only replaces the message. *)
Definition simulateDriverActivity_settled (fresh : nat) (r : Settled)
    (s : App) : App :=
  (match r with
   | Fulfilled text =>
     match trim <$> text with
     | Some ((_ :: _) as t) =>
       match requestData ← JSON_parse t;
             fare ← read_prop requestData "fare"; Some (requestData, fare) with
       | Some (requestData, fare) =>
         let s1 :=
           s |> setCurrentRideOffer
                  (Some {| obj_id := fresh;
                           props := own_props requestData
                                    |> set_prop (js "estimatedFare") fare |})
             |> setDriverStatus request_pending in
         match fare with
         | Some (JNum n) =>
           s1 |> setApiResponse
                   (js "নতুন রাইড রিকোয়েস্ট! "
                    ++ to_string (get_prop requestData (js "passengerName"))
                    ++ js " (রেটিং: "
                    ++ to_string (get_prop requestData (js "passengerRating"))
                    ++ js "⭐) "
                    ++ to_string (get_prop requestData (js "pickup"))
                    ++ js " থেকে "
                    ++ to_string (get_prop requestData (js "destination"))
                    ++ js " পর্যন্ত। আনুমানিক ভাড়া: ৳" ++ toFixed2 n ++ js "।")
         | _ => s1 |> setApiResponse parse_failed_request
         end
       | None => s |> setApiResponse parse_failed_request
       end
     | _ => s |> setApiResponse (js "কোনো রাইড রিকোয়েস্ট পাওয়া যায়নি।")
     end
   | Rejected message =>
     s |> setError (js "রাইড রিকোয়েস্ট আনতে ব্যর্থ: "
                    ++ to_string (js_or message (Some (JStr (js "অজানা ত্রুটি")))))
   end) |> setLoading false.

(** ** Refs, intervals and effects *)

(** ToNumber of a string, of the runtime. *)
Variable StringToNumber : jsstring -> number.

Definition to_number (v : json) : number :=
  match v with
  | JNull => number_of_Z 0
  | JBool b => number_of_Z (if b then 1 else 0)
  | JNum x => x
  | JStr s => StringToNumber s
  | JArr _ | JObj _ => StringToNumber (json_to_string v)
  end.

(** What an interval runs: [simulateDriverActivity] of the render [c] that
    installed it, or the tracking callback with its local [let eta]. *)
Inductive Callback :=
  | simulateDriverActivity (c : App)
  | trackingTick (eta : json).

(** The [useRef] cells.  Interval ids are positive, so a ref is truthy
    exactly when it is not [null]. *)
Record Refs := MkRefs {
  chatRef : option Chat;
  driverRequestIntervalRef : option positive;
  rideTrackingIntervalRef : option positive
}.

(** Requests whose callback has not run yet. *)
Inductive Pending :=
  | FindRideRequest (pickup dest : jsval)
  | DriverRequest
  | PositionRequest
  | ChatReply (aiResponseText : option jsstring).

(** What the page finds around it: [navigator.geolocation] and
    [process.env.API_KEY]. *)
Record Env := { geolocation : bool; apiKey : option jsstring }.

Record World := MkWorld {
  app : App;
  refs : Refs;
  intervals : gmap positive Callback;
  next_interval : positive;
  next_obj : nat;
  inflight : list Pending;
  env : Env
}.

Definition with_app (f : App -> App) (w : World) : World :=
  let 'MkWorld a r t n o q g := w in MkWorld (f a) r t n o q g.
Definition with_refs (f : Refs -> Refs) (w : World) : World :=
  let 'MkWorld a r t n o q g := w in MkWorld a (f r) t n o q g.
Definition with_intervals (f : gmap positive Callback -> gmap positive Callback)
    (w : World) : World :=
  let 'MkWorld a r t n o q g := w in MkWorld a r (f t) n o q g.
Definition with_inflight (f : list Pending -> list Pending) (w : World)
  : World :=
  let 'MkWorld a r t n o q g := w in MkWorld a r t n o (f q) g.
Definition set_driverRequestIntervalRef x (r : Refs) : Refs :=
  let 'MkRefs c _ t := r in MkRefs c x t.
Definition set_rideTrackingIntervalRef x (r : Refs) : Refs :=
  let 'MkRefs c d _ := r in MkRefs c d x.
Definition set_chatRef x (r : Refs) : Refs :=
  let 'MkRefs _ d t := r in MkRefs x d t.

(** [window.setInterval(cb, ...)]: a fresh id, handed to [k]. *)
Definition setInterval (cb : Callback) (k : positive -> World -> World)
    (w : World) : World :=
  let 'MkWorld a r t n o q g := w in
  k n (MkWorld a r (<[n := cb]> t) (Pos.succ n) o q g).

(** [clearInterval(id)]; a [null] id clears nothing. *)
Definition clearInterval (id : option positive) (w : World) : World :=
  match id with
  | Some i => w |> with_intervals (delete i)
  | None => w
  end.

(** The driver polling effect, for the render [a]. *)
Definition driverEffect_body (a : App) (w : World) : World :=
  match driverRequestIntervalRef (refs w) with
  | None =>
    if bool_decide (driverStatus a = online)
    then w |> setInterval (simulateDriverActivity a)
                (fun id => with_refs (set_driverRequestIntervalRef (Some id)))
    else w
  | Some id =>
    if bool_decide (driverStatus a = online) then w
    else w |> clearInterval (Some id)
           |> with_refs (set_driverRequestIntervalRef None)
  end.

Definition driverEffect_cleanup (w : World) : World :=
  w |> clearInterval (driverRequestIntervalRef (refs w)).

(** The passenger tracking effect, for the render [a]. *)
Definition trackingEffect_body (a : App) (w : World) : World :=
  if bool_decide (passengerRideStatus a = Some tracking)
  then
    let eta := js_or (o ← currentRideOffer a; offer_get o "etaMinutes")
                     (Some (JNum (number_of_Z 5))) in
    w |> setInterval (trackingTick (default (JNum (number_of_Z 5)) eta))
           (fun id => with_refs (set_rideTrackingIntervalRef (Some id)))
  else
    match rideTrackingIntervalRef (refs w) with
    | Some id => w |> clearInterval (Some id)
                   |> with_refs (set_rideTrackingIntervalRef None)
    | None => w
    end.

Definition trackingEffect_cleanup (w : World) : World :=
  w |> clearInterval (rideTrackingIntervalRef (refs w)).

(** [eta > 0] *)
Definition gt0 (eta : json) : bool := number_gt0 (to_number eta).

(** One run of the tracking callback installed under [id], whose local is
    [eta]: [eta--] writes the local back into the closure. *)
Definition trackingTick_run (id : positive) (eta : json) (w : World) : World :=
  if gt0 eta
  then
    let eta' := JNum (number_pred (to_number eta)) in
    w |> with_intervals (<[id := trackingTick eta']>)
      |> with_app (setApiResponse
                     (js "ড্রাইভার " ++ json_to_string eta'
                      ++ js " মিনিট দূরে আছে। তারা আপনাকে নিতে আসছে।"))
  else
    w |> clearInterval (rideTrackingIntervalRef (refs w))
      |> with_app (fun s =>
           s |> setApiResponse (js "ড্রাইভার এসে গেছে! আপনার রাইড নিশ্চিত করুন।")
             |> setPassengerRideStatus (Some completed)).

Definition resetAppState (w : World) : World :=
  let w1 :=
    w |> with_app (fun s =>
           s |> setUserMode mode_none
             |> setPickupLocation (Some (JStr (currentLocation s)))
             |> setDestination (Some (JStr []))
             |> setDriverStatus offline
             |> setPassengerRideStatus None
             |> setCurrentRideOffer None
             |> setApiResponse []
             |> setError []
             |> setLoading false) in
  let w2 :=
    match driverRequestIntervalRef (refs w1) with
    | Some id => w1 |> clearInterval (Some id)
                    |> with_refs (set_driverRequestIntervalRef None)
    | None => w1
    end in
  match rideTrackingIntervalRef (refs w2) with
  | Some id => w2 |> clearInterval (Some id)
                  |> with_refs (set_rideTrackingIntervalRef None)
  | None => w2
  end.

(** The geolocation effect, for the render [a]. *)
Definition geolocationEffect_body (a : App) (w : World) : World :=
  if geolocation (env w) && isOnline a
  then w |> with_app (setLoading true)
         |> with_inflight (fun q => q ++ [PositionRequest])
  else if negb (isOnline a)
  then w |> with_app (fun s =>
            s |> setError (js "You are offline. Geolocation requires internet connection.")
              |> setCurrentLocation (js "Manual Entry Needed (Offline)")
              |> setPickupLocation (Some (JStr []))
              |> setLoading false)
  else w |> with_app (fun s =>
            s |> setError (js "Geolocation not supported. Please enter locations manually.")
              |> setCurrentLocation (js "Manual Entry Needed")
              |> setPickupLocation (Some (JStr []))
              |> setLoading false).

(** The two callbacks of [getCurrentPosition].  [locationString] is the text
    the success callback builds from a random place name and the
    coordinates. *)
Definition position_success (locationString : jsstring) (s : App) : App :=
  s |> setCurrentLocation locationString
    |> setPickupLocation (Some (JStr locationString))
    |> setError []
    |> setLoading false.

Definition position_error (message : jsstring) (s : App) : App :=
  s |> setError (js "Location access denied or failed. Please enable location services or enter manually. ("
                 ++ message ++ js ")")
    |> setLoading false
    |> setCurrentLocation (js "Manual Entry Needed")
    |> setPickupLocation (Some (JStr [])).

(** Dependency arrays, compared entry by entry with [Object.is]. *)
Definition driverEffect_deps (a : App) :=
  (driverStatus a, isOnline a, loading a, obj_id <$> currentRideOffer a).
Definition trackingEffect_deps (a : App) :=
  (passengerRideStatus a, obj_id <$> currentRideOffer a).

(** After the render of state [a] that follows the render of [prev]: the
    cleanups of the effects whose dependencies changed, then their bodies,
    in the order of declaration. *)
Definition effects_pass (prev a : App) (w : World) : World :=
  let geo := negb (bool_decide (isOnline prev = isOnline a)) in
  let drv := negb (bool_decide (driverEffect_deps prev = driverEffect_deps a)) in
  let trk :=
    negb (bool_decide (trackingEffect_deps prev = trackingEffect_deps a)) in
  w |> (if drv then driverEffect_cleanup else id)
    |> (if trk then trackingEffect_cleanup else id)
    |> (if geo then geolocationEffect_body a else id)
    |> (if drv then driverEffect_body a else id)
    |> (if trk then trackingEffect_body a else id).

(** An event changed the state from [prev]: re-render and run the effects;
    the geolocation effect sets state itself, which renders once more. *)
Definition run_effects (prev : App) (w : World) : World :=
  let a := app w in
  let w1 := effects_pass prev a w in
  effects_pass a (app w1) w1.

(** The world after mounting: every effect body runs on the first render
    (once, as in a production build; the development double run of
    [StrictMode] is not part of the model). *)
Definition initialWorld (e : Env) (navigator_onLine : bool) : World :=
  let a := initialApp navigator_onLine in
  let w :=
    MkWorld a (MkRefs None None None) ∅ 1%positive 0%nat [] e
      |> geolocationEffect_body a
      |> driverEffect_body a
      |> trackingEffect_body a in
  effects_pass a (app w) w.

(** ** Chat session manager *)

Definition chat_greeting : ChatMessage :=
  {| sender := ai;
     text := Text (js "নমস্কার! আজ আপনার রাইড সম্পর্কে কীভাবে সাহায্য করতে পারি?") |}.

Definition chat_persona : jsstring :=
  js "আপনি যাত্রী এবং ড্রাইভার উভয়ের জন্য একজন বন্ধুত্বপূর্ণ, সহায়ক এবং সংক্ষিপ্ত রাইড-শেয়ারিং সহকারী। ছোট, সরাসরি উত্তর দিন।".

Definition chat_failure : ChatMessage :=
  {| sender := ai;
     text := Text (js "দুঃখিত, একটি ত্রুটি হয়েছে। অনুগ্রহ করে আবার চেষ্টা করুন।") |}.

Definition chat_placeholder : ChatMessage :=
  {| sender := ai; text := Spinner (js "ভাবছি...") |}.

(** [typeof m.text !== 'string'] *)
Definition is_element (m : ChatMessage) : bool :=
  match text m with
  | Spinner _ => true
  | Text _ => false
  end.

(** [initializeChat], called from the render [a]; it has no [await], so it
    runs to its end inside the call. *)
Definition initializeChat (apiKey : option jsstring) (a : App)
    (sr : App * Refs) : App * Refs :=
  let '(s, r) := sr in
  if negb (truthy (JStr <$> apiKey))
  then (s |> setError (js "এপিআই কী কনফিগার করা নেই। চ্যাট শুরু করা সম্ভব নয়।"), r)
  else if negb (isOnline a)
  then (s |> setError (js "আপনি অফলাইন। চ্যাট সহকারী উপলব্ধ নয়।"), r)
  else
    match chatRef r with
    | None =>
      (s |> setChatMessages (fun _ => [chat_greeting]),
       r |> set_chatRef (Some {| systemInstruction := chat_persona;
                                 sent := [] |}))
    | Some _ => (s, r)
    end.

Definition handleToggleChat (apiKey : option jsstring) (sr : App * Refs)
  : App * Refs :=
  let '(a, r) := sr in
  let sr1 := (a |> setIsChatOpen (negb (isChatOpen a)), r) in
  if negb (isChatOpen a) && bool_decide (chatRef r = None)
  then initializeChat apiKey a sr1
  else sr1.

(** How far [handleSendChatMessage] gets before it waits for the stream. *)
Inductive SendOutcome :=
  | SendRejected
  | SendNoSession
  | SendDispatched (userMessage : jsstring).

(** [chat.sendMessageStream({message})] of the SDK records the message in
    the session. *)
Definition sendMessageStream (message : jsstring) (c : Chat) : Chat :=
  {| systemInstruction := systemInstruction c; sent := sent c ++ [message] |}.

(** [handleSendChatMessage] up to [await chatRef.current.sendMessageStream]. *)
Definition handleSendChatMessage_start (apiKey : option jsstring)
    (sr : App * Refs) : App * Refs * SendOutcome :=
  let '(a, r) := sr in
  match trim (chatInput a) with
  | [] => (a, r, SendRejected)
  | _ :: _ =>
    if negb (isOnline a)
    then (a |> setError (js "আপনি অফলাইন। চ্যাট বার্তা পাঠানো সম্ভব নয়।"), r,
          SendRejected)
    else
      let userMessage := chatInput a in
      let s1 :=
        a |> setChatMessages
               (fun prev => prev ++ [{| sender := user;
                                        text := Text userMessage |}])
          |> setChatInput []
          |> setError [] in
      let '(s2, r2) :=
        match chatRef r with
        | None => initializeChat apiKey a (s1, r)
        | Some _ => (s1, r)
        end in
      match chatRef r2 with
      | None =>
        (s2 |> setChatMessages
                 (fun prev => prev ++
                    [{| sender := ai;
                        text := Text (js "দুঃখিত, আমি চ্যাট সহকারী শুরু করতে পারিনি। অনুগ্রহ করে আপনার সংযোগ পরীক্ষা করুন।") |}]),
         r2, SendNoSession)
      | Some c =>
        (s2, r2 |> set_chatRef (Some (sendMessageStream userMessage c)),
         SendDispatched userMessage)
      end
  end.

(** [newMessages[newMessages.length - 1] = m] on a copy of [prev]. *)
Definition replace_last (m : ChatMessage) (prev : list ChatMessage)
  : list ChatMessage :=
  <[(length prev - 1)%nat := m]> prev.

(** The updater run for a chunk, [aiResponseText] being the accumulator
    after the chunk was added. *)
Definition merge_chunk (aiResponseText : jsstring) (prev : list ChatMessage)
  : list ChatMessage :=
  let m := {| sender := ai; text := Text aiResponseText |} in
  match last prev with
  | Some l =>
    if is_element l then replace_last m prev
    else if bool_decide (sender l = ai) then replace_last m prev
    else prev ++ [m]
  | None => prev ++ [m]
  end.

(** The stream arrived: the placeholder is appended. *)
Definition stream_opened (s : App) : App :=
  s |> setChatMessages (fun prev => prev ++ [chat_placeholder]).

(** [for await (const chunk of streamResponse)]: a chunk's [text] is a
    string or [undefined]; the accumulator is the loop's local. *)
Fixpoint stream_chunks (chunks : list (option jsstring))
    (aiResponseText : jsstring) (s : App) : jsstring * App :=
  match chunks with
  | [] => (aiResponseText, s)
  | Some ((_ :: _) as t) :: rest =>
    let acc := aiResponseText ++ t in
    stream_chunks rest acc (s |> setChatMessages (merge_chunk acc))
  | _ :: rest => stream_chunks rest aiResponseText s
  end.

(** The [catch] of the stream. *)
Definition stream_failed (s : App) : App :=
  s |> setError (js "চ্যাট সহকারী থেকে প্রতিক্রিয়া পেতে ব্যর্থ।")
    |> setChatMessages (fun prev =>
         match last prev with
         | Some l =>
           if bool_decide (sender l = ai)
              && (is_element l || bool_decide (text l = Text (js "...")))
           then replace_last chat_failure prev
           else prev ++ [chat_failure]
         | None => prev ++ [chat_failure]
         end).

(** ** Events *)

(** What a chat request does next: its stream arrives, yields a chunk, ends,
    or the request (or the stream) fails. *)
Inductive StreamEvent :=
  | Opened
  | Chunk (text : option jsstring)
  | Ended
  | Failed.

Inductive Event :=
  | SelectMode (m : UserMode)
  | EditPickup (v : jsstring)
  | EditDestination (v : jsstring)
  | EditVehicleType (v : VehicleType)
  | EditPaymentMethod (v : PaymentMethod)
  | FindRide
  | PassengerAccept
  | PassengerCancel
  | PassengerComplete
  | DriverToggle
  | DriverAccept
  | DriverDecline
  | DriverComplete
  | GoOnlineAgain
  | Reset
  | BrowserOnline
  | BrowserOffline
  | Tick (id : positive)
  | Settle (i : nat) (r : Settled)
  | Position (i : nat) (r : jsstring + jsstring)
  | ToggleChat
  | EditChatInput (v : jsstring)
  | SendChat
  | Reply (i : nat) (ev : StreamEvent).

Definition bump_obj (w : World) : World :=
  let 'MkWorld a r t n o q g := w in MkWorld a r t n (S o) q g.

(** The handler of an event, run on the current world. *)
Definition dispatch (e : Event) (w : World) : World :=
  match e with
  | SelectMode m => w |> with_app (setUserMode m)
  | EditPickup v => w |> with_app (setPickupLocation (Some (JStr v)))
  | EditDestination v => w |> with_app (setDestination (Some (JStr v)))
  | EditVehicleType v => w |> with_app (setVehicleType v)
  | EditPaymentMethod v => w |> with_app (setPaymentMethod v)
  | FindRide =>
    let '(s, issued) := handleFindRide_start (app w) in
    let rq := FindRideRequest (pickupLocation (app w)) (destination (app w)) in
    w |> with_app (fun _ => s)
      |> with_inflight (fun q => if issued then q ++ [rq] else q)
  | PassengerAccept => w |> with_app handlePassengerAcceptRide
  | PassengerCancel => w |> with_app handlePassengerCancelRide
  | PassengerComplete => w |> with_app handlePassengerCompleteRide
  | DriverToggle => w |> with_app handleDriverToggleOnline
  | DriverAccept => w |> with_app handleDriverAcceptRide
  | DriverDecline => w |> with_app handleDriverDeclineRide
  | DriverComplete => w |> with_app handleDriverCompleteRide
  | GoOnlineAgain => w |> with_app handleGoOnlineAgain
  | Reset => resetAppState w
  | BrowserOnline => w |> with_app (setIsOnline true)
  | BrowserOffline => w |> with_app (setIsOnline false)
  | Tick id =>
    match intervals w !! id with
    | Some (simulateDriverActivity c) =>
      let '(s, issued) := simulateDriverActivity_start c (app w) in
      w |> with_app (fun _ => s)
        |> with_inflight (fun q => if issued then q ++ [DriverRequest] else q)
    | Some (trackingTick eta) => trackingTick_run id eta w
    | None => w
    end
  | Settle i r =>
    match inflight w !! i with
    | Some (FindRideRequest pickup dest) =>
      w |> with_inflight (delete i)
        |> with_app (handleFindRide_settled pickup dest (next_obj w) r)
        |> bump_obj
    | Some DriverRequest =>
      w |> with_inflight (delete i)
        |> with_app (simulateDriverActivity_settled (next_obj w) r)
        |> bump_obj
    | _ => w
    end
  | Position i r =>
    match inflight w !! i with
    | Some PositionRequest =>
      w |> with_inflight (delete i)
        |> with_app (match r with
                     | inl locationString => position_success locationString
                     | inr message => position_error message
                     end)
    | _ => w
    end
  | ToggleChat =>
    let '(s, r) := handleToggleChat (apiKey (env w)) (app w, refs w) in
    w |> with_app (fun _ => s) |> with_refs (fun _ => r)
  | EditChatInput v => w |> with_app (setChatInput v)
  | SendChat =>
    let '(s, r, out) :=
      handleSendChatMessage_start (apiKey (env w)) (app w, refs w) in
    w |> with_app (fun _ => s)
      |> with_refs (fun _ => r)
      |> with_inflight (fun q => match out with
                                 | SendDispatched _ => q ++ [ChatReply None]
                                 | _ => q
                                 end)
  | Reply i ev =>
    match inflight w !! i, ev with
    | Some (ChatReply None), Opened =>
      w |> with_inflight (<[i := ChatReply (Some [])]>)
        |> with_app stream_opened
    | Some (ChatReply (Some aiResponseText)), Chunk c =>
      let '(acc, s) := stream_chunks [c] aiResponseText (app w) in
      w |> with_inflight (<[i := ChatReply (Some acc)]>)
        |> with_app (fun _ => s)
    | Some (ChatReply (Some _)), Ended => w |> with_inflight (delete i)
    | Some (ChatReply _), Failed =>
      w |> with_inflight (delete i) |> with_app stream_failed
    | _, _ => w
    end
  end.

(** An event: its handler, then the render and the effects. *)
Definition fire (e : Event) (w : World) : World :=
  run_effects (app w) (dispatch e w).

(** Whether the event comes from a control of the page. *)
Definition user_intent (e : Event) : bool :=
  match e with
  | BrowserOnline | BrowserOffline | Tick _ | Settle _ _ | Position _ _
  | Reply _ _ => false
  | _ => true
  end.

(** Whether the event is on offer: its control is rendered and not
    [disabled], the interval is installed, the request is outstanding. *)
Definition offered (w : World) (e : Event) : bool :=
  let s := app w in
  let form :=
    bool_decide (userMode s = passenger)
    && negb (bool_decide (passengerRideStatus s = Some tracking))
    && negb (bool_decide (passengerRideStatus s = Some completed)) in
  let free := negb (loading s) && isOnline s in
  let has_offer := bool_decide (is_Some (currentRideOffer s)) in
  match e with
  | SelectMode m =>
    bool_decide (userMode s = mode_none) && negb (bool_decide (m = mode_none))
    && free
  | EditPickup _ | EditDestination _ | EditVehicleType _
  | EditPaymentMethod _ => form && free
  | FindRide =>
    form && free && truthy (pickupLocation s) && truthy (destination s)
  | PassengerAccept | PassengerCancel =>
    bool_decide (userMode s = passenger)
    && bool_decide (passengerRideStatus s = Some found) && has_offer && free
  | PassengerComplete =>
    bool_decide (userMode s = passenger)
    && bool_decide (passengerRideStatus s = Some tracking) && has_offer
    && isOnline s
  | DriverToggle => bool_decide (userMode s = driver) && free
  | DriverAccept | DriverDecline =>
    bool_decide (userMode s = driver) && has_offer
    && bool_decide (driverStatus s = request_pending) && free
  | DriverComplete =>
    bool_decide (userMode s = driver) && bool_decide (driverStatus s = on_ride)
    && has_offer && isOnline s
  | GoOnlineAgain =>
    bool_decide (userMode s = driver)
    && bool_decide (driverStatus s = ride_completed) && isOnline s
  | Reset =>
    form
    || bool_decide (userMode s = passenger)
       && bool_decide (passengerRideStatus s = Some completed) && isOnline s
    || bool_decide (userMode s = driver) && negb (loading s)
  | BrowserOnline | BrowserOffline => true
  | Tick id => bool_decide (is_Some (intervals w !! id))
  | Settle i _ =>
    match inflight w !! i with
    | Some (FindRideRequest _ _) | Some DriverRequest => true
    | _ => false
    end
  | Position i _ =>
    match inflight w !! i with
    | Some PositionRequest => true
    | _ => false
    end
  | ToggleChat => true
  | EditChatInput _ => isOnline s
  | SendChat =>
    isOnline s && match trim (chatInput s) with [] => false | _ => true end
  | Reply i ev =>
    match inflight w !! i, ev with
    | Some (ChatReply None), (Opened | Failed) => true
    | Some (ChatReply (Some _)), (Chunk _ | Ended | Failed) => true
    | _, _ => false
    end
  end.

(** Without an API key the component renders an error notice and none of
    its controls. *)
Definition enabled (w : World) (e : Event) : bool :=
  (negb (user_intent e) || truthy (JStr <$> apiKey (env w))) && offered w e.

Inductive step (w : World) : Event -> World -> Prop :=
  | step_fire e : enabled w e = true -> step w e (fire e w).

(** The worlds a page can be in: from a mount, by offered events. *)
Inductive reachable : World -> Prop :=
  | reachable_mount g o : reachable (initialWorld g o)
  | reachable_step w e w' : reachable w -> step w e w' -> reachable w'.

End Runtime.

(** ** Vocabulary of the properties *)

(** An outcome of the find-ride request that carries no parsed value: the
    request failed, the response has no text or only white space, or the
    text is not JSON. *)
Definition no_parse (JSON_parse : jsstring -> option json) (r : Settled)
  : Prop :=
  match r with
  | Rejected _ => True
  | Fulfilled None => True
  | Fulfilled (Some text) => trim text = [] \/ JSON_parse (trim text) = None
  end.

(** A user-facing message is on display. *)
Definition message_shown (s : App) : Prop :=
  apiResponse s <> [] \/ error s <> [].

(** The concatenation of the text of the chunks of a stream; a chunk
    without text contributes nothing. *)
Definition fragments_text (chunks : list (option jsstring)) : jsstring :=
  concat (default [] <$> chunks).

(** No polling callback, respectively no tracking callback, is installed. *)
Definition no_polls (w : World) : Prop :=
  forall id c, intervals w !! id <> Some (simulateDriverActivity c).
Definition no_ticks (w : World) : Prop :=
  forall id eta, intervals w !! id <> Some (trackingTick eta).

(** Every installed interval is the one its ref names, and ids are fresh. *)
Definition timers_owned (w : World) : Prop :=
  (forall id c, intervals w !! id = Some (simulateDriverActivity c) ->
     driverRequestIntervalRef (refs w) = Some id)
  /\ (forall id eta, intervals w !! id = Some (trackingTick eta) ->
        rideTrackingIntervalRef (refs w) = Some id)
  /\ (forall id, is_Some (intervals w !! id) -> (id < next_interval w)%positive).

(** Polling is installed only while the driver is [online]. *)
Definition polls_only_online (w : World) : Prop :=
  driverStatus (app w) <> online -> no_polls w.

(** The worlds that follow a world, by offered events. *)
Inductive later {P N} (w : World) : World -> Prop :=
  | later_refl : later w w
  | later_step w1 e w2 :
      later w w1 -> step P N w1 e w2 -> later w w2.

(** The part of the state the ride state machine lives in. *)
Definition ride_view (s : App) :=
  (userMode s, driverStatus s, currentRideOffer s, passengerRideStatus s).

(** What holds between the steps of an effects pass for the render [a]. *)
Definition pass_stage (a : App) (w : World) : Prop :=
  timers_owned w
  /\ (driverStatus a <> online -> no_polls w)
  /\ driverStatus (app w) = driverStatus a.

(** [k] consecutive ticks of the interval [id]. *)
Definition ticks P N (id : positive) (k : nat) (w : World) : World :=
  Nat.iter k (fire P N (Tick id)) w.

(** The consistency of the offer with the driver status that the data
    model asks for. *)
Definition offer_consistent (s : App) : Prop :=
  (driverStatus s = request_pending -> currentRideOffer s <> None)
  /\ (driverStatus s = offline \/ driverStatus s = online ->
      currentRideOffer s = None).

(** What the [responseSchema] of the driver request promises of a parsed
    response: an object whose five required fields have the declared
    types. *)
Definition request_schema (v : json) : Prop :=
  (exists o, v = JObj o)
  /\ (exists s, get_prop v (js "passengerName") = Some (JStr s))
  /\ (exists n, get_prop v (js "passengerRating") = Some (JNum n))
  /\ (exists s, get_prop v (js "pickup") = Some (JStr s))
  /\ (exists s, get_prop v (js "destination") = Some (JStr s))
  /\ (exists n, get_prop v (js "fare") = Some (JNum n)).

(** The one promise of the schema that the state machine leans on: the
    fare, where the response has one, is a number ([toFixed] is called on
    it). *)
Definition fare_numeric (v : json) : Prop :=
  opt_toFixed2 (get_prop v (js "fare")) <> None.

(** A response that, where it parses, has a numeric fare. *)
Definition schema_conform (P : jsstring -> option json) (e : Event) : Prop :=
  match e with
  | Settle _ (Fulfilled (Some text)) =>
    forall v, P (trim text) = Some v -> fare_numeric v
  | _ => True
  end.

(** The worlds of a driver session: from a mount, by offered events other
    than the choice of the passenger role, the fares of the responses being
    numbers. *)
Inductive driver_session P N : World -> Prop :=
  | driver_mount g o : driver_session P N (initialWorld g o)
  | driver_step w e w' :
      driver_session P N w ->
      e <> SelectMode passenger ->
      schema_conform P e ->
      step P N w e w' ->
      driver_session P N w'.

(** What a driver session maintains of the ride state: the fare of a stored
    offer, if any, is a number; no offer outside a request or a ride; an
    offer with a pending request. *)
Definition ride_inv (s : App) : Prop :=
  (forall o, currentRideOffer s = Some o ->
     opt_toFixed2 (offer_get o "estimatedFare") <> None)
  /\ (driverStatus s = offline \/ driverStatus s = online
      \/ driverStatus s = ride_completed ->
      currentRideOffer s = None)
  /\ (driverStatus s = request_pending -> currentRideOffer s <> None).

Definition driver_inv (w : World) : Prop :=
  userMode (app w) <> passenger
  /\ (forall p d, FindRideRequest p d ∉ inflight w)
  /\ ride_inv (app w).

(** ** Sample runs

    Two responses of the AI client, as texts and as what [JSON.parse] makes
    of them, and the runs from a mount that the examples below use. *)

Definition quoted (s : string) : jsstring := [34%N] ++ js s ++ [34%N].

(** A member [k: v] of a JSON text, with its leading separator. *)
Definition member (sep k : string) (v : jsstring) : jsstring :=
  js sep ++ quoted k ++ js ":" ++ v.

Definition sample_offer_text : jsstring :=
  member "{" "driverName" (quoted "Rahim")
  ++ member "," "driverRating" (js "4")
  ++ member "," "vehicleType" (quoted "Car")
  ++ member "," "licensePlate" (quoted "ABC-123")
  ++ member "," "etaMinutes" (js "1")
  ++ member "," "estimatedFare" (js "250") ++ js "}".

Definition sample_offer : json :=
  JObj [(js "driverName", JStr (js "Rahim"));
        (js "driverRating", JNum (number_of_Z 4));
        (js "vehicleType", JStr (js "Car"));
        (js "licensePlate", JStr (js "ABC-123"));
        (js "etaMinutes", JNum (number_of_Z 1));
        (js "estimatedFare", JNum (number_of_Z 250))].

Definition sample_request_text : jsstring :=
  member "{" "passengerName" (quoted "Ahmed")
  ++ member "," "passengerRating" (js "5")
  ++ member "," "pickup" (quoted "Farmgate")
  ++ member "," "destination" (quoted "Motijheel")
  ++ member "," "fare" (js "200") ++ js "}".

Definition sample_request : json :=
  JObj [(js "passengerName", JStr (js "Ahmed"));
        (js "passengerRating", JNum (number_of_Z 5));
        (js "pickup", JStr (js "Farmgate"));
        (js "destination", JStr (js "Motijheel"));
        (js "fare", JNum (number_of_Z 200))].

(** [JSON.parse] on the two sample texts; every other text of the sample
    runs is taken as not parseable. *)
Definition sample_parse (t : jsstring) : option json :=
  if decide (t = sample_offer_text) then Some sample_offer
  else if decide (t = sample_request_text) then Some sample_request
  else None.

(** ToNumber of decimal digit strings, [NaN] elsewhere. *)
Definition sample_number (s : jsstring) : number :=
  match foldl (fun acc c =>
                 n ← acc;
                 if ((48 <=? c) && (c <=? 57))%N
                 then Some (10 * n + Z.of_N (c - 48)) else None)
              (Some 0) s with
  | Some n => number_of_Z n
  | None => NaN
  end.

(** The run of a list of events, as long as each is offered. *)
Fixpoint run_trace P N (es : list Event) (w : World) : option World :=
  match es with
  | [] => Some w
  | e :: es => if enabled w e then run_trace P N es (fire P N e w) else None
  end.

Definition sample_location : jsstring :=
  js "Approx. Farmgate (Lat: 23.7580, Lon: 90.3900)".

(** A passenger finds a ride. *)
Definition trace_found : list Event :=
  [Position 0 (inl sample_location); SelectMode passenger;
   EditDestination (js "Motijheel"); FindRide;
   Settle 0 (Fulfilled (Some sample_offer_text))].

(** A driver goes online and receives a request. *)
Definition trace_pending : list Event :=
  [Position 0 (inl sample_location); SelectMode driver; DriverToggle;
   Tick 1; Settle 0 (Fulfilled (Some sample_request_text))].

Definition sample_env : Env :=
  {| geolocation := true; apiKey := Some (js "key") |}.

Definition sample_world (es : list Event) : World :=
  default (initialWorld sample_env true)
          (run_trace sample_parse sample_number es (initialWorld sample_env true)).

(** The passenger form filled in, before find-ride. *)
Definition sample_form : App := app (sample_world (take 3 trace_found)).

(** The offer made from the sample request. *)
Definition sample_pending_offer : RideOffer :=
  {| obj_id := 0;
     props := own_props sample_request
              |> set_prop (js "estimatedFare")
                   (Some (JNum (number_of_Z 200))) |}.

(** The passenger has accepted the sample offer. *)
Definition sample_tracking : World :=
  sample_world (trace_found ++ [PassengerAccept]).

(** The driver is online and polling. *)
Definition sample_polling : World := sample_world (take 3 trace_pending).

(** The chat opened, with a message typed. *)
Definition sample_chat : App * Refs :=
  (initialApp true |> setChatInput (js "hello"), MkRefs None None None)
  |> handleToggleChat (Some (js "key")).

(** The state when that message has been sent. *)
Definition sample_dispatched : App :=
  (handleSendChatMessage_start (Some (js "key")) sample_chat).1.1.

(** The interval refs. *)
Definition timer_refs (r : Refs) :=
  (driverRequestIntervalRef r, rideTrackingIntervalRef r).

(** ** Further sample data *)

Definition sample_message_text : jsstring :=
  member "{" "message" (quoted "No drivers available nearby. Please try again.")
  ++ js "}".

Definition sample_message : json :=
  JObj [(js "message",
         JStr (js "No drivers available nearby. Please try again."))].

(** A request without a fare. *)
Definition sample_farefree_text : jsstring :=
  member "{" "passengerName" (quoted "Ahmed")
  ++ member "," "pickup" (quoted "Farmgate")
  ++ member "," "destination" (quoted "Motijheel") ++ js "}".

Definition sample_farefree : json :=
  JObj [(js "passengerName", JStr (js "Ahmed"));
        (js "pickup", JStr (js "Farmgate"));
        (js "destination", JStr (js "Motijheel"))].

(** [JSON.parse] on the sample texts above as well, and on [null]. *)
Definition sample_parse_more (t : jsstring) : option json :=
  if decide (t = sample_message_text) then Some sample_message
  else if decide (t = sample_farefree_text) then Some sample_farefree
  else if decide (t = js "null") then Some JNull
  else sample_parse t.

(** ** The base64 helpers

    [encode] and [decode] of the source wrap [btoa] and [atob] of the
    runtime, given here as the HTML standard has them (forgiving-base64). *)

Module Base64.

Definition alphabet : list N :=
  js "ABCDEFGHIJKLMNOPQRSTUVWXYZabcdefghijklmnopqrstuvwxyz0123456789+/".

Definition sextet_char (i : N) : N := nth (N.to_nat i) alphabet 61%N.

Definition char_sextet (c : N) : option N :=
  if ((65 <=? c) && (c <=? 90))%N then Some (c - 65)%N
  else if ((97 <=? c) && (c <=? 122))%N then Some (c - 71)%N
  else if ((48 <=? c) && (c <=? 57))%N then Some (c + 4)%N
  else if (c =? 43)%N then Some 62%N
  else if (c =? 47)%N then Some 63%N
  else None.

(** The groups of [btoa]: three bytes give four characters, a rest of one
    or two bytes is padded with [=]. *)
Fixpoint btoa_groups (l : list N) : list N :=
  match l with
  | [] => []
  | [a] =>
    [sextet_char (N.shiftr a 2); sextet_char (N.shiftl (N.land a 3) 4);
     61; 61]%N
  | [a; b] =>
    [sextet_char (N.shiftr a 2);
     sextet_char (N.lor (N.shiftl (N.land a 3) 4) (N.shiftr b 4));
     sextet_char (N.shiftl (N.land b 15) 2); 61]%N
  | a :: b :: c :: r =>
    [sextet_char (N.shiftr a 2);
     sextet_char (N.lor (N.shiftl (N.land a 3) 4) (N.shiftr b 4));
     sextet_char (N.lor (N.shiftl (N.land b 15) 2) (N.shiftr c 6));
     sextet_char (N.land c 63)]%N ++ btoa_groups r
  end.

(** [btoa]: an InvalidCharacterError ([None]) on a code unit above 255. *)
Definition btoa (s : jsstring) : option jsstring :=
  if forallb (fun c => c <=? 255)%N s then Some (btoa_groups s) else None.

Definition is_ascii_space (c : N) : bool :=
  ((c =? 9) || (c =? 10) || (c =? 12) || (c =? 13) || (c =? 32))%N.

(** One or two [=] at the end are removed. *)
Definition strip_padding (d : list N) : list N :=
  match reverse d with
  | c1 :: r1 =>
    if (c1 =? 61)%N then
      match r1 with
      | c2 :: r2 => if (c2 =? 61)%N then reverse r2 else reverse r1
      | [] => reverse r1
      end
    else d
  | [] => d
  end.

(** The bytes of a run of sextets; the bits left over at the end are
    discarded. *)
Fixpoint sextets_bytes (l : list N) : list N :=
  match l with
  | a :: b :: c :: d :: r =>
    [N.lor (N.shiftl a 2) (N.shiftr b 4);
     N.lor (N.shiftl (N.land b 15) 4) (N.shiftr c 2);
     N.lor (N.shiftl (N.land c 3) 6) d] ++ sextets_bytes r
  | [a; b; c] =>
    [N.lor (N.shiftl a 2) (N.shiftr b 4);
     N.lor (N.shiftl (N.land b 15) 4) (N.shiftr c 2)]
  | [a; b] => [N.lor (N.shiftl a 2) (N.shiftr b 4)]
  | _ => []
  end.

(** [atob]: an InvalidCharacterError ([None]) when, white space and
    padding removed, the length is 1 modulo 4 or a character is outside the
    alphabet. *)
Definition atob (s : jsstring) : option jsstring :=
  let d := filter (fun c => is_ascii_space c = false) s in
  let d := if (length d mod 4 =? 0)%nat then strip_padding d else d in
  if (length d mod 4 =? 1)%nat then None
  else sextets_bytes <$> mapM char_sextet d.

(** A store into a [Uint8Array] keeps the value modulo 256. *)
Definition to_uint8 (n : N) : Init.Byte.byte :=
  default Init.Byte.x00 (Byte.of_N (n mod 256)%N).

(** [decode]: [atob], then one byte per code unit. *)
Definition decode (base64 : jsstring) : option (list Init.Byte.byte) :=
  match atob base64 with
  | Some binaryString => Some (map to_uint8 binaryString)
  | None => None
  end.

(** [encode]: one code unit per byte, then [btoa]. *)
Definition encode (bytes : list Init.Byte.byte) : option jsstring :=
  btoa (map Byte.to_N bytes).

End Base64.

(** The sextets and the padding of [btoa_groups], apart. *)
Fixpoint sextets (l : list N) : list N :=
  match l with
  | [] => []
  | [a] => [N.shiftr a 2; N.shiftl (N.land a 3) 4]
  | [a; b] =>
    [N.shiftr a 2; N.lor (N.shiftl (N.land a 3) 4) (N.shiftr b 4);
     N.shiftl (N.land b 15) 2]
  | a :: b :: c :: r =>
    [N.shiftr a 2; N.lor (N.shiftl (N.land a 3) 4) (N.shiftr b 4);
     N.lor (N.shiftl (N.land b 15) 2) (N.shiftr c 6); N.land c 63]
    ++ sextets r
  end.

Fixpoint padding (l : list N) : list N :=
  match l with
  | [] => []
  | [a] => [61; 61]%N
  | [a; b] => [61]%N
  | a :: b :: c :: r => padding r
  end.

(** The numbers 0..255. *)
Definition octets : list N := N.of_nat <$> seq 0 256.

(** Three exhaustive checks over pairs of octets: the alphabet inverts on
    sextets; the sextets of [btoa_groups] are below 64; the bit operations
    of [sextets_bytes] undo those of [btoa_groups]. *)
Definition alphabet_check (a _ : N) : bool :=
  (63 <? a)%N
  || bool_decide (Base64.char_sextet (Base64.sextet_char a) = Some a).

Definition sextet_bound_check (a b : N) : bool :=
  ((N.shiftr a 2 <=? 63) && (N.shiftl (N.land a 3) 4 <=? 63)
   && (N.lor (N.shiftl (N.land a 3) 4) (N.shiftr b 4) <=? 63)
   && (N.shiftl (N.land b 15) 2 <=? 63)
   && (N.lor (N.shiftl (N.land a 15) 2) (N.shiftr b 6) <=? 63)
   && (N.land b 63 <=? 63))%N.

Definition regroup_check (a b : N) : bool :=
  ((N.lor (N.shiftl (N.shiftr a 2) 2)
      (N.shiftr (N.lor (N.shiftl (N.land a 3) 4) (N.shiftr b 4)) 4) =? a)
   && (N.lor (N.shiftl (N.shiftr a 2) 2)
         (N.shiftr (N.shiftl (N.land a 3) 4) 4) =? a)
   && (N.land (N.lor (N.shiftl (N.land a 3) 4) (N.shiftr b 4)) 15
       =? N.shiftr b 4)
   && (N.shiftr (N.lor (N.shiftl (N.land a 15) 2) (N.shiftr b 6)) 2
       =? N.land a 15)
   && (N.shiftr (N.shiftl (N.land a 15) 2) 2 =? N.land a 15)
   && (N.lor (N.shiftl (N.shiftr a 4) 4) (N.land a 15) =? a)
   && (N.lor (N.shiftl
                (N.land (N.lor (N.shiftl (N.land a 15) 2) (N.shiftr b 6)) 3)
                6) (N.land b 63) =? b))%N.

(** Every installed polling callback closes over a render whose
    dependencies are those of the current state. *)
Definition polls_current (w : World) : Prop :=
  forall id c, intervals w !! id = Some (simulateDriverActivity c) ->
    driverEffect_deps c = driverEffect_deps (app w).

(** The worlds that follow a world by offered events, the driver status
    being [online] after each of them. *)
Inductive online_run {P N} (w : World) : World -> Prop :=
  | online_refl : online_run w w
  | online_step w1 e w2 :
      online_run w w1 -> step P N w1 e w2 ->
      driverStatus (app w2) = online -> online_run w w2.

(** ** Sample worlds of the further properties *)

(** The sample driver after the first tick of the polling interval, the
    request outstanding. *)
Definition sample_polled : World := sample_world (take 4 trace_pending).

(** The polling driver after a loss of connectivity. *)
Definition sample_offline : World :=
  sample_world (take 3 trace_pending ++ [BrowserOffline]).

(** The sample driver on the ride of the sample request. *)
Definition sample_on_ride : World :=
  sample_world (trace_pending ++ [DriverAccept]).

(** The offer the sample passenger was made. *)
Definition sample_found_offer : RideOffer :=
  default sample_pending_offer (currentRideOffer (app (sample_world trace_found))).

(** The session of [sample_chat]. *)
Definition sample_session : Chat :=
  {| systemInstruction := chat_persona; sent := [] |}.

(** ** Sample runs of the countdown

    Offers whose ETA is two and a half minutes and [2^54] minutes, and the
    passenger who has accepted one of them. *)

Definition sample_eta_text (eta : string) : jsstring :=
  member "{" "driverName" (quoted "Rahim")
  ++ member "," "driverRating" (js "4")
  ++ member "," "vehicleType" (quoted "Car")
  ++ member "," "licensePlate" (quoted "ABC-123")
  ++ member "," "etaMinutes" (js eta)
  ++ member "," "estimatedFare" (js "250") ++ js "}".

Definition sample_eta (eta : number) : json :=
  JObj [(js "driverName", JStr (js "Rahim"));
        (js "driverRating", JNum (number_of_Z 4));
        (js "vehicleType", JStr (js "Car"));
        (js "licensePlate", JStr (js "ABC-123"));
        (js "etaMinutes", JNum eta);
        (js "estimatedFare", JNum (number_of_Z 250))].

Definition sample_parse_eta (t : jsstring) : option json :=
  if decide (t = sample_eta_text "2.5") then Some (sample_eta (Finite 5 (-1)))
  else if decide (t = sample_eta_text "18014398509481984")
  then Some (sample_eta (number_of_Z (2 ^ 54)))
  else sample_parse t.

Definition trace_tracking (text : jsstring) : list Event :=
  [Position 0 (inl sample_location); SelectMode passenger;
   EditDestination (js "Motijheel"); FindRide;
   Settle 0 (Fulfilled (Some text)); PassengerAccept].

Definition sample_tracking_eta (eta : string) : World :=
  default (initialWorld sample_env true)
          (run_trace sample_parse_eta sample_number
             (trace_tracking (sample_eta_text eta))
             (initialWorld sample_env true)).

(** Whether the page, where it renders, shows [apiResponse]: in the
    passenger's tracking card, in the driver's completed card, or in the
    status card below the two views. *)
Definition apiResponse_rendered (s : App) : bool :=
  let has_offer := bool_decide (is_Some (currentRideOffer s)) in
  negb (bool_decide (userMode s = mode_none))
  && (bool_decide (userMode s = passenger)
      && bool_decide (passengerRideStatus s = Some tracking) && has_offer
      || bool_decide (userMode s = driver)
         && bool_decide (driverStatus s = ride_completed)
      || match apiResponse s with [] => false | _ => true end
         && (negb has_offer
             || bool_decide (driverStatus s = online)
             || bool_decide (passengerRideStatus s = Some canceled)
             || bool_decide (passengerRideStatus s = Some completed)
             || bool_decide (driverStatus s = ride_completed))).

(** The chat of [sample_chat] after its message was sent. *)
Definition sample_sent : App * Refs :=
  (handleSendChatMessage_start (Some (js "key")) sample_chat).1.

(** A request whose fare is a string. *)
Definition sample_farestring_text : jsstring :=
  member "{" "passengerName" (quoted "Ahmed")
  ++ member "," "pickup" (quoted "Farmgate")
  ++ member "," "destination" (quoted "Motijheel")
  ++ member "," "fare" (quoted "200") ++ js "}".

Definition sample_farestring : json :=
  JObj [(js "passengerName", JStr (js "Ahmed"));
        (js "pickup", JStr (js "Farmgate"));
        (js "destination", JStr (js "Motijheel"));
        (js "fare", JStr (js "200"))].

Definition sample_parse_fare (t : jsstring) : option json :=
  if decide (t = sample_farestring_text) then Some sample_farestring
  else sample_parse_more t.

(** ** The numbers against the Standard Library's binary64

    [SpecFloat] has the IEEE 754 operations on [spec_float]; the operations
    on [number] are compared with them on the values below. *)

Definition to_SF (x : number) : SpecFloat.spec_float :=
  match x with
  | NaN => SpecFloat.S754_nan
  | Infinity s => SpecFloat.S754_infinity s
  | Zero s => SpecFloat.S754_zero s
  | Finite (Zpos p) e => SpecFloat.S754_finite false p e
  | Finite (Zneg p) e => SpecFloat.S754_finite true p e
  | Finite Z0 _ => SpecFloat.S754_zero false
  end.

Definition of_SF (x : SpecFloat.spec_float) : number :=
  match x with
  | SpecFloat.S754_nan => NaN
  | SpecFloat.S754_infinity s => Infinity s
  | SpecFloat.S754_zero s => Zero s
  | SpecFloat.S754_finite s m e => round64 (if s then Zneg m else Zpos m) e
  end.

Definition sample_numbers : list number :=
  [NaN; Infinity false; Infinity true; Zero false; Zero true;
   number_of_Z 1; number_of_Z 2; number_of_Z 5; number_of_Z (-7);
   Finite 5 (-1); Finite 3 (-1); Finite 1 (-1); Finite (-1) (-1);
   Finite 3602879701896397 (-55); Finite 4503599627370497 (-52);
   Finite 9007199254740991 (-53); Finite 1 (-60);
   number_of_Z (2 ^ 53 - 1); number_of_Z (2 ^ 53); number_of_Z (2 ^ 53 + 2);
   number_of_Z (2 ^ 54); number_of_Z (2 ^ 54 + 4); number_of_Z (2 ^ 60);
   number_of_Z (10 ^ 21); Finite 1 (-1074); Finite (-1) (-1022);
   Finite (2 ^ 53 - 1) 971; Finite (- (2 ^ 53 - 1)) 971].

(** * Properties *)

Arguments js : simpl never.
Arguments show_Z : simpl never.
Arguments round64 : simpl never.
Arguments number_of_Z : simpl never.
Arguments number_pred : simpl never.
Arguments number_to_string : simpl never.
Arguments toFixed2 : simpl never.
Arguments trim : simpl never.

(** Reduce the record projections and setters, and nothing else. *)
Ltac app_simpl :=
  cbn [userMode currentLocation pickupLocation destination vehicleType
       paymentMethod driverStatus currentRideOffer passengerRideStatus
       apiResponse loading error isOnline isChatOpen chatMessages chatInput
       setUserMode setCurrentLocation setPickupLocation setDestination
       setVehicleType setPaymentMethod setDriverStatus setCurrentRideOffer
       setPassengerRideStatus setApiResponse setLoading setError setIsOnline
       setIsChatOpen setChatMessages setChatInput
       app refs intervals next_interval next_obj inflight env geolocation
       apiKey
       with_app with_refs with_intervals with_inflight bump_obj
       chatRef driverRequestIntervalRef rideTrackingIntervalRef
       set_driverRequestIntervalRef set_rideTrackingIntervalRef set_chatRef
       obj_id props sender text fst snd] in *.

(** ** Checks of the basic definitions *)

Example js_ascii : js "Hello!" = [72; 101; 108; 108; 111; 33]%N.
Proof. reflexivity. Qed.

Example js_bmp : js "৳" = [2547]%N.
Proof. reflexivity. Qed.

Example trim_example : trim (js "  a b ") = js "a b".
Proof. reflexivity. Qed.

Example show_Z_example : show_Z (-42) = js "-42".
Proof. reflexivity. Qed.

(** The decrement and the comparison agree with the Standard Library's
    binary64 subtraction and comparison. *)
Example number_pred_reference :
  Forall (fun x =>
            of_SF (SpecFloat.SFsub 53 1024 (to_SF x) (to_SF (number_of_Z 1)))
            = number_pred x
            /\ SpecFloat.SFltb (SpecFloat.S754_zero false) (to_SF x)
               = number_gt0 x)
         sample_numbers.
Proof. repeat constructor; vm_compute; reflexivity. Qed.

(** Ties go to the even significand: [2^54 - 1] is [2^54] again. *)
Example round64_ties :
  number_of_Z (2 ^ 53 + 1) = number_of_Z (2 ^ 53)
  /\ number_of_Z (2 ^ 53 + 3) = number_of_Z (2 ^ 53 + 4)
  /\ number_pred (number_of_Z (2 ^ 54)) = number_of_Z (2 ^ 54)
  /\ number_pred (number_of_Z (2 ^ 53 + 2)) = number_of_Z (2 ^ 53)
  /\ number_of_Z (2 ^ 1024) = Infinity false
  /\ round64 1 (-1075) = Zero false
  /\ round64 3 (-1075) = Finite 1 (-1073).
Proof. split_and!; vm_compute; reflexivity. Qed.

Example number_pred_fraction :
  number_pred (Finite 5 (-1)) = Finite 3 (-1)
  /\ number_pred (Finite 1 (-1)) = Finite (-1) (-1)
  /\ number_pred (Zero true) = number_of_Z (-1).
Proof. split_and!; vm_compute; reflexivity. Qed.

Example number_to_string_examples :
  number_to_string (number_of_Z 250) = js "250"
  /\ number_to_string (number_of_Z (-42)) = js "-42"
  /\ number_to_string (Finite 5 (-1)) = js "2.5"
  /\ number_to_string (Finite (-1) (-1)) = js "-0.5"
  /\ number_to_string (Finite 3602879701896397 (-55)) = js "0.1"
  /\ number_to_string (number_of_Z (2 ^ 53)) = js "9007199254740992"
  /\ number_to_string (number_of_Z (2 ^ 60)) = js "1152921504606847000"
  /\ number_to_string (number_of_Z (10 ^ 21)) = js "1e+21"
  /\ number_to_string (number_of_Z (2 ^ 70)) = js "1.1805916207174113e+21"
  /\ number_to_string (Finite 1 (-1074)) = js "5e-324"
  /\ number_to_string (Finite 5 (-23)) = js "5.960464477539062e-7"
  /\ number_to_string (Zero true) = js "0"
  /\ number_to_string (Infinity true) = js "-Infinity"
  /\ number_to_string NaN = js "NaN".
Proof. split_and!; vm_compute; reflexivity. Qed.

Example toFixed2_examples :
  toFixed2 (number_of_Z 250) = js "250.00"
  /\ toFixed2 (Finite 5 (-1)) = js "2.50"
  /\ toFixed2 (Finite 1 (-3)) = js "0.13"
  /\ toFixed2 (Finite 1131529406376837 (-50)) = js "1.00"
  /\ toFixed2 (Finite (-1) (-10)) = js "-0.00"
  /\ toFixed2 (Zero true) = js "0.00"
  /\ toFixed2 (number_of_Z (10 ^ 21)) = js "1e+21"
  /\ toFixed2 (number_of_Z (10 ^ 21 - 2 ^ 17)) = js "999999999999999868928.00"
  /\ toFixed2 NaN = js "NaN".
Proof. split_and!; vm_compute; reflexivity. Qed.

Example own_props_last_wins :
  get_prop (JObj [(js "a", JNum (number_of_Z 1));
                  (js "a", JNum (number_of_Z 2))]) (js "a")
  = Some (JNum (number_of_Z 2)).
Proof. vm_compute. reflexivity. Qed.

Example to_string_array :
  to_string (Some (JArr [JNum (number_of_Z 1); JNull; JStr (js "x")]))
  = js "1,,x".
Proof. reflexivity. Qed.

Lemma js_app_nonempty (a : string) (x : jsstring) :
  js a <> [] -> js a ++ x <> [].
Proof. destruct (js a); [done | discriminate]. Qed.

Lemma enabled_offered w e : enabled w e = true -> offered w e = true.
Proof. unfold enabled. by intros [_ ?]%andb_prop. Qed.

Lemma enabled_tick w id :
  is_Some (intervals w !! id) -> enabled w (Tick id) = true.
Proof. intros H. unfold enabled. cbn. by apply bool_decide_eq_true_2. Qed.

Lemma elem_of_insert_inv {A} (l : list A) i x y :
  y ∈ <[i := x]> l -> y = x \/ y ∈ l.
Proof.
  intros [j Hj]%list_elem_of_lookup_1.
  apply list_lookup_insert_Some in Hj as [(_ & -> & _)|[_ Hj]]; [by left|].
  right. by eapply list_elem_of_lookup_2.
Qed.

Lemma truthy_Some (v : jsval) : truthy v = true -> exists j, v = Some j.
Proof. destruct v; [eauto | discriminate]. Qed.

Lemma offer_get_set_prop_eq (k : string) (v : jsval) m i :
  offer_get {| obj_id := i; props := set_prop (js k) v m |} k = v.
Proof.
  unfold offer_get, set_prop; cbn [props].
  destruct v; [apply lookup_insert_eq | apply lookup_delete_eq].
Qed.


Section Properties.

Variable JSON_parse : jsstring -> option json.
Variable StringToNumber : jsstring -> number.

(** ** The passenger search *)


(** C2. When the request fails or its response is not parseable, the
    search that find-ride started ends with no active ride, a message on
    display and no offer; and on any state the failing continuation leaves
    the offer cell as it finds it, so an offer is only ever stored whole, by
    the success branch. *)
Theorem handleFindRide_failed (s : App) (r : Settled) (fresh : nat) :
  truthy (pickupLocation s) = true ->
  truthy (destination s) = true ->
  isOnline s = true ->
  no_parse JSON_parse r ->
  (let s2 := handleFindRide_settled JSON_parse (pickupLocation s)
               (destination s) fresh r (handleFindRide_start s).1 in
   passengerRideStatus s2 = None
   /\ message_shown s2
   /\ currentRideOffer s2 = None)
  /\ forall s',
      currentRideOffer
        (handleFindRide_settled JSON_parse (pickupLocation s) (destination s)
           fresh r s')
      = currentRideOffer s'.
Proof.
  intros Hp Hd Hon Hr.
  assert (Hs : forall s',
    let s2 := handleFindRide_settled JSON_parse (pickupLocation s)
                (destination s) fresh r s' in
    passengerRideStatus s2 = None /\ message_shown s2
    /\ currentRideOffer s2 = currentRideOffer s').
  { intros s'. unfold handleFindRide_settled, message_shown.
    destruct r as [m | [text|]]; cbn [fmap option_fmap option_map].
    - destruct s'; app_simpl. repeat split.
      right. by apply js_app_nonempty.
    - destruct (trim text) as [|c t] eqn:Et.
      + destruct s'; app_simpl. repeat split. by left.
      + destruct Hr as [Hr|Hr]; [by rewrite Et in Hr|].
        rewrite Et in Hr. rewrite Hr. cbn [mbind option_bind].
        destruct s'; app_simpl. repeat split. by left.
    - destruct s'; app_simpl. repeat split. by left. }
  split.
  - destruct (Hs (handleFindRide_start s).1) as (H1 & H2 & H3).
    split; [exact H1|]. split; [exact H2|].
    cbn zeta in H3. rewrite H3.
    unfold handleFindRide_start. rewrite Hp, Hd, Hon. cbn [negb orb fst].
    destruct s; reflexivity.
  - intros s'. apply Hs.
Qed.

(** ** Accept, decline and cancel *)

(** C4 (as the code has it). From [request_pending] with an offer, accept
    moves to [on_ride], copies the offer's pickup and destination into the
    trip fields and keeps the offer (the on-ride card and the completion
    message read it); decline moves to [online] and clears the offer. *)
Theorem driver_accept_decline (s : App) (o : RideOffer) :
  driverStatus s = request_pending ->
  currentRideOffer s = Some o ->
  (let a := handleDriverAcceptRide s in
   driverStatus a = on_ride
   /\ pickupLocation a = offer_get o "pickup"
   /\ destination a = offer_get o "destination"
   /\ currentRideOffer a = Some o)
  /\ (let d := handleDriverDeclineRide s in
      driverStatus d = online /\ currentRideOffer d = None).
Proof.
  intros _ Ho. unfold handleDriverAcceptRide, handleDriverDeclineRide.
  rewrite Ho. destruct s; app_simpl. cbn in Ho. by subst.
Qed.

(** C7 (as the code has it). From [found], cancel sets the status to
    [canceled], a status of its own and not the absent one, and clears the
    offer. *)
Theorem passenger_cancel (s : App) :
  passengerRideStatus s = Some found ->
  let c := handlePassengerCancelRide s in
  passengerRideStatus c = Some canceled /\ currentRideOffer c = None.
Proof. intros _. destruct s; by app_simpl. Qed.

(** ** Sending a chat message *)

Lemma trimStart_nil (s : jsstring) :
  trimStart s = [] <-> forallb is_js_space s = true.
Proof.
  induction s as [|c s IH]; [done|].
  cbn [trimStart forallb]. destruct (is_js_space c); [apply IH | done].
Qed.

Lemma trimStart_head (s : jsstring) c r :
  trimStart s = c :: r -> is_js_space c = false.
Proof.
  induction s as [|d s IH]; [done|]. cbn [trimStart].
  destruct (is_js_space d) eqn:Ed; [apply IH|]. by intros [= -> _].
Qed.

Lemma forallb_reverse {A} (f : A -> bool) (l : list A) :
  forallb f (reverse l) = forallb f l.
Proof.
  induction l as [|x l IH]; [done|].
  rewrite reverse_cons, forallb_app, IH. cbn. rewrite andb_true_r.
  apply andb_comm.
Qed.

(** A string trims to the empty string exactly when it is made of white
    space (the empty string included). *)
Lemma trim_nil (s : jsstring) :
  trim s = [] <-> forallb is_js_space s = true.
Proof.
  unfold trim. split.
  - intros H. apply (f_equal reverse) in H.
    rewrite reverse_involutive in H. cbn in H.
    apply trimStart_nil in H. rewrite forallb_reverse in H.
    destruct (trimStart s) as [|c r] eqn:E; [by apply trimStart_nil|].
    apply trimStart_head in E. cbn in H. by rewrite E in H.
  - intros H. apply trimStart_nil in H. by rewrite H.
Qed.

(** C8. A send is rejected when connectivity is unavailable or the input is
    empty or white space only: no user turn is appended (the turn sequence
    is untouched) and neither the session ref nor the session is changed.
    Without connectivity only the error text is set. *)
Theorem handleSendChatMessage_rejected (apiKey : option jsstring) (a : App)
    (r : Refs) :
  isOnline a = false \/ forallb is_js_space (chatInput a) = true ->
  exists a',
    handleSendChatMessage_start apiKey (a, r) = (a', r, SendRejected)
    /\ chatMessages a' = chatMessages a
    /\ chatInput a' = chatInput a
    /\ (forallb is_js_space (chatInput a) = true -> a' = a)
    /\ setError (error a) a' = a.
Proof.
  intros H. unfold handleSendChatMessage_start.
  destruct (trim (chatInput a)) as [|c t] eqn:Et.
  - exists a. split_and!; try done. by destruct a.
  - assert (Hws : forallb is_js_space (chatInput a) = false).
    { destruct (forallb is_js_space (chatInput a)) eqn:E; [|done].
      apply trim_nil in E. by rewrite E in Et. }
    destruct H as [H|H]; [|by rewrite H in Hws].
    rewrite H. cbn [negb]. eexists. split; [reflexivity|].
    destruct a; app_simpl. split_and!; try done.
    intros E. by rewrite E in Hws.
Qed.

(** ** Streaming a reply *)

Lemma replace_last_snoc (m x : ChatMessage) (prev : list ChatMessage) :
  replace_last m (prev ++ [x]) = prev ++ [m].
Proof.
  unfold replace_last. rewrite length_app. cbn [length].
  replace (length prev + 1 - 1)%nat with (length prev + 0)%nat by lia.
  by rewrite insert_app_r.
Qed.

Lemma merge_chunk_placeholder acc prev msg :
  merge_chunk acc (prev ++ [{| sender := ai; text := Spinner msg |}])
  = prev ++ [{| sender := ai; text := Text acc |}].
Proof.
  unfold merge_chunk. rewrite last_snoc. cbn [is_element text].
  apply replace_last_snoc.
Qed.

Lemma merge_chunk_assistant acc prev t :
  merge_chunk acc (prev ++ [{| sender := ai; text := t |}])
  = prev ++ [{| sender := ai; text := Text acc |}].
Proof.
  unfold merge_chunk. rewrite last_snoc. cbn [sender].
  rewrite bool_decide_eq_true_2 by done.
  destruct (is_element _); apply replace_last_snoc.
Qed.

(** Once the last turn is an assistant turn, every chunk rewrites it. *)
Lemma stream_chunks_assistant chunks : forall acc s prev t,
  chatMessages s = prev ++ [{| sender := ai; text := t |}] ->
  fragments_text chunks <> [] ->
  let '(acc', s') := stream_chunks chunks acc s in
  acc' = acc ++ fragments_text chunks
  /\ chatMessages s'
     = prev ++ [{| sender := ai; text := Text (acc ++ fragments_text chunks) |}].
Proof.
  induction chunks as [|c chunks IH]; intros acc s prev t Hs Hne; [done|].
  assert (Hstep : forall x, x <> [] ->
    forall s1, chatMessages s1 = prev ++ [{| sender := ai; text := Text (acc ++ x) |}] ->
    let '(acc', s') := stream_chunks chunks (acc ++ x) s1 in
    acc' = acc ++ x ++ fragments_text chunks
    /\ chatMessages s'
       = prev ++ [{| sender := ai;
                     text := Text (acc ++ x ++ fragments_text chunks) |}]).
  { intros x Hx s1 Hs1.
    destruct (decide (fragments_text chunks = [])) as [E|E].
    - rewrite E, app_nil_r. clear IH Hne. revert E.
      induction chunks as [|[[|y z]|] chunks IH']; cbn; intros E; try done.
      + by apply IH'.
      + by apply IH'.
    - specialize (IH (acc ++ x) s1 prev _ Hs1 E).
      destruct (stream_chunks chunks (acc ++ x) s1). by rewrite <- !app_assoc in IH. }
  destruct c as [[|y z]|]; cbn [stream_chunks].
  - apply (IH acc s prev t Hs). exact Hne.
  - change (fragments_text (Some (y :: z) :: chunks))
      with ((y :: z) ++ fragments_text chunks).
    apply (Hstep (y :: z)); [done|].
    destruct s; app_simpl. cbn in Hs. rewrite Hs.
    apply merge_chunk_assistant.
  - apply (IH acc s prev t Hs). exact Hne.
Qed.

(** C9 (as the code has it). When the stream carries some text, the turn
    sequence after it is the one before the placeholder was appended plus
    exactly one assistant turn holding the concatenation of the fragments:
    the placeholder was rewritten in place. *)
Theorem stream_replaces_placeholder (s : App)
    (chunks : list (option jsstring)) :
  fragments_text chunks <> [] ->
  let '(acc, s') := stream_chunks chunks [] (stream_opened s) in
  acc = fragments_text chunks
  /\ chatMessages s'
     = chatMessages s
       ++ [{| sender := ai; text := Text (fragments_text chunks) |}].
Proof.
  intros Hne.
  apply (stream_chunks_assistant chunks [] (stream_opened s) (chatMessages s)
           (Spinner (js "ভাবছি..."))); [|done].
  by destruct s.
Qed.

(** ** Reset *)

Lemma clearInterval_app id w : app (clearInterval id w) = app w.
Proof. destruct id, w; reflexivity. Qed.

Lemma clearInterval_refs id w : refs (clearInterval id w) = refs w.
Proof. destruct id, w; reflexivity. Qed.

Lemma clearInterval_lookup id w j :
  intervals (clearInterval id w) !! j
  = if decide (id = Some j) then None else intervals w !! j.
Proof.
  destruct id as [i|], w; cbn; [|by case_decide].
  rewrite lookup_delete. repeat case_decide; congruence.
Qed.

(** C10. Reset returns the mode to none, clears the offer, both statuses
    (the driver's to [offline], the passenger's to absent), the destination
    and the message and error texts, cancels both intervals and empties
    their refs, and sets the pickup field to the current-location string;
    the chat session, the turn sequence, the vehicle type and the payment
    method are left as they were. *)
Theorem resetAppState_spec (w : World) :
  let w' := resetAppState w in
  let s := app w in
  let s' := app w' in
  (userMode s' = mode_none
   /\ currentRideOffer s' = None
   /\ driverStatus s' = offline
   /\ passengerRideStatus s' = None
   /\ destination s' = Some (JStr [])
   /\ apiResponse s' = [] /\ error s' = [])
  /\ (driverRequestIntervalRef (refs w') = None
      /\ rideTrackingIntervalRef (refs w') = None
      /\ forall id,
          driverRequestIntervalRef (refs w) = Some id
          \/ rideTrackingIntervalRef (refs w) = Some id ->
          intervals w' !! id = None)
  /\ (chatRef (refs w') = chatRef (refs w)
      /\ chatMessages s' = chatMessages s
      /\ vehicleType s' = vehicleType s
      /\ paymentMethod s' = paymentMethod s)
  /\ pickupLocation s' = Some (JStr (currentLocation s)).
Proof.
  destruct w as [a [c d t] iv n o q g]. destruct a.
  unfold resetAppState. app_simpl.
  destruct d as [i|], t as [j|]; app_simpl; unfold clearInterval;
    app_simpl; split_and!; try done.
  - intros id [[= ->]|[= ->]].
    + destruct (decide (j = id)) as [->|]; [apply lookup_delete_eq|].
      rewrite lookup_delete_ne by done. apply lookup_delete_eq.
    + apply lookup_delete_eq.
  - intros id [[= ->]|[=]]. apply lookup_delete_eq.
  - intros id [[=]|[= ->]]. apply lookup_delete_eq.
  - intros id [[=]|[=]].
Qed.

(** ** What the chat leaves alone *)

Lemma initializeChat_frame k a s r :
  let sr := initializeChat k a (s, r) in
  timer_refs sr.2 = timer_refs r /\ ride_view sr.1 = ride_view s.
Proof.
  unfold initializeChat.
  destruct (negb (truthy _)); [by destruct s|].
  destruct (negb (isOnline a)); [by destruct s|].
  destruct r as [[c|] d t]; by destruct s.
Qed.

Lemma handleToggleChat_frame k s r :
  let sr := handleToggleChat k (s, r) in
  timer_refs sr.2 = timer_refs r /\ ride_view sr.1 = ride_view s.
Proof.
  unfold handleToggleChat. destruct (_ && _).
  - destruct (initializeChat_frame k s (setIsChatOpen (negb (isChatOpen s)) s) r)
      as [-> ->]. by destruct s.
  - by destruct s.
Qed.

Lemma handleSendChatMessage_start_frame k s r :
  let sro := handleSendChatMessage_start k (s, r) in
  timer_refs sro.1.2 = timer_refs r /\ ride_view sro.1.1 = ride_view s.
Proof.
  unfold handleSendChatMessage_start.
  destruct (trim (chatInput s)) as [|c t]; [done|].
  destruct (negb (isOnline s)); [by destruct s|].
  set (s1 := setError _ _).
  assert (Hs1 : ride_view s1 = ride_view s) by (by destruct s).
  destruct (chatRef r) as [c0|] eqn:Er.
  - rewrite Er. cbn. split; [by destruct r | done].
  - pose proof (initializeChat_frame k s s1 r) as [Hr Hv].
    destruct (initializeChat k s (s1, r)) as [s2 r2]. cbn in Hr, Hv.
    rewrite <- Hs1, <- Hv, <- Hr.
    destruct (chatRef r2); cbn; (split; [by destruct r2 | by destruct s2]).
Qed.

Lemma stream_chunks_frame chunks : forall acc s,
  ride_view (stream_chunks chunks acc s).2 = ride_view s.
Proof.
  induction chunks as [|[[|c t]|] chunks IH]; intros acc s;
    cbn [stream_chunks]; rewrite ?IH; by destruct s.
Qed.

(** ** Ownership of the intervals *)

Ltac world_simpl :=
  unfold driverEffect_cleanup, trackingEffect_cleanup, driverEffect_body,
    trackingEffect_body, geolocationEffect_body, setInterval, clearInterval;
  app_simpl.

Lemma driverEffect_cleanup_owned w :
  timers_owned w ->
  timers_owned (driverEffect_cleanup w) /\ no_polls (driverEffect_cleanup w).
Proof.
  destruct w as [a [c d t] iv n o q g]. intros (H1 & H2 & H3).
  unfold timers_owned, no_polls. world_simpl.
  destruct d as [i|]; app_simpl.
  - split_and!.
    + intros id c' [_ ?]%lookup_delete_Some. eauto.
    + intros id eta [_ ?]%lookup_delete_Some. eauto.
    + intros id [x [_ ?]%lookup_delete_Some]. eauto.
    + intros id c' [Hne Hl]%lookup_delete_Some.
      apply H1 in Hl. congruence.
  - split_and!; try done. intros id c' Hl. by apply H1 in Hl.
Qed.

Lemma trackingEffect_cleanup_owned w :
  timers_owned w ->
  timers_owned (trackingEffect_cleanup w)
  /\ no_ticks (trackingEffect_cleanup w)
  /\ (no_polls w -> no_polls (trackingEffect_cleanup w)).
Proof.
  destruct w as [a [c d t] iv n o q g]. intros (H1 & H2 & H3).
  unfold timers_owned, no_ticks, no_polls. world_simpl.
  destruct t as [i|]; app_simpl.
  - split_and!.
    + intros id c' [_ ?]%lookup_delete_Some. eauto.
    + intros id eta [_ ?]%lookup_delete_Some. eauto.
    + intros id [x [_ ?]%lookup_delete_Some]. eauto.
    + intros id eta [Hne Hl]%lookup_delete_Some.
      apply H2 in Hl. congruence.
    + intros Hn id c' [_ Hl]%lookup_delete_Some. by apply Hn in Hl.
  - split_and!; try done. intros id eta Hl. by apply H2 in Hl.
Qed.

Lemma geolocationEffect_body_frame a w :
  refs (geolocationEffect_body a w) = refs w
  /\ intervals (geolocationEffect_body a w) = intervals w
  /\ next_interval (geolocationEffect_body a w) = next_interval w
  /\ driverStatus (app (geolocationEffect_body a w)) = driverStatus (app w)
  /\ currentRideOffer (app (geolocationEffect_body a w))
     = currentRideOffer (app w)
  /\ userMode (app (geolocationEffect_body a w)) = userMode (app w)
  /\ passengerRideStatus (app (geolocationEffect_body a w))
     = passengerRideStatus (app w).
Proof.
  destruct w as [s r iv n o q g], s. unfold geolocationEffect_body.
  app_simpl. destruct (geolocation g), (isOnline a); by app_simpl.
Qed.

Lemma driverEffect_body_owned a w :
  timers_owned w ->
  timers_owned (driverEffect_body a w)
  /\ (no_ticks w -> no_ticks (driverEffect_body a w))
  /\ (no_polls w -> driverStatus a <> online ->
      no_polls (driverEffect_body a w)).
Proof.
  destruct w as [s [c d t] iv n o q g]. intros (H1 & H2 & H3).
  unfold timers_owned, no_ticks, no_polls. world_simpl.
  destruct d as [i|]; case_bool_decide; app_simpl; split_and!; try done.
  - intros id c' [Hne Hl]%lookup_delete_Some. apply H1 in Hl. congruence.
  - intros id eta [_ ?]%lookup_delete_Some. eauto.
  - intros id [x [_ ?]%lookup_delete_Some]. eauto.
  - intros Hn id eta [_ ?]%lookup_delete_Some. by eapply Hn.
  - intros Hn _ id c' [_ ?]%lookup_delete_Some. by eapply Hn.
  - intros id c' [[-> _]|[_ Hl]]%lookup_insert_Some; [done|].
    by apply H1 in Hl.
  - intros id eta [[_ [=]]|[_ Hl]]%lookup_insert_Some. eauto.
  - intros id [x [[-> _]|[_ Hl]]%lookup_insert_Some]; [lia|].
    assert (id < n)%positive by eauto. lia.
  - intros Hn id eta [[_ [=]]|[_ Hl]]%lookup_insert_Some. by eapply Hn.
Qed.

Lemma trackingEffect_body_owned a w :
  timers_owned w -> no_ticks w ->
  timers_owned (trackingEffect_body a w)
  /\ (no_polls w -> no_polls (trackingEffect_body a w)).
Proof.
  destruct w as [s [c d t] iv n o q g]. intros (H1 & H2 & H3) Hnt.
  unfold timers_owned, no_ticks, no_polls in *. world_simpl.
  case_bool_decide; [|destruct t as [i|]]; app_simpl; split_and!; try done.
  - intros id c' [[_ [=]]|[_ Hl]]%lookup_insert_Some. eauto.
  - intros id eta [[-> _]|[_ Hl]]%lookup_insert_Some; [done|].
    by apply Hnt in Hl.
  - intros id [x [[-> _]|[_ Hl]]%lookup_insert_Some]; [lia|].
    assert (id < n)%positive by eauto. lia.
  - intros Hn id c' [[_ [=]]|[_ Hl]]%lookup_insert_Some. by eapply Hn.
  - intros id c' [_ ?]%lookup_delete_Some. eauto.
  - intros id eta [_ Hl]%lookup_delete_Some. by apply Hnt in Hl.
  - intros id [x [_ ?]%lookup_delete_Some]. eauto.
  - intros Hn id c' [_ ?]%lookup_delete_Some. by eapply Hn.
Qed.

Lemma stage_driver_cleanup a w :
  timers_owned w -> driverStatus (app w) = driverStatus a ->
  pass_stage a (driverEffect_cleanup w).
Proof.
  intros Ho Ha. destruct (driverEffect_cleanup_owned w Ho) as [H1 H2].
  split_and!; [done | done |].
  unfold driverEffect_cleanup. by rewrite clearInterval_app.
Qed.

Lemma stage_tracking_cleanup a w :
  pass_stage a w ->
  pass_stage a (trackingEffect_cleanup w)
  /\ no_ticks (trackingEffect_cleanup w).
Proof.
  intros (Ho & Hp & Ha).
  destruct (trackingEffect_cleanup_owned w Ho) as (H1 & H2 & H3).
  unfold pass_stage. split_and!; [done | auto | | done].
  unfold trackingEffect_cleanup. by rewrite clearInterval_app.
Qed.

Lemma stage_geolocation a a' w :
  pass_stage a w ->
  pass_stage a (geolocationEffect_body a' w)
  /\ (no_ticks w -> no_ticks (geolocationEffect_body a' w)).
Proof.
  intros (Ho & Hp & Ha).
  destruct (geolocationEffect_body_frame a' w) as (Hr & Hi & Hn & Hd & _).
  unfold pass_stage, timers_owned, no_polls, no_ticks in *.
  rewrite Hr, Hi, Hn, Hd. auto.
Qed.

Lemma driverEffect_body_app a w : app (driverEffect_body a w) = app w.
Proof.
  destruct w as [s [c d t] iv n o q g]. world_simpl.
  destruct d; case_bool_decide; reflexivity.
Qed.

Lemma trackingEffect_body_app a w : app (trackingEffect_body a w) = app w.
Proof.
  destruct w as [s [c d t] iv n o q g]. world_simpl.
  case_bool_decide; [|destruct t]; reflexivity.
Qed.

Lemma stage_driver_body a w :
  pass_stage a w ->
  pass_stage a (driverEffect_body a w)
  /\ (no_ticks w -> no_ticks (driverEffect_body a w)).
Proof.
  intros (Ho & Hp & Ha).
  destruct (driverEffect_body_owned a w Ho) as (H1 & H2 & H3).
  unfold pass_stage. split_and!; [done | auto | | done].
  by rewrite driverEffect_body_app.
Qed.

Lemma stage_tracking_body a a' w :
  pass_stage a w -> no_ticks w -> pass_stage a (trackingEffect_body a' w).
Proof.
  intros (Ho & Hp & Ha) Hnt.
  destruct (trackingEffect_body_owned a' w Ho Hnt) as (H1 & H2).
  split_and!; [done | auto |].
  by rewrite trackingEffect_body_app.
Qed.

Lemma effects_pass_owned prev w :
  timers_owned w ->
  (driverStatus prev = driverStatus (app w) -> polls_only_online w) ->
  timers_owned (effects_pass prev (app w) w)
  /\ polls_only_online (effects_pass prev (app w) w).
Proof.
  intros Ho Hp.
  enough (Hs : pass_stage (app w) (effects_pass prev (app w) w)).
  { destruct Hs as (H1 & H2 & H3). split; [done|].
    unfold polls_only_online. by rewrite H3. }
  unfold effects_pass.
  set (a := app w).
  set (drv := negb (bool_decide (driverEffect_deps prev = driverEffect_deps a))).
  set (trk :=
         negb (bool_decide (trackingEffect_deps prev = trackingEffect_deps a))).
  assert (S1 : pass_stage a ((if drv then driverEffect_cleanup else id) w)).
  { destruct drv eqn:Ed; [by apply stage_driver_cleanup|].
    split_and!; [done | | done].
    apply negb_false_iff, bool_decide_eq_true in Ed.
    apply Hp. by injection Ed. }
  set (w1 := (if drv then driverEffect_cleanup else id) w) in *.
  assert (S2 : pass_stage a ((if trk then trackingEffect_cleanup else id) w1)
               /\ (trk = true ->
                   no_ticks ((if trk then trackingEffect_cleanup else id) w1))).
  { destruct trk; [|done].
    destruct (stage_tracking_cleanup a w1 S1). auto. }
  set (w2 := (if trk then trackingEffect_cleanup else id) w1) in *.
  destruct S2 as [S2 T2].
  set (geo := negb (bool_decide (isOnline prev = isOnline a))).
  assert (S3 : pass_stage a ((if geo then geolocationEffect_body a else id) w2)
               /\ (trk = true ->
                   no_ticks ((if geo then geolocationEffect_body a else id) w2))).
  { destruct geo; [|done].
    destruct (stage_geolocation a a w2 S2). auto. }
  set (w3 := (if geo then geolocationEffect_body a else id) w2) in *.
  destruct S3 as [S3 T3].
  assert (S4 : pass_stage a ((if drv then driverEffect_body a else id) w3)
               /\ (trk = true ->
                   no_ticks ((if drv then driverEffect_body a else id) w3))).
  { destruct drv; [|done].
    destruct (stage_driver_body a w3 S3). auto. }
  set (w4 := (if drv then driverEffect_body a else id) w3) in *.
  destruct S4 as [S4 T4].
  destruct trk; [|done]. apply stage_tracking_body; auto.
Qed.

Lemma timers_owned_ext w w' :
  driverRequestIntervalRef (refs w') = driverRequestIntervalRef (refs w) ->
  rideTrackingIntervalRef (refs w') = rideTrackingIntervalRef (refs w) ->
  intervals w' = intervals w ->
  next_interval w' = next_interval w ->
  timers_owned w -> timers_owned w'.
Proof. unfold timers_owned. by intros -> -> -> ->. Qed.

Lemma resetAppState_lookup w :
  driverRequestIntervalRef (refs (resetAppState w)) = None
  /\ rideTrackingIntervalRef (refs (resetAppState w)) = None
  /\ (forall id cb,
        intervals (resetAppState w) !! id = Some cb ->
        intervals w !! id = Some cb
        /\ driverRequestIntervalRef (refs w) <> Some id
        /\ rideTrackingIntervalRef (refs w) <> Some id)
  /\ next_interval (resetAppState w) = next_interval w.
Proof.
  destruct w as [s [c d t] iv n o q g].
  unfold resetAppState, clearInterval. app_simpl.
  destruct d as [i|], t as [j|]; app_simpl; split_and!; try done;
    intros id cb Hl; repeat (apply lookup_delete_Some in Hl as [? Hl]);
    split_and!; congruence.
Qed.

Lemma dispatch_timers e w :
  timers_owned w ->
  timers_owned (dispatch JSON_parse StringToNumber e w)
  /\ (forall id c,
        intervals (dispatch JSON_parse StringToNumber e w) !! id
        = Some (simulateDriverActivity c) ->
        intervals w !! id = Some (simulateDriverActivity c)).
Proof.
  intros Ho.
  destruct e; cbn [dispatch];
    try (split; [by apply (timers_owned_ext w); destruct w | by destruct w]).
  - (* FindRide *)
    destruct (handleFindRide_start (app w)) as [s issued].
    split; [by apply (timers_owned_ext w); destruct w | by destruct w].
  - (* Reset *)
    destruct (resetAppState_lookup w) as (Hd & Ht & Hl & Hn).
    destruct Ho as (H1 & H2 & H3). unfold timers_owned.
    rewrite Hd, Ht, Hn. split_and!.
    + intros id c' (Hi & Hne & _)%Hl. apply H1 in Hi. congruence.
    + intros id eta (Hi & _ & Hne)%Hl. apply H2 in Hi. congruence.
    + intros id [x (Hi & _)%Hl]. eauto.
    + intros id c' (Hi & _)%Hl. done.
  - (* Tick *)
    destruct (intervals w !! id) as [[c|eta]|] eqn:El.
    + destruct (simulateDriverActivity_start c (app w)) as [s issued].
      split; [by apply (timers_owned_ext w); destruct w | by destruct w].
    + unfold trackingTick_run. destruct (gt0 StringToNumber eta).
      * destruct w as [s [c d t] iv n o q g]. destruct Ho as (H1 & H2 & H3).
        unfold timers_owned. app_simpl. cbn in El. split_and!.
        -- intros i c' [[_ [=]]|[_ Hl]]%lookup_insert_Some. eauto.
        -- intros i e' [[<- _]|[_ Hl]]%lookup_insert_Some; eauto.
        -- intros i [x [[<- _]|[_ Hl]]%lookup_insert_Some]; eauto.
        -- intros i c' [[_ [=]]|[_ Hl]]%lookup_insert_Some. done.
      * destruct w as [s [c d t] iv n o q g]. destruct Ho as (H1 & H2 & H3).
        unfold timers_owned, clearInterval. app_simpl. cbn in El.
        destruct t as [j|]; app_simpl; split_and!; try done.
        -- intros i c' [_ ?]%lookup_delete_Some. eauto.
        -- intros i e' [_ ?]%lookup_delete_Some. eauto.
        -- intros i [x [_ ?]%lookup_delete_Some]. eauto.
        -- intros i c' [_ ?]%lookup_delete_Some. done.
    + done.
  - (* Settle *)
    destruct (inflight w !! i) as [[p d'| | |acc]|];
      try (split; [by apply (timers_owned_ext w); destruct w | by destruct w]).
  - (* Position *)
    destruct (inflight w !! i) as [[p d'| | |acc]|];
      try (split; [by apply (timers_owned_ext w); destruct w | by destruct w]).
  - (* ToggleChat *)
    pose proof (handleToggleChat_frame (apiKey (env w)) (app w) (refs w))
      as [Hr _].
    destruct (handleToggleChat _ _) as [s r]. injection Hr as Hr1 Hr2.
    split; [by apply (timers_owned_ext w); destruct w | by destruct w].
  - (* SendChat *)
    pose proof (handleSendChatMessage_start_frame (apiKey (env w)) (app w)
                  (refs w)) as [Hr _].
    destruct (handleSendChatMessage_start _ _) as [[s r] out].
    injection Hr as Hr1 Hr2.
    split; [by apply (timers_owned_ext w); destruct w | by destruct w].
  - (* Reply *)
    destruct (inflight w !! i) as [[p d'| | |[acc|]]|], ev;
      try destruct (stream_chunks _ _ _);
      try (split; [by apply (timers_owned_ext w); destruct w | by destruct w]).
Qed.

Lemma fire_timers e w :
  timers_owned w -> polls_only_online w ->
  timers_owned (fire JSON_parse StringToNumber e w)
  /\ polls_only_online (fire JSON_parse StringToNumber e w).
Proof.
  intros Ho Hp. unfold fire, run_effects.
  set (w1 := dispatch JSON_parse StringToNumber e w).
  destruct (dispatch_timers e w Ho) as [Ho1 Hnew]. fold w1 in Ho1, Hnew.
  destruct (effects_pass_owned (app w) w1 Ho1) as [Ho2 Hp2].
  { intros Hst Hoff id c Hl. apply Hnew in Hl.
    rewrite <- Hst in Hoff. by apply (Hp Hoff id c). }
  by apply effects_pass_owned.
Qed.

Lemma initialWorld_intervals g o : intervals (initialWorld g o) = ∅.
Proof. destruct g as [[] k], o; reflexivity. Qed.

Lemma reachable_timers w :
  reachable JSON_parse StringToNumber w ->
  timers_owned w /\ polls_only_online w.
Proof.
  induction 1 as [g o|w e w' _ [IH1 IH2] Hs].
  - unfold timers_owned, polls_only_online, no_polls.
    rewrite initialWorld_intervals.
    split_and!; intros *; rewrite ?lookup_empty; done.
  - destruct Hs. by apply fire_timers.
Qed.

(** X27. After a reset of a reachable world no interval is left
    running. *)
Lemma resetAppState_no_interval w :
  reachable JSON_parse StringToNumber w ->
  intervals (resetAppState w) = ∅.
Proof.
  intros [(H1 & H2 & _) _]%reachable_timers.
  destruct (resetAppState_lookup w) as (_ & _ & Hl & _).
  apply map_empty. intros id.
  destruct (intervals (resetAppState w) !! id) as [cb|] eqn:E; [|done].
  apply Hl in E as (E & Hd & Ht).
  destruct cb; [by apply H1 in E | by apply H2 in E].
Qed.

Lemma later_reachable w w' :
  reachable JSON_parse StringToNumber w ->
  later (P := JSON_parse) (N := StringToNumber) w w' ->
  reachable JSON_parse StringToNumber w'.
Proof.
  intros Hr. induction 1; [done|]. by eapply reachable_step.
Qed.

(** ** What the effects leave alone *)

Lemma effects_pass_ride_view prev a w :
  ride_view (app (effects_pass prev a w)) = ride_view (app w).
Proof.
  unfold effects_pass, ride_view.
  repeat match goal with
  | |- context [if ?b then _ else id] => destruct b
  end; cbn [id];
  unfold driverEffect_cleanup, trackingEffect_cleanup;
  rewrite ?trackingEffect_body_app, ?driverEffect_body_app;
  try (destruct (geolocationEffect_body_frame a
         (clearInterval (rideTrackingIntervalRef
            (refs (clearInterval (driverRequestIntervalRef (refs w)) w)))
            (clearInterval (driverRequestIntervalRef (refs w)) w)))
         as (_ & _ & _ & -> & -> & -> & ->));
  try (destruct (geolocationEffect_body_frame a
         (clearInterval (driverRequestIntervalRef (refs w)) w))
         as (_ & _ & _ & -> & -> & -> & ->));
  try (destruct (geolocationEffect_body_frame a
         (clearInterval (rideTrackingIntervalRef (refs w)) w))
         as (_ & _ & _ & -> & -> & -> & ->));
  try (destruct (geolocationEffect_body_frame a w)
         as (_ & _ & _ & -> & -> & -> & ->));
  by rewrite ?clearInterval_app.
Qed.

Lemma run_effects_ride_view prev w :
  ride_view (app (run_effects prev w)) = ride_view (app w).
Proof. unfold run_effects. by rewrite !effects_pass_ride_view. Qed.

Lemma clearInterval_inflight id w : inflight (clearInterval id w) = inflight w.
Proof. destruct id, w; reflexivity. Qed.

Lemma driverEffect_body_inflight a w :
  inflight (driverEffect_body a w) = inflight w.
Proof.
  destruct w as [s [c d t] iv n o q g]. world_simpl.
  destruct d; case_bool_decide; reflexivity.
Qed.

Lemma trackingEffect_body_inflight a w :
  inflight (trackingEffect_body a w) = inflight w.
Proof.
  destruct w as [s [c d t] iv n o q g]. world_simpl.
  case_bool_decide; [|destruct t]; reflexivity.
Qed.

(** Without a change of connectivity an effects pass touches neither the
    state nor the outstanding requests. *)
Lemma effects_pass_quiet prev a w :
  isOnline prev = isOnline a ->
  app (effects_pass prev a w) = app w
  /\ inflight (effects_pass prev a w) = inflight w.
Proof.
  intros E. unfold effects_pass.
  rewrite (bool_decide_eq_true_2 _ E). cbn [negb id].
  repeat match goal with
  | |- context [if ?b then _ else id] => destruct b
  end; cbn [id];
  unfold driverEffect_cleanup, trackingEffect_cleanup;
  by rewrite ?trackingEffect_body_app, ?driverEffect_body_app,
       ?trackingEffect_body_inflight, ?driverEffect_body_inflight,
       ?clearInterval_app, ?clearInterval_inflight.
Qed.

Lemma run_effects_quiet prev w :
  isOnline prev = isOnline (app w) ->
  app (run_effects prev w) = app w
  /\ inflight (run_effects prev w) = inflight w.
Proof.
  intros E. unfold run_effects.
  destruct (effects_pass_quiet prev (app w) w E) as [Ha Hi].
  destruct (effects_pass_quiet (app w) (app (effects_pass prev (app w) w))
              (effects_pass prev (app w) w)) as [Ha' Hi'].
  { by rewrite Ha. }
  by rewrite Ha', Hi', Ha, Hi.
Qed.

(** A tick that finds no polling callback issues no request. *)
Lemma tick_without_polls w id :
  no_polls w ->
  inflight (fire JSON_parse StringToNumber (Tick id) w) = inflight w.
Proof.
  intros Hn. unfold fire.
  assert (Hd : inflight (dispatch JSON_parse StringToNumber (Tick id) w)
               = inflight w
               /\ isOnline (app (dispatch JSON_parse StringToNumber (Tick id) w))
                  = isOnline (app w)).
  { cbn [dispatch]. destruct (intervals w !! id) as [[c|eta]|] eqn:El.
    - by apply Hn in El.
    - unfold trackingTick_run. destruct (gt0 StringToNumber eta).
      + destruct w as [s r iv n o q g], s. by app_simpl.
      + rewrite <- (clearInterval_inflight (rideTrackingIntervalRef (refs w)) w).
        rewrite <- (clearInterval_app (rideTrackingIntervalRef (refs w)) w).
        destruct (clearInterval _ w) as [s r iv n o q g], s. by app_simpl.
    - done. }
  destruct Hd as [Hi Ho].
  destruct (run_effects_quiet (app w)
              (dispatch JSON_parse StringToNumber (Tick id) w)) as [_ H];
    [done|]. by rewrite H.
Qed.

(** The polling ref after an effects pass for a driver who is not online:
    emptied when the polling effect runs, left empty otherwise. *)
Lemma effects_pass_driver_ref prev a w :
  driverStatus a <> online ->
  driverEffect_deps prev <> driverEffect_deps a
  \/ driverRequestIntervalRef (refs w) = None ->
  driverRequestIntervalRef (refs (effects_pass prev a w)) = None.
Proof.
  intros Hoff Hc. unfold effects_pass.
  assert (Hb : forall w', driverRequestIntervalRef (refs (driverEffect_body a w'))
                          = None).
  { intros [s [c d t] iv n o q g]. world_simpl.
    rewrite (bool_decide_eq_false_2 _ Hoff). by destruct d. }
  assert (Ht : forall a' w', driverRequestIntervalRef
                               (refs (trackingEffect_body a' w'))
                             = driverRequestIntervalRef (refs w')).
  { intros a' [s [c d t] iv n o q g]. world_simpl.
    destruct (bool_decide _); [|destruct t]; reflexivity. }
  assert (Hg : forall w', refs (geolocationEffect_body a w') = refs w').
  { intros w'. apply geolocationEffect_body_frame. }
  destruct (bool_decide (driverEffect_deps prev = driverEffect_deps a)) eqn:Ed;
    cbn [negb id].
  - apply bool_decide_eq_true in Ed. destruct Hc as [Hc|Hc]; [done|].
    repeat match goal with
    | |- context [if ?b then _ else id] => destruct b
    end; cbn [id]; unfold trackingEffect_cleanup;
    by rewrite ?Ht, ?Hg, ?clearInterval_refs.
  - repeat match goal with
    | |- context [if ?b then _ else id] => destruct b
    end; cbn [id]; by rewrite ?Ht, ?Hb.
Qed.

(** ** Going offline *)

Lemma driverStatus_ride_view s s' :
  ride_view s = ride_view s' ->
  driverStatus s = driverStatus s' /\ currentRideOffer s = currentRideOffer s'
  /\ userMode s = userMode s' /\ passengerRideStatus s = passengerRideStatus s'.
Proof. unfold ride_view. by intros [= -> -> -> ->]. Qed.

(** C6. When the driver, in any reachable state in which the toggle is
    offered and the status is not [offline], toggles, the status becomes
    [offline], the offer is cleared, the polling interval is cancelled and
    its ref emptied; and in every later world in which the driver is
    (still) offline no polling callback is installed, so that no tick
    issues a request. *)
Theorem toggle_offline_halts_polling (w w1 : World) :
  reachable JSON_parse StringToNumber w ->
  step JSON_parse StringToNumber w DriverToggle w1 ->
  driverStatus (app w) <> offline ->
  driverStatus (app w1) = offline
  /\ currentRideOffer (app w1) = None
  /\ driverRequestIntervalRef (refs w1) = None
  /\ no_polls w1
  /\ forall w2,
      later (P := JSON_parse) (N := StringToNumber) w1 w2 ->
      driverStatus (app w2) = offline ->
      no_polls w2
      /\ forall id w3,
          step JSON_parse StringToNumber w2 (Tick id) w3 ->
          inflight w3 = inflight w2.
Proof.
  intros Hr Hs Hst.
  assert (Hr1 : reachable JSON_parse StringToNumber w1)
    by (by eapply reachable_step).
  inversion Hs as [e Hen He Hw1]. subst.
  assert (Hon : isOnline (app w) = true).
  { apply enabled_offered in Hen. cbn [offered] in Hen.
    by destruct (isOnline (app w)), (loading (app w));
      rewrite ?andb_false_r in Hen. }
  set (wd := dispatch JSON_parse StringToNumber DriverToggle w).
  assert (Hd : driverStatus (app wd) = offline
               /\ currentRideOffer (app wd) = None).
  { subst wd. cbn [dispatch]. destruct w as [s r iv n o q g]. app_simpl.
    unfold handleDriverToggleOnline. rewrite Hon. cbn [negb].
    rewrite (decide_False (P := driverStatus s = offline)) by done.
    destruct s; by app_simpl. }
  destruct Hd as [Hd1 Hd2].
  pose proof (run_effects_ride_view (app w) wd) as Hv.
  apply driverStatus_ride_view in Hv as (Hv1 & Hv2 & _).
  assert (Hoff : driverStatus
                   (app (fire JSON_parse StringToNumber DriverToggle w))
                 = offline).
  { unfold fire. fold wd. by rewrite Hv1. }
  split_and!.
  - done.
  - unfold fire. fold wd. by rewrite Hv2.
  - unfold fire, run_effects. fold wd.
    apply effects_pass_driver_ref.
    + pose proof (effects_pass_ride_view (app w) (app wd) wd) as Hv'.
      apply driverStatus_ride_view in Hv' as (-> & _). by rewrite Hd1.
    + right. apply effects_pass_driver_ref; [by rewrite Hd1|].
      left. unfold driverEffect_deps. intros [= E _ _ _]. congruence.
  - apply reachable_timers in Hr1 as [_ Hp]. apply Hp. by rewrite Hoff.
  - intros w2 Hl Hoff2.
    assert (Hn2 : no_polls w2).
    { apply (later_reachable _ _ Hr1), reachable_timers in Hl as [_ Hp].
      apply Hp. by rewrite Hoff2. }
    split; [done|]. intros id w3 Hs3. inversion Hs3; subst.
    by apply tick_without_polls.
Qed.

(** ** The tracking countdown *)

Lemma effects_pass_idle prev a w :
  isOnline prev = isOnline a ->
  driverEffect_deps prev = driverEffect_deps a ->
  trackingEffect_deps prev = trackingEffect_deps a ->
  effects_pass prev a w = w.
Proof.
  intros E1 E2 E3. unfold effects_pass.
  by rewrite !bool_decide_eq_true_2.
Qed.

Lemma run_effects_idle prev w :
  isOnline prev = isOnline (app w) ->
  driverEffect_deps prev = driverEffect_deps (app w) ->
  trackingEffect_deps prev = trackingEffect_deps (app w) ->
  run_effects prev w = w.
Proof.
  intros E1 E2 E3. unfold run_effects.
  rewrite (effects_pass_idle prev) by done. by apply effects_pass_idle.
Qed.

(** A tick that finds a positive counter: the counter drops by one, the
    message is republished, nothing else moves. *)
Lemma tick_decrements w id eta :
  intervals w !! id = Some (trackingTick eta) ->
  gt0 StringToNumber eta = true ->
  let eta' := JNum (number_pred (to_number StringToNumber eta)) in
  let w' := fire JSON_parse StringToNumber (Tick id) w in
  intervals w' = <[id := trackingTick eta']> (intervals w)
  /\ app w' = setApiResponse
                (js "ড্রাইভার " ++ json_to_string eta'
                 ++ js " মিনিট দূরে আছে। তারা আপনাকে নিতে আসছে।") (app w)
  /\ refs w' = refs w
  /\ next_interval w' = next_interval w.
Proof.
  intros El Hn.
  assert (Hd : dispatch JSON_parse StringToNumber (Tick id) w
               = w |> with_intervals
                        (<[id := trackingTick
                                   (JNum (number_pred
                                            (to_number StringToNumber eta)))]>)
                   |> with_app (setApiResponse
                        (js "ড্রাইভার "
                         ++ json_to_string
                              (JNum (number_pred
                                       (to_number StringToNumber eta)))
                         ++ js " মিনিট দূরে আছে। তারা আপনাকে নিতে আসছে।"))).
  { cbn [dispatch]. rewrite El. unfold trackingTick_run. by rewrite Hn. }
  cbn zeta. unfold fire. rewrite Hd.
  rewrite run_effects_idle; destruct w as [s r iv m o q g], s; by app_simpl.
Qed.

(** A tick that finds the counter at zero: the interval is cancelled and
    the status becomes [completed]. *)
Lemma tick_completes w i eta :
  timers_owned w ->
  intervals w !! i = Some (trackingTick eta) ->
  gt0 StringToNumber eta = false ->
  passengerRideStatus (app w) = Some tracking ->
  let w' := fire JSON_parse StringToNumber (Tick i) w in
  passengerRideStatus (app w') = Some completed
  /\ intervals w' !! i = None
  /\ rideTrackingIntervalRef (refs w') = None.
Proof.
  intros (H1 & H2 & H3) El Hz Hst.
  pose proof (H2 _ _ El) as Href.
  assert (Hd : dispatch JSON_parse StringToNumber (Tick i) w
               = w |> with_intervals (delete i)
                   |> with_app (fun s =>
                        s |> setApiResponse
                               (js "ড্রাইভার এসে গেছে! আপনার রাইড নিশ্চিত করুন।")
                          |> setPassengerRideStatus (Some completed))).
  { cbn [dispatch]. rewrite El. unfold trackingTick_run.
    rewrite Hz, Href. by destruct w. }
  cbn zeta. unfold fire. rewrite Hd. clear Hd.
  destruct w as [s [c d t] iv m o q g], s. app_simpl. subst.
  unfold run_effects. app_simpl.
  set (a := MkApp _ _ _ _ _ _ _ _ (Some completed) _ _ _ _ _ _ _).
  assert (Hp1 : effects_pass
            (MkApp userMode0 currentLocation0 pickupLocation0 destination0
               vehicleType0 paymentMethod0 driverStatus0 currentRideOffer0
               (Some tracking) apiResponse0 loading0 error0 isOnline0
               isChatOpen0 chatMessages0 chatInput0) a
            (MkWorld a (MkRefs c d (Some i)) (delete i iv) m o q g)
          = MkWorld a (MkRefs c d None) (delete i (delete i (delete i iv)))
              m o q g).
  { unfold effects_pass. subst a. unfold driverEffect_deps,
      trackingEffect_deps. app_simpl.
    rewrite (bool_decide_eq_false_2 (_ = (Some completed, _)))
      by (by intros [=]).
    rewrite !bool_decide_eq_true_2 by done.
    cbn [negb id]. by world_simpl. }
  rewrite Hp1. app_simpl. rewrite effects_pass_idle by done.
  app_simpl. split_and!; [done | | done].
  apply lookup_delete_eq.
Qed.

(** A tick of an interval that is not installed does not happen. *)
Lemma tick_absent w id :
  intervals w !! id = None ->
  fire JSON_parse StringToNumber (Tick id) w = w.
Proof.
  intros El. unfold fire. cbn [dispatch]. rewrite El.
  by apply run_effects_idle.
Qed.

Lemma ticks_S id k w :
  ticks JSON_parse StringToNumber id (S k) w
  = fire JSON_parse StringToNumber (Tick id)
      (ticks JSON_parse StringToNumber id k w).
Proof. reflexivity. Qed.

(** ** Whole numbers up to [2^53] *)

Lemma strip_pos_spec p : forall e p' e',
  strip_pos p e = (p', e') ->
  e <= e' /\ Z.pos p = Z.pos p' * 2 ^ (e' - e) /\ Z.odd (Z.pos p') = true.
Proof.
  induction p as [p IH|p IH|]; intros e p' e' H; cbn [strip_pos] in H.
  - injection H as <- <-. rewrite Z.sub_diag. split_and!; [lia | lia | done].
  - apply IH in H as (H1 & H2 & H3). split_and!; [lia | | done].
    replace (e' - e) with (Z.succ (e' - (e + 1))) by lia.
    rewrite Z.pow_succ_r by lia. lia.
  - injection H as <- <-. rewrite Z.sub_diag. split_and!; [lia | lia | done].
Qed.

Lemma round64_odd m e :
  Z.odd m = true -> 0 < m < 2 ^ 53 -> 0 <= e <= 53 ->
  round64 m e = Finite m e.
Proof.
  intros Hodd [H1 H2] [H3 H4]. unfold round64.
  rewrite (proj2 (Z.eqb_neq m 0)) by lia.
  rewrite (proj2 (Z.ltb_ge m 0)) by lia.
  rewrite Z.abs_eq by lia.
  destruct m as [|p|p]; [lia | | lia].
  assert (Hs : strip (Z.pos p) e = (Z.pos p, e)) by (by destruct p).
  rewrite Hs.
  assert (Hlog : Z.log2 (Z.pos p) < 53) by (apply Z.log2_lt_pow2; lia).
  rewrite (proj2 (Z.leb_le _ e)) by lia.
  unfold pack. by rewrite (proj2 (Z.ltb_ge 1024 _)) by lia.
Qed.

(** A whole number from 1 to [2^53] is a double, held exactly. *)
Lemma number_of_Z_whole n :
  1 <= n <= 2 ^ 53 ->
  exists m e,
    number_of_Z n = Finite m e /\ 0 < m /\ 0 <= e /\ m * 2 ^ e = n
    /\ canon (Finite m e) = Finite m e.
Proof.
  intros [H1 H2]. unfold number_of_Z, round64.
  rewrite (proj2 (Z.eqb_neq n 0)) by lia.
  rewrite (proj2 (Z.ltb_ge n 0)) by lia.
  rewrite Z.abs_eq by lia.
  destruct n as [|p|p]; [lia | | lia]. cbn [strip].
  destruct (strip_pos p 0) as [p' e'] eqn:Es.
  apply strip_pos_spec in Es as (He & Hv & Hodd).
  rewrite Z.sub_0_r in Hv.
  assert (Hp' : Z.pos p' < 2 ^ 53).
  { assert (1 <= 2 ^ e') by (apply Z.pow_le_mono_r with (b := 0); lia).
    assert (Z.pos p' <= 2 ^ 53) by nia.
    assert (Z.pos p' <> 2 ^ 53) by (intros E; by rewrite E in Hodd).
    lia. }
  assert (Hlog : Z.log2 (Z.pos p') < 53) by (apply Z.log2_lt_pow2; lia).
  assert (He' : e' <= 53).
  { apply (Z.pow_le_mono_r_iff 2); [lia | lia |]. nia. }
  rewrite (proj2 (Z.leb_le _ e')) by lia.
  unfold pack. rewrite (proj2 (Z.ltb_ge 1024 _)) by lia.
  exists (Z.pos p'), e'. split_and!; [done | lia | done | lia |].
  cbn [canon]. apply round64_odd; [done | lia | lia].
Qed.

Lemma number_pred_of_Z n :
  1 <= n <= 2 ^ 53 -> number_pred (number_of_Z n) = number_of_Z (n - 1).
Proof.
  intros Hn.
  destruct (number_of_Z_whole n Hn) as (m & e & -> & Hm & He & Hv & Hc).
  unfold number_pred. rewrite Hc. unfold number_of_Z.
  rewrite Z.min_r by lia. rewrite Z.sub_0_r, Hv. reflexivity.
Qed.

Lemma number_gt0_of_Z n :
  1 <= n <= 2 ^ 53 -> number_gt0 (number_of_Z n) = true.
Proof.
  intros Hn.
  destruct (number_of_Z_whole n Hn) as (m & e & -> & Hm & _ & _ & Hc).
  unfold number_gt0. rewrite Hc. by apply Z.ltb_lt.
Qed.

Lemma countdown_running w id n (k : nat) :
  reachable JSON_parse StringToNumber w ->
  intervals w !! id = Some (trackingTick (JNum (number_of_Z n))) ->
  passengerRideStatus (app w) = Some tracking ->
  n <= 2 ^ 53 ->
  Z.of_nat k <= n ->
  let wk := ticks JSON_parse StringToNumber id k w in
  reachable JSON_parse StringToNumber wk
  /\ intervals wk !! id
     = Some (trackingTick (JNum (number_of_Z (n - Z.of_nat k))))
  /\ passengerRideStatus (app wk) = Some tracking.
Proof.
  intros Hr El Hst Hmax. induction k as [|k IH]; intros Hk; cbn zeta.
  - unfold ticks. cbn [Nat.iter]. by rewrite Z.sub_0_r.
  - destruct IH as (IHr & IHl & IHs); [lia|].
    rewrite ticks_S.
    remember (ticks JSON_parse StringToNumber id k w) as wk eqn:Ewk.
    clear Ewk.
    destruct (tick_decrements wk id _ IHl) as (Hi & Ha & _).
    { unfold gt0. cbn [to_number]. apply number_gt0_of_Z. lia. }
    split_and!.
    + eapply reachable_step; [exact IHr|]. constructor.
      apply enabled_tick. by rewrite IHl.
    + rewrite Hi, lookup_insert_eq. cbn [to_number].
      rewrite number_pred_of_Z by lia. do 4 f_equal. lia.
    + rewrite Ha. by destruct (app wk).
Qed.

(** X26. Accepting an offer starts the countdown at the offer's
    [etaMinutes], or at 5 when that is absent or falsy: the status is
    [tracking], and a fresh interval with that counter is installed and
    named by the tracking ref. *)
Lemma accept_starts_countdown w o :
  currentRideOffer (app w) = Some o ->
  passengerRideStatus (app w) <> Some tracking ->
  let w' := fire JSON_parse StringToNumber PassengerAccept w in
  let eta := default (JNum (number_of_Z 5))
               (js_or (offer_get o "etaMinutes")
                  (Some (JNum (number_of_Z 5)))) in
  passengerRideStatus (app w') = Some tracking
  /\ intervals w' !! next_interval w = Some (trackingTick eta)
  /\ rideTrackingIntervalRef (refs w') = Some (next_interval w).
Proof.
  intros Ho Hst. cbn zeta. unfold fire. cbn [dispatch].
  destruct w as [s [c d t] iv n o' q g], s. app_simpl. subst.
  unfold handlePassengerAcceptRide. app_simpl.
  set (a := MkApp _ _ _ _ _ _ _ _ (Some tracking) _ _ _ _ _ _ _).
  unfold run_effects. app_simpl.
  assert (Hp1 : effects_pass
            (MkApp userMode0 currentLocation0 pickupLocation0 destination0
               vehicleType0 paymentMethod0 driverStatus0 (Some o)
               passengerRideStatus0 apiResponse0 loading0 error0 isOnline0
               isChatOpen0 chatMessages0 chatInput0) a
            (MkWorld a (MkRefs c d t) iv n o' q g)
          = MkWorld a (MkRefs c d (Some n))
              (<[n := trackingTick
                        (default (JNum (number_of_Z 5))
                           (js_or (offer_get o "etaMinutes")
                              (Some (JNum (number_of_Z 5)))))]>
                 (intervals (clearInterval t
                               (MkWorld a (MkRefs c d t) iv n o' q g))))
              (Pos.succ n) o' q g).
  { unfold effects_pass. subst a. unfold driverEffect_deps,
      trackingEffect_deps. app_simpl.
    rewrite (bool_decide_eq_false_2 (_ = (Some tracking, _)))
      by (intros [= E]; by rewrite E in Hst).
    rewrite !bool_decide_eq_true_2 by done.
    cbn [negb Datatypes.id]. unfold trackingEffect_cleanup,
      trackingEffect_body. app_simpl.
    rewrite bool_decide_eq_true_2 by (by destruct t).
    destruct t; reflexivity. }
  rewrite Hp1. app_simpl. rewrite effects_pass_idle by done.
  app_simpl. split_and!; [done | apply lookup_insert_eq | done].
Qed.

(** C5 (as the code has it). With the countdown of a tracking ride
    installed at a whole number [n] of minutes, from 1 to [2^53], each of
    the first [n] ticks lowers the counter by exactly one, down to zero and
    never below, and leaves the status at [tracking]; the next tick, the
    first to find the counter at zero, cancels the interval and sets the
    status to [completed], after which no tick of that interval happens any
    more. *)
Theorem tracking_countdown (w : World) (id : positive) (n : Z) :
  reachable JSON_parse StringToNumber w ->
  intervals w !! id = Some (trackingTick (JNum (number_of_Z n))) ->
  passengerRideStatus (app w) = Some tracking ->
  1 <= n <= 2 ^ 53 ->
  (forall k : nat, Z.of_nat k <= n ->
     let wk := ticks JSON_parse StringToNumber id k w in
     intervals wk !! id
     = Some (trackingTick (JNum (number_of_Z (n - Z.of_nat k))))
     /\ 0 <= n - Z.of_nat k
     /\ passengerRideStatus (app wk) = Some tracking)
  /\ (let w' := ticks JSON_parse StringToNumber id (S (Z.to_nat n)) w in
      passengerRideStatus (app w') = Some completed
      /\ intervals w' !! id = None
      /\ forall k : nat, ticks JSON_parse StringToNumber id k w' = w').
Proof.
  intros Hr El Hst [Hn Hmax]. split.
  - intros k Hk.
    destruct (countdown_running w id n k Hr El Hst Hmax Hk) as (_ & H1 & H2).
    split_and!; [done | lia | done].
  - destruct (countdown_running w id n (Z.to_nat n) Hr El Hst Hmax)
      as (Hr' & Hl & Hs); [lia|].
    rewrite Z2Nat.id, Z.sub_diag in Hl by lia.
    rewrite ticks_S.
    apply reachable_timers in Hr' as [Ho _].
    destruct (tick_completes _ id _ Ho Hl) as (? & Hgone & _); [done | done |].
    split_and!; [done | done |].
    intros k. induction k as [|k IH]; [done|].
    rewrite ticks_S, IH. by apply tick_absent.
Qed.

(** ** The offer and the driver status *)

Lemma ride_inv_view s s' :
  driverStatus s' = driverStatus s ->
  currentRideOffer s' = currentRideOffer s ->
  ride_inv s -> ride_inv s'.
Proof. unfold ride_inv. by intros -> ->. Qed.

Lemma ride_inv_cleared s' :
  currentRideOffer s' = None ->
  driverStatus s' <> request_pending ->
  ride_inv s'.
Proof. unfold ride_inv. intros -> ?. split_and!; done. Qed.

Lemma settled_request_inv fresh r s :
  schema_conform JSON_parse (Settle 0 r) ->
  ride_inv s ->
  ride_inv (simulateDriverActivity_settled JSON_parse fresh r s)
  /\ userMode (simulateDriverActivity_settled JSON_parse fresh r s)
     = userMode s.
Proof.
  intros Hc Hi. unfold simulateDriverActivity_settled.
  destruct r as [m|[text|]]; cbn [fmap option_fmap option_map];
    try (split; [apply (ride_inv_view s)|]; by destruct s).
  destruct (trim text) as [|ch t] eqn:Et;
    [split; [apply (ride_inv_view s)|]; by destruct s|].
  cbn [schema_conform] in Hc. rewrite Et in Hc.
  destruct (JSON_parse (ch :: t)) as [v|] eqn:Ep; cbn [mbind option_bind];
    [|split; [apply (ride_inv_view s)|]; by destruct s].
  pose proof (Hc v eq_refl) as Hf. unfold fare_numeric in Hf.
  assert (Hr : read_prop v "fare" = None
               \/ read_prop v "fare" = Some (get_prop v (js "fare"))).
  { unfold read_prop. destruct v; auto. }
  destruct Hr as [->| ->]; cbn [mbind option_bind];
    [split; [apply (ride_inv_view s)|]; by destruct s|].
  set (fare := get_prop v (js "fare")) in *.
  assert (Hs1 : forall x,
    ride_inv (setLoading false
                (setApiResponse x
                   (setDriverStatus request_pending
                      (setCurrentRideOffer
                         (Some {| obj_id := fresh;
                                  props := set_prop (js "estimatedFare") fare
                                             (own_props v) |}) s))))).
  { intros x. destruct s; unfold ride_inv; app_simpl. split_and!; try done.
    - intros o' [= <-]. by rewrite offer_get_set_prop_eq.
    - by intros [|[|]]. }
  split; [|destruct fare as [[]|]; by destruct s].
  destruct fare as [[]|]; apply Hs1.
Qed.

Lemma complete_inv s : ride_inv s -> ride_inv (handleDriverCompleteRide s).
Proof.
  intros (Hf & _ & _). unfold handleDriverCompleteRide.
  destruct (currentRideOffer s) as [o|] eqn:Eo; cbn [mbind option_bind].
  - specialize (Hf o eq_refl).
    destruct (opt_toFixed2 (offer_get o "estimatedFare")); [|done].
    apply ride_inv_cleared; by destruct s.
  - cbn [opt_toFixed2]. apply ride_inv_cleared; by destruct s.
Qed.

Lemma toggle_inv s : ride_inv s -> ride_inv (handleDriverToggleOnline s).
Proof.
  intros Hi. unfold handleDriverToggleOnline.
  destruct (isOnline s); cbn [negb].
  - apply ride_inv_cleared; [by destruct s|].
    destruct s; app_simpl. by case_decide.
  - apply (ride_inv_view s); by destruct s.
Qed.

Lemma accept_inv s : ride_inv s -> ride_inv (handleDriverAcceptRide s).
Proof.
  intros Hi. unfold handleDriverAcceptRide.
  destruct (currentRideOffer s) as [o|] eqn:Eo; [|done].
  destruct Hi as (Hf & Hn & Hp).
  destruct s; unfold ride_inv; app_simpl. subst.
  split_and!; [done | by intros [|[|]] | done].
Qed.

Lemma driver_inv_with_app f w :
  driver_inv w ->
  userMode (f (app w)) <> passenger ->
  ride_inv (f (app w)) ->
  driver_inv (with_app f w).
Proof. intros (_ & Hq & _) ? ?. destruct w. by split_and!. Qed.

Lemma effects_pass_inflight prev a w x :
  x ∈ inflight (effects_pass prev a w) -> x ∈ inflight w \/ x = PositionRequest.
Proof.
  unfold effects_pass.
  assert (Hg : forall w', x ∈ inflight (geolocationEffect_body a w') ->
                          x ∈ inflight w' \/ x = PositionRequest).
  { intros [s r iv n o q g]. unfold geolocationEffect_body. app_simpl.
    destruct (geolocation g && isOnline a), (negb (isOnline a));
      app_simpl; auto.
    all: intros [?|Hx]%elem_of_app; auto.
    all: apply list_elem_of_singleton in Hx; auto. }
  repeat match goal with
  | |- context [if ?b then _ else id] => destruct b
  end; cbn [id]; unfold driverEffect_cleanup, trackingEffect_cleanup;
  rewrite ?trackingEffect_body_inflight, ?driverEffect_body_inflight;
  try (intros H%Hg; revert H);
  rewrite ?clearInterval_inflight; tauto.
Qed.

Lemma run_effects_driver_inv prev w :
  driver_inv w -> driver_inv (run_effects prev w).
Proof.
  intros (Hm & Hq & Hi).
  pose proof (run_effects_ride_view prev w) as Hv.
  apply driverStatus_ride_view in Hv as (Hv1 & Hv2 & Hv3 & _).
  split_and!.
  - by rewrite Hv3.
  - intros p d Hin. unfold run_effects in Hin.
    apply effects_pass_inflight in Hin as [Hin|]; [|done].
    apply effects_pass_inflight in Hin as [Hin|]; [|done].
    by apply Hq in Hin.
  - by apply (ride_inv_view (app w)).
Qed.

Lemma resetAppState_ride w :
  userMode (app (resetAppState w)) = mode_none
  /\ currentRideOffer (app (resetAppState w)) = None
  /\ driverStatus (app (resetAppState w)) = offline.
Proof.
  destruct w as [a [c d t] iv n o q g]. destruct a.
  unfold resetAppState. app_simpl.
  by destruct d, t.
Qed.

Lemma dispatch_driver_inv e w :
  driver_inv w ->
  enabled w e = true ->
  e <> SelectMode passenger ->
  schema_conform JSON_parse e ->
  driver_inv (dispatch JSON_parse StringToNumber e w).
Proof.
  intros Hinv Hen Hne Hc. pose proof Hinv as (Hm & Hq & Hi).
  assert (Hpass : bool_decide (userMode (app w) = passenger) = false)
    by (by apply bool_decide_eq_false_2).
  apply enabled_offered in Hen.
  destruct e; cbn [dispatch]; cbn [offered] in Hen;
    rewrite ?Hpass in Hen; cbn [andb] in Hen; try discriminate.
  - (* SelectMode *)
    apply driver_inv_with_app; [done | |].
    + destruct m; [| done |]; by destruct (app w).
    + apply (ride_inv_view (app w)); [| |done]; by destruct (app w).
  - (* DriverToggle *)
    apply driver_inv_with_app; [done | | by apply toggle_inv].
    unfold handleDriverToggleOnline.
    destruct (isOnline (app w)); by destruct (app w).
  - (* DriverAccept *)
    apply driver_inv_with_app; [done | | by apply accept_inv].
    unfold handleDriverAcceptRide.
    destruct (currentRideOffer (app w)); by destruct (app w).
  - (* DriverDecline *)
    apply driver_inv_with_app; [done | by destruct (app w) |].
    apply ride_inv_cleared; by destruct (app w).
  - (* DriverComplete *)
    apply driver_inv_with_app; [done | | by apply complete_inv].
    unfold handleDriverCompleteRide.
    destruct (opt_toFixed2 _); by destruct (app w).
  - (* GoOnlineAgain *)
    apply andb_prop in Hen as [Hen _]. apply andb_prop in Hen as [_ Hen].
    apply bool_decide_eq_true in Hen.
    apply driver_inv_with_app; [done | by destruct (app w) |].
    destruct Hi as (_ & Hn & _).
    apply ride_inv_cleared; [|by destruct (app w)].
    unfold handleGoOnlineAgain.
    replace (currentRideOffer (setDriverStatus online (app w)))
      with (currentRideOffer (app w)) by (by destruct (app w)). auto.
  - (* Reset *)
    destruct (resetAppState_ride w) as (H1 & H2 & H3).
    split_and!.
    + by rewrite H1.
    + intros p d Hin. apply (Hq p d). revert Hin. clear.
      destruct w as [s [c d' t] iv n o q g]. unfold resetAppState.
      app_simpl. by destruct d', t.
    + apply ride_inv_cleared; [done | by rewrite H3].
  - (* BrowserOnline *)
    apply driver_inv_with_app; [done | by destruct (app w) |].
    apply (ride_inv_view (app w)); [| |done]; by destruct (app w).
  - (* BrowserOffline *)
    apply driver_inv_with_app; [done | by destruct (app w) |].
    apply (ride_inv_view (app w)); [| |done]; by destruct (app w).
  - (* Tick *)
    destruct (intervals w !! id) as [[c|eta]|] eqn:El; [| |done].
    + unfold simulateDriverActivity_start.
      destruct (_ && _); [|by destruct w].
      destruct w as [s r iv n o q g]. unfold driver_inv in *. app_simpl.
      split_and!; [by destruct s | | apply (ride_inv_view s); by destruct s].
      intros p d [Hin|Hin%list_elem_of_singleton]%elem_of_app; [|done].
      by apply Hq in Hin.
    + unfold trackingTick_run. destruct (gt0 StringToNumber eta).
      * destruct w as [s r iv n o q g]. unfold driver_inv in *. app_simpl.
        split_and!; [by destruct s | done |
                     apply (ride_inv_view s); by destruct s].
      * unfold driver_inv.
        rewrite <- (clearInterval_inflight (rideTrackingIntervalRef (refs w)) w)
          in Hq.
        rewrite <- (clearInterval_app (rideTrackingIntervalRef (refs w)) w)
          in Hm, Hi.
        destruct (clearInterval _ w) as [s r iv n o q g]. app_simpl.
        split_and!; [by destruct s | done |
                     apply (ride_inv_view s); by destruct s].
  - (* Settle *)
    destruct (inflight w !! i) as [[p d| | |acc]|] eqn:El; try done.
    + apply list_elem_of_lookup_2 in El. by apply Hq in El.
    + destruct (settled_request_inv (next_obj w) r (app w) Hc Hi) as [Hr Hu].
      destruct w as [s r' iv n o q g]. unfold driver_inv in *. app_simpl.
      split_and!; [by rewrite Hu | | done].
      intros p d Hin. apply (Hq p d).
      by apply list_elem_of_delete_inv in Hin.
  - (* Position *)
    destruct (inflight w !! i) as [[p d| | |acc]|] eqn:El; try done.
    destruct w as [s r' iv n o q g]. unfold driver_inv in *. app_simpl.
    split_and!.
    + destruct r; by destruct s.
    + intros p d Hin. apply (Hq p d).
      by apply list_elem_of_delete_inv in Hin.
    + apply (ride_inv_view s); [| |done]; destruct r; by destruct s.
  - (* ToggleChat *)
    pose proof (handleToggleChat_frame (apiKey (env w)) (app w) (refs w))
      as [_ Hv].
    destruct (handleToggleChat _ _) as [s r]. cbn [fst] in Hv.
    apply driverStatus_ride_view in Hv as (Hv1 & Hv2 & Hv3 & _).
    destruct w as [s0 r0 iv n o q g]. unfold driver_inv in *. app_simpl.
    split_and!; [by rewrite Hv3 | done | by apply (ride_inv_view s0)].
  - (* EditChatInput *)
    apply driver_inv_with_app; [done | by destruct (app w) |].
    apply (ride_inv_view (app w)); [| |done]; by destruct (app w).
  - (* SendChat *)
    pose proof (handleSendChatMessage_start_frame (apiKey (env w)) (app w)
                  (refs w)) as [_ Hv].
    destruct (handleSendChatMessage_start _ _) as [[s r] out].
    cbn [fst] in Hv.
    apply driverStatus_ride_view in Hv as (Hv1 & Hv2 & Hv3 & _).
    destruct w as [s0 r0 iv n o q g]. unfold driver_inv in *. app_simpl.
    split_and!; [by rewrite Hv3 | | by apply (ride_inv_view s0)].
    intros p d Hin. apply (Hq p d). destruct out; try done.
    apply elem_of_app in Hin as [Hin|Hin]; [done|].
    by apply list_elem_of_singleton in Hin.
  - (* Reply *)
    assert (Hdel : forall p d, FindRideRequest p d ∉ delete i (inflight w)).
    { intros p d Hin%list_elem_of_delete_inv. by apply Hq in Hin. }
    assert (Hins : forall x p d,
              FindRideRequest p d ∉ <[i := ChatReply x]> (inflight w)).
    { intros x p d [Hin|Hin]%elem_of_insert_inv; [done|]. by apply Hq in Hin. }
    destruct (inflight w !! i) as [[p d| | |[acc|]]|] eqn:El;
      destruct ev as [|c| |]; try done.
    + pose proof (stream_chunks_frame [c] acc (app w)) as Hv.
      destruct (stream_chunks _ _ _) as [acc' s]. cbn [snd] in Hv.
      apply driverStatus_ride_view in Hv as (Hv1 & Hv2 & Hv3 & _).
      destruct w as [s0 r0 iv n o q g]. unfold driver_inv in *. app_simpl.
      split_and!; [by rewrite Hv3 | apply Hins | by apply (ride_inv_view s0)].
    + destruct w as [s0 r0 iv n o q g]. unfold driver_inv in *. app_simpl.
      split_and!; [done | apply Hdel | done].
    + destruct w as [s0 r0 iv n o q g]. unfold driver_inv in *. app_simpl.
      split_and!; [by destruct s0 | apply Hdel |
                   apply (ride_inv_view s0); by destruct s0].
    + destruct w as [s0 r0 iv n o q g]. unfold driver_inv in *. app_simpl.
      split_and!; [by destruct s0 | apply Hins |
                   apply (ride_inv_view s0); by destruct s0].
    + destruct w as [s0 r0 iv n o q g]. unfold driver_inv in *. app_simpl.
      split_and!; [by destruct s0 | apply Hdel |
                   apply (ride_inv_view s0); by destruct s0].
Qed.

Lemma driver_session_inv w :
  driver_session JSON_parse StringToNumber w -> driver_inv w.
Proof.
  induction 1 as [g o|w e w' _ IH Hne Hc Hs].
  - unfold driver_inv, ride_inv.
    destruct g as [[] k], o; split_and!; try done;
      intros p d Hin; cbn in Hin;
      first [by apply elem_of_nil in Hin
            | by apply list_elem_of_singleton in Hin].
  - destruct Hs as [e Hen]. unfold fire.
    by apply run_effects_driver_inv, dispatch_driver_inv.
Qed.

(** C3 (as the code has it). The offer cell holds at most one offer (it is
    an option), and in every world of a driver session, the responses
    keeping to the request schema, the offer is consistent with the driver
    status: [request_pending] comes with an offer, [offline] and [online]
    come without one. *)
Theorem driver_session_consistent (w : World) :
  driver_session JSON_parse StringToNumber w ->
  offer_consistent (app w).
Proof.
  intros (_ & _ & _ & Hn & Hp)%driver_session_inv.
  split; [done|]. intros [?|?]; auto.
Qed.

End Properties.

(** * The sample runs *)

(** The facts of a sample run that evaluation settles; reachability and
    steps are left to their lemmas. *)
Ltac sample_facts :=
  split_and!;
  lazymatch goal with
  | |- reachable _ _ _ => idtac
  | |- step _ _ _ _ _ => idtac
  | |- _ => vm_compute; (reflexivity || discriminate)
  end.

Lemma run_trace_reachable P N es : forall w w',
  reachable P N w -> run_trace P N es w = Some w' -> reachable P N w'.
Proof.
  induction es as [|e es IH]; intros w w' Hr; cbn [run_trace].
  - by intros [= <-].
  - destruct (enabled w e) eqn:En; [|done].
    apply IH. eapply reachable_step; [exact Hr|]. by constructor.
Qed.

Lemma run_trace_driver_session P N es : forall w w',
  driver_session P N w ->
  Forall (fun e => e <> SelectMode passenger /\ schema_conform P e) es ->
  run_trace P N es w = Some w' ->
  driver_session P N w'.
Proof.
  induction es as [|e es IH]; intros w w' Hd Hes; cbn [run_trace].
  - by intros [= <-].
  - destruct (enabled w e) eqn:En; [|done].
    apply Forall_cons in Hes as [[Hne Hc] Hes].
    apply IH; [|done]. eapply driver_step; [exact Hd | done | done |].
    by constructor.
Qed.

Lemma sample_world_reachable es :
  run_trace sample_parse sample_number es (initialWorld sample_env true) <> None ->
  reachable sample_parse sample_number (sample_world es).
Proof.
  intros Hn.
  destruct (run_trace sample_parse sample_number es (initialWorld sample_env true))
    as [w|] eqn:Hw; [|done].
  unfold sample_world. rewrite Hw. cbn [default].
  eapply run_trace_reachable; [apply reachable_mount | exact Hw].
Qed.

Lemma request_schema_fare v : request_schema v -> fare_numeric v.
Proof. intros (_ & _ & _ & _ & _ & [n Hf]). unfold fare_numeric. by rewrite Hf. Qed.

Lemma sample_request_schema : request_schema sample_request.
Proof. unfold request_schema. split_and!; eexists; by vm_compute. Qed.

Lemma sample_request_conform i :
  schema_conform sample_parse (Settle i (Fulfilled (Some sample_request_text))).
Proof.
  intros v Hv. vm_compute in Hv. injection Hv as <-.
  apply request_schema_fare. exact sample_request_schema.
Qed.

Lemma trace_pending_session :
  driver_session sample_parse sample_number (sample_world trace_pending).
Proof.
  apply (run_trace_driver_session _ _ trace_pending (initialWorld sample_env true));
    [apply driver_mount | |].
  - unfold trace_pending. repeat apply Forall_cons_2; [..|apply Forall_nil_2];
      (split; [discriminate|]);
      first [exact I | apply sample_request_conform].
  - by vm_compute.
Qed.

(** ** C1 *)


(** ** C2 *)

Lemma handleFindRide_failed_witness :
  (let s2 := handleFindRide_settled sample_parse (pickupLocation sample_form)
               (destination sample_form) 0 (Fulfilled (Some (js "oops")))
               (handleFindRide_start sample_form).1 in
   passengerRideStatus s2 = None
   /\ message_shown s2
   /\ currentRideOffer s2 = None)
  /\ forall s',
      currentRideOffer
        (handleFindRide_settled sample_parse (pickupLocation sample_form)
           (destination sample_form) 0 (Fulfilled (Some (js "oops"))) s')
      = currentRideOffer s'.
Proof.
  apply (handleFindRide_failed sample_parse sample_form
           (Fulfilled (Some (js "oops"))) 0); try (vm_compute; reflexivity).
  right. vm_compute. reflexivity.
Defined.

(** ** C3 *)

Lemma driver_session_consistent_witness :
  offer_consistent (app (sample_world trace_pending)).
Proof.
  apply (driver_session_consistent sample_parse sample_number).
  apply trace_pending_session.
Defined.

(** C3, as stated, fails: once a passenger has found a ride, the offer is
    present while the driver status is [offline]. *)
Lemma offer_with_driver_offline :
  exists w,
    reachable sample_parse sample_number w
    /\ driverStatus (app w) = offline
    /\ currentRideOffer (app w) <> None
    /\ ~ offer_consistent (app w).
Proof.
  exists (sample_world trace_found).
  assert (Ho : currentRideOffer (app (sample_world trace_found)) <> None)
    by (vm_compute; discriminate).
  split_and!; [| by vm_compute | done |].
  - apply sample_world_reachable. vm_compute. discriminate.
  - intros [_ Hc]. apply Ho, Hc. left. by vm_compute.
Qed.

(** ** C4 *)

Lemma driver_accept_decline_witness :
  let s := app (sample_world trace_pending) in
  (let a := handleDriverAcceptRide s in
   driverStatus a = on_ride
   /\ pickupLocation a = offer_get sample_pending_offer "pickup"
   /\ destination a = offer_get sample_pending_offer "destination"
   /\ currentRideOffer a = Some sample_pending_offer)
  /\ (let d := handleDriverDeclineRide s in
      driverStatus d = online /\ currentRideOffer d = None).
Proof.
  apply (driver_accept_decline (app (sample_world trace_pending))
           sample_pending_offer); vm_compute; reflexivity.
Defined.

(** C4, as stated, fails: after accept the offer is still there. *)
Lemma accept_keeps_offer :
  exists w w',
    reachable sample_parse sample_number w
    /\ driverStatus (app w) = request_pending
    /\ currentRideOffer (app w) <> None
    /\ step sample_parse sample_number w DriverAccept w'
    /\ driverStatus (app w') = on_ride
    /\ currentRideOffer (app w') <> None.
Proof.
  exists (sample_world trace_pending),
    (fire sample_parse sample_number DriverAccept (sample_world trace_pending)).
  sample_facts.
  - apply sample_world_reachable. vm_compute. discriminate.
  - constructor. by vm_compute.
Qed.

(** ** C5 *)

Lemma sample_tracking_reachable :
  reachable sample_parse sample_number sample_tracking.
Proof. apply sample_world_reachable. vm_compute. discriminate. Qed.

Lemma tracking_countdown_witness :
  (forall k : nat, Z.of_nat k <= 1 ->
     let wk := ticks sample_parse sample_number 1 k sample_tracking in
     intervals wk !! 1%positive
     = Some (trackingTick (JNum (number_of_Z (1 - Z.of_nat k))))
     /\ 0 <= 1 - Z.of_nat k
     /\ passengerRideStatus (app wk) = Some tracking)
  /\ (let w' := ticks sample_parse sample_number 1 (S (Z.to_nat 1))
                  sample_tracking in
      passengerRideStatus (app w') = Some completed
      /\ intervals w' !! 1%positive = None
      /\ forall k : nat, ticks sample_parse sample_number 1 k w' = w').
Proof.
  apply (tracking_countdown sample_parse sample_number sample_tracking 1 1).
  - apply sample_tracking_reachable.
  - vm_compute. reflexivity.
  - vm_compute. reflexivity.
  - lia.
Defined.

Lemma run_trace_default_reachable P N es :
  run_trace P N es (initialWorld sample_env true) <> None ->
  reachable P N
    (default (initialWorld sample_env true)
       (run_trace P N es (initialWorld sample_env true))).
Proof.
  intros Hn.
  destruct (run_trace P N es (initialWorld sample_env true)) as [w|] eqn:Hw;
    [|done].
  cbn [default].
  eapply run_trace_reachable; [apply reachable_mount | exact Hw].
Qed.

(** C5, as stated, fails in three ways.  The tick that brings the counter
    to zero leaves the status at [tracking] and the interval running: the
    status changes one tick later.  A counter that is not whole goes below
    zero: from two and a half minutes the third tick leaves minus a half,
    the status still [tracking].  And a large counter is not lowered by one:
    at [2^54] the binary64 difference [2^54 - 1] rounds back to [2^54], so
    no tick changes the counter and it never reaches zero. *)
Lemma countdown_fails :
  (let w := sample_tracking in
   let w' := fire sample_parse sample_number (Tick 1) w in
   reachable sample_parse sample_number w
   /\ passengerRideStatus (app w) = Some tracking
   /\ intervals w !! 1%positive = Some (trackingTick (JNum (number_of_Z 1)))
   /\ intervals w' !! 1%positive = Some (trackingTick (JNum (number_of_Z 0)))
   /\ passengerRideStatus (app w') = Some tracking
   /\ passengerRideStatus (app w') <> Some completed)
  /\ (let w := sample_tracking_eta "2.5" in
      let w' := ticks sample_parse_eta sample_number 1 3 w in
      reachable sample_parse_eta sample_number w
      /\ passengerRideStatus (app w) = Some tracking
      /\ intervals w !! 1%positive = Some (trackingTick (JNum (Finite 5 (-1))))
      /\ intervals w' !! 1%positive
         = Some (trackingTick (JNum (Finite (-1) (-1))))
      /\ passengerRideStatus (app w') = Some tracking)
  /\ (let w := sample_tracking_eta "18014398509481984" in
      reachable sample_parse_eta sample_number w
      /\ forall k : nat,
          let wk := ticks sample_parse_eta sample_number 1 k w in
          intervals wk !! 1%positive
          = Some (trackingTick (JNum (number_of_Z (2 ^ 54))))
          /\ passengerRideStatus (app wk) = Some tracking).
Proof.
  split; [|split].
  - sample_facts.
    apply sample_tracking_reachable.
  - sample_facts.
    apply (run_trace_default_reachable sample_parse_eta sample_number
             (trace_tracking (sample_eta_text "2.5"))).
    vm_compute. discriminate.
  - split.
    + apply (run_trace_default_reachable sample_parse_eta sample_number
               (trace_tracking (sample_eta_text "18014398509481984"))).
      vm_compute. discriminate.
    + intros k.
      assert (H1 : fire sample_parse_eta sample_number (Tick 1)
                     (fire sample_parse_eta sample_number (Tick 1)
                        (sample_tracking_eta "18014398509481984"))
                   = fire sample_parse_eta sample_number (Tick 1)
                       (sample_tracking_eta "18014398509481984"))
        by (vm_compute; reflexivity).
      assert (Hk : forall j : nat,
                ticks sample_parse_eta sample_number 1 (S j)
                  (sample_tracking_eta "18014398509481984")
                = fire sample_parse_eta sample_number (Tick 1)
                    (sample_tracking_eta "18014398509481984")).
      { induction j as [|j IH]; [done|]. by rewrite ticks_S, IH. }
      destruct k as [|k]; cbn zeta; [|rewrite Hk];
        split; vm_compute; reflexivity.
Qed.

(** ** C6 *)

Lemma toggle_offline_halts_polling_witness :
  let w1 := fire sample_parse sample_number DriverToggle sample_polling in
  driverStatus (app w1) = offline
  /\ currentRideOffer (app w1) = None
  /\ driverRequestIntervalRef (refs w1) = None
  /\ no_polls w1
  /\ forall w2,
      later (P := sample_parse) (N := sample_number) w1 w2 ->
      driverStatus (app w2) = offline ->
      no_polls w2
      /\ forall id w3,
          step sample_parse sample_number w2 (Tick id) w3 ->
          inflight w3 = inflight w2.
Proof.
  apply (toggle_offline_halts_polling sample_parse sample_number
           sample_polling).
  - apply sample_world_reachable. vm_compute. discriminate.
  - constructor. vm_compute. reflexivity.
  - vm_compute. discriminate.
Defined.

(** The sample driver was polling before the toggle. *)
Example sample_polling_installed :
  driverStatus (app sample_polling) = online
  /\ driverRequestIntervalRef (refs sample_polling) = Some 1%positive
  /\ is_Some (intervals sample_polling !! 1%positive).
Proof. split_and!; [by vm_compute | by vm_compute |]. vm_compute. eauto. Qed.

(** ** C7 *)

Lemma passenger_cancel_witness :
  let c := handlePassengerCancelRide (app (sample_world trace_found)) in
  passengerRideStatus c = Some canceled /\ currentRideOffer c = None.
Proof.
  apply (passenger_cancel (app (sample_world trace_found))).
  vm_compute. reflexivity.
Defined.

(** C7, as stated, fails: after cancel the status is [canceled], not the
    absent one. *)
Lemma cancel_leaves_a_status :
  exists w w',
    reachable sample_parse sample_number w
    /\ passengerRideStatus (app w) = Some found
    /\ step sample_parse sample_number w PassengerCancel w'
    /\ passengerRideStatus (app w') = Some canceled
    /\ passengerRideStatus (app w') <> None.
Proof.
  exists (sample_world trace_found),
    (fire sample_parse sample_number PassengerCancel (sample_world trace_found)).
  sample_facts.
  - apply sample_world_reachable. vm_compute. discriminate.
  - constructor. by vm_compute.
Qed.

(** ** C8 *)

Lemma handleSendChatMessage_rejected_witness :
  let a := setIsOnline false sample_chat.1 in
  exists a',
    handleSendChatMessage_start (Some (js "key")) (a, sample_chat.2)
    = (a', sample_chat.2, SendRejected)
    /\ chatMessages a' = chatMessages a
    /\ chatInput a' = chatInput a
    /\ (forallb is_js_space (chatInput a) = true -> a' = a)
    /\ setError (error a) a' = a.
Proof.
  apply (handleSendChatMessage_rejected (Some (js "key"))
           (setIsOnline false sample_chat.1) sample_chat.2).
  left. vm_compute. reflexivity.
Defined.

(** With connectivity, the same input is dispatched and the user turn
    appended. *)
Example send_accepted :
  exists a r,
    handleSendChatMessage_start (Some (js "key")) sample_chat
    = (a, r, SendDispatched (js "hello"))
    /\ chatMessages a
       = [chat_greeting; {| sender := user; text := Text (js "hello") |}]
    /\ (sent <$> chatRef r) = Some [js "hello"].
Proof. do 2 eexists. split_and!; by vm_compute. Qed.

(** ** C9 *)

Lemma stream_replaces_placeholder_witness :
  let chunks := [Some (js "Hel"); Some (js "lo"); Some (js "!")] in
  let '(acc, s') := stream_chunks chunks [] (stream_opened sample_dispatched) in
  acc = fragments_text chunks
  /\ chatMessages s'
     = chatMessages sample_dispatched
       ++ [{| sender := ai; text := Text (fragments_text chunks) |}].
Proof.
  apply (stream_replaces_placeholder sample_dispatched
           [Some (js "Hel"); Some (js "lo"); Some (js "!")]).
  vm_compute. discriminate.
Defined.

Example stream_hello :
  chatMessages
    (stream_chunks [Some (js "Hel"); Some (js "lo"); Some (js "!")] []
       (stream_opened sample_dispatched)).2
  = [chat_greeting; {| sender := user; text := Text (js "hello") |};
     {| sender := ai; text := Text (js "Hello!") |}].
Proof. by vm_compute. Qed.

(** C9, as stated, fails: a stream without text (no chunk, or chunks whose
    text is empty or [undefined]) leaves the placeholder as the last turn;
    no turn holds the (empty) concatenation. *)
Lemma textless_stream_keeps_placeholder :
  let chunks := [None; Some []] in
  let s' := (stream_chunks chunks [] (stream_opened sample_dispatched)).2 in
  chatMessages s' = chatMessages sample_dispatched ++ [chat_placeholder]
  /\ chatMessages s'
     <> chatMessages sample_dispatched
        ++ [{| sender := ai; text := Text (fragments_text chunks) |}].
Proof. split; [by vm_compute|]. vm_compute. discriminate. Qed.

(** * Further properties of the handlers *)

Section Handlers.

Variable JSON_parse : jsstring -> option json.

(** ** Find-ride *)

(** X1. Find-ride is turned down up front when the pickup or the
    destination is empty (falsy) or connectivity is unavailable: no request
    is issued and nothing but the error text, which is not empty, is set. *)
Theorem handleFindRide_turned_down (s : App) :
  truthy (pickupLocation s) = false \/ truthy (destination s) = false
  \/ isOnline s = false ->
  exists msg,
    msg <> [] /\ handleFindRide_start s = (setError msg s, false).
Proof.
  intros H. unfold handleFindRide_start.
  destruct (truthy (pickupLocation s)), (truthy (destination s));
    cbn [negb orb]; try by (eexists; split; [|reflexivity]).
  destruct H as [H|[H|H]]; try done. rewrite H. cbn [negb].
  by eexists; split; [|reflexivity].
Qed.


(** X3. The found offer is the response with [pickup] and [destination]
    overwritten: it is a fresh object and every other property reads as in
    the parsed response. *)
Theorem found_offer_carries_response (s : App) (pickup dest : jsval)
    (fresh : nat) (text : jsstring) (v : json) :
  trim text <> [] ->
  JSON_parse (trim text) = Some v ->
  v <> JNull ->
  truthy (get_prop v (js "message")) = false ->
  exists o,
    currentRideOffer
      (handleFindRide_settled JSON_parse pickup dest fresh
         (Fulfilled (Some text)) s) = Some o
    /\ obj_id o = fresh
    /\ forall k, k <> js "pickup" -> k <> js "destination" ->
         props o !! k = get_prop v k.
Proof.
  intros Ht Hp Hn Hm. unfold handleFindRide_settled.
  cbn [fmap option_fmap option_map].
  destruct (trim text) as [|c t] eqn:Et; [done|]. rewrite Hp.
  assert (Hr : read_prop v "message" = Some (get_prop v (js "message"))).
  { unfold read_prop. by destruct v. }
  cbn [mbind option_bind]. rewrite Hr. cbn [mbind option_bind]. rewrite Hm.
  destruct s; app_simpl. eexists. split_and!; [reflexivity | done |].
  intros k Hk1 Hk2. cbn [props]. unfold set_prop, get_prop.
  assert (js "pickup" <> k) by congruence.
  assert (js "destination" <> k) by congruence.
  destruct dest, pickup;
    repeat first [rewrite lookup_insert_ne by assumption
                 | rewrite lookup_delete_ne by assumption]; reflexivity.
Qed.

(** X4. A response whose text is the JSON [null] is handled like text that
    does not parse, by the passenger search and by the driver request
    alike: reading a property of [null] throws inside the [try] around
    [JSON.parse]. *)
Theorem null_response_is_parse_failure (s : App) (pickup dest : jsval)
    (fresh : nat) (text : jsstring) :
  trim text <> [] ->
  JSON_parse (trim text) = Some JNull ->
  handleFindRide_settled JSON_parse pickup dest fresh (Fulfilled (Some text)) s
  = s |> setApiResponse parse_failed_ride |> setPassengerRideStatus None
      |> setLoading false
  /\ simulateDriverActivity_settled JSON_parse fresh (Fulfilled (Some text)) s
     = s |> setApiResponse parse_failed_request |> setLoading false.
Proof.
  intros Ht Hp. unfold handleFindRide_settled, simulateDriverActivity_settled.
  cbn [fmap option_fmap option_map].
  destruct (trim text) as [|c t] eqn:Et; [done|]. by rewrite Hp.
Qed.

(** ** The driver's incoming request *)


(** X6. When the response parses to a value other than [null], the request
    is pending whatever the value holds: the status is [request_pending]
    and the offer is a fresh object that reads as the response does, with
    [estimatedFare] holding the response's [fare]. *)
Theorem simulateDriverActivity_pending (s : App) (fresh : nat)
    (text : jsstring) (v : json) :
  trim text <> [] ->
  JSON_parse (trim text) = Some v ->
  v <> JNull ->
  let s' := simulateDriverActivity_settled JSON_parse fresh
              (Fulfilled (Some text)) s in
  driverStatus s' = request_pending
  /\ loading s' = false
  /\ exists o,
      currentRideOffer s' = Some o
      /\ obj_id o = fresh
      /\ offer_get o "estimatedFare" = get_prop v (js "fare")
      /\ forall k, k <> js "estimatedFare" -> props o !! k = get_prop v k.
Proof.
  intros Ht Hp Hn. unfold simulateDriverActivity_settled.
  cbn [fmap option_fmap option_map].
  destruct (trim text) as [|c t] eqn:Et; [done|]. rewrite Hp.
  assert (Hr : read_prop v "fare" = Some (get_prop v (js "fare"))).
  { unfold read_prop. by destruct v. }
  cbn [mbind option_bind]. rewrite Hr. cbn [mbind option_bind].
  set (fare := get_prop v (js "fare")).
  assert (Ho : forall k, k <> js "estimatedFare" ->
            set_prop (js "estimatedFare") fare (own_props v) !! k
            = get_prop v k).
  { intros k Hk. unfold set_prop, get_prop.
    assert (js "estimatedFare" <> k) by congruence.
    destruct fare;
      [by rewrite lookup_insert_ne | by rewrite lookup_delete_ne]. }
  destruct fare as [[]|] eqn:Ef; destruct s; app_simpl;
    (split_and!; try done; eexists; split_and!;
     [reflexivity | done | | exact Ho]);
    unfold offer_get; cbn [props]; apply lookup_insert_eq || idtac.
  unfold set_prop. apply lookup_delete_eq.
Qed.

(** X7. When the fare of such a response is not a number (it is absent, or
    a string, ...), [fare.toFixed] throws after the offer and the status
    have been set: the request is pending with its offer, and the
    [apiResponse] cell holds the text of a parse failure.  The driver's page
    does not render that text while the request is pending; and for a fare
    that is present and not [null] the [estimatedFare?.toFixed(2)] of the
    request card throws as well. *)
Theorem simulateDriverActivity_bad_fare (s : App) (fresh : nat)
    (text : jsstring) (v : json) :
  trim text <> [] ->
  JSON_parse (trim text) = Some v ->
  v <> JNull ->
  (forall x, get_prop v (js "fare") <> Some (JNum x)) ->
  let s' := simulateDriverActivity_settled JSON_parse fresh
              (Fulfilled (Some text)) s in
  apiResponse s' = parse_failed_request
  /\ driverStatus s' = request_pending
  /\ loading s' = false
  /\ (exists o,
        currentRideOffer s' = Some o
        /\ offer_get o "estimatedFare" = get_prop v (js "fare")
        /\ (get_prop v (js "fare") <> None ->
            get_prop v (js "fare") <> Some JNull ->
            opt_toFixed2 (offer_get o "estimatedFare") = None))
  /\ (userMode s = driver ->
      passengerRideStatus s <> Some canceled ->
      passengerRideStatus s <> Some completed ->
      apiResponse_rendered s' = false).
Proof.
  intros Ht Hp Hn Hf. unfold simulateDriverActivity_settled.
  cbn [fmap option_fmap option_map].
  destruct (trim text) as [|c t] eqn:Et; [done|]. rewrite Hp.
  assert (Hr : read_prop v "fare" = Some (get_prop v (js "fare"))).
  { unfold read_prop. by destruct v. }
  cbn [mbind option_bind]. rewrite Hr. cbn [mbind option_bind].
  assert (Ho : forall fare : jsval,
            set_prop (js "estimatedFare") fare (own_props v)
              !! js "estimatedFare" = fare).
  { intros [j|]; unfold set_prop;
      [apply lookup_insert_eq | apply lookup_delete_eq]. }
  assert (Hrend : forall s1 : App,
            userMode s1 = driver ->
            driverStatus s1 = request_pending ->
            is_Some (currentRideOffer s1) ->
            passengerRideStatus s1 <> Some canceled ->
            passengerRideStatus s1 <> Some completed ->
            apiResponse_rendered s1 = false).
  { intros s1 Hm Hd Hso Hc1 Hc2. unfold apiResponse_rendered.
    rewrite Hm, Hd.
    rewrite (bool_decide_eq_true_2 _ Hso).
    rewrite (bool_decide_eq_false_2 _ Hc1), (bool_decide_eq_false_2 _ Hc2).
    rewrite !(bool_decide_eq_false_2 (driver = _)) by done.
    rewrite !(bool_decide_eq_false_2 (request_pending = _)) by done.
    by destruct (apiResponse s1),
      (bool_decide (passengerRideStatus s1 = Some tracking)),
      (bool_decide (driver = driver)). }
  destruct (get_prop v (js "fare")) as [fare|] eqn:Ef.
  - destruct fare; try (by destruct (Hf x));
      (destruct s; app_simpl;
       split_and!; try done;
       [eexists; split_and!;
          [reflexivity | unfold offer_get; cbn [props]; apply (Ho (Some _))
          | intros _ H; try done; unfold offer_get; cbn [props];
            by rewrite (Ho (Some _))]
       | intros Hm Hc1 Hc2; by apply Hrend]).
  - destruct s; app_simpl. split_and!; try done.
    + eexists. split_and!; [reflexivity | | done].
      unfold offer_get. cbn [props]. apply (Ho None).
    + intros Hm Hc1 Hc2. by apply Hrend.
Qed.

End Handlers.

(** ** Completing a driver's ride *)

(** X8. Completing a ride reports the offer's fare: with a numeric fare
    the earnings are shown as [toFixed(2)] gives them (two decimals below
    [10^21], Number::toString from there on) and the offer is cleared; with
    no fare (absent or [null]) the text reads [undefined] in its place; and
    with a fare of any other kind [toFixed] throws after the status was
    set, so the status is [ride_completed] while the offer stays. *)
Theorem handleDriverCompleteRide_fare (s : App) (o : RideOffer) :
  currentRideOffer s = Some o ->
  let earned x :=
    s |> setDriverStatus ride_completed
      |> setApiResponse (js "রাইড সম্পন্ন হয়েছে! আপনি ৳" ++ x
                         ++ js " উপার্জন করেছেন। যাত্রীকে রেটিং দিন।")
      |> setCurrentRideOffer None in
  match offer_get o "estimatedFare" with
  | Some (JNum x) => handleDriverCompleteRide s = earned (toFixed2 x)
  | None | Some JNull => handleDriverCompleteRide s = earned (js "undefined")
  | Some _ =>
    handleDriverCompleteRide s = setDriverStatus ride_completed s
    /\ currentRideOffer (handleDriverCompleteRide s) = Some o
  end.
Proof.
  intros Ho. unfold handleDriverCompleteRide. rewrite Ho.
  cbn [mbind option_bind].
  destruct (offer_get o "estimatedFare") as [[]|]; cbn [opt_toFixed2];
    try reflexivity; (split; [reflexivity|]); by destruct s.
Qed.

(** * Further properties of the chat *)

(** X9. Opening the session never touches an existing one: with a session
    in the ref, [initializeChat] leaves the ref and the turns as they are,
    and with an API key and connectivity it changes nothing at all.  So a
    second call changes nothing. *)
Theorem initializeChat_keeps_session (apiKey : option jsstring) (a s : App)
    (r : Refs) (c : Chat) :
  chatRef r = Some c ->
  let sr := initializeChat apiKey a (s, r) in
  sr.2 = r
  /\ chatMessages sr.1 = chatMessages s
  /\ (truthy (JStr <$> apiKey) = true -> isOnline a = true -> sr = (s, r))
  /\ initializeChat apiKey a sr = sr.
Proof.
  intros Hc. cbn zeta. unfold initializeChat.
  destruct (truthy (JStr <$> apiKey)); cbn [negb fst snd];
    [|split_and!; try done; by destruct s].
  destruct (isOnline a); cbn [negb fst snd];
    [|split_and!; try done; by destruct s].
  rewrite Hc. cbn [fst snd]. by rewrite Hc.
Qed.

(** X10. With a session open, connectivity and an input that is not blank,
    sending appends exactly the user turn, empties the input and the error
    text, and passes the message to the session. *)
Theorem handleSendChatMessage_sent (apiKey : option jsstring) (a : App)
    (r : Refs) (c : Chat) :
  chatRef r = Some c ->
  isOnline a = true ->
  trim (chatInput a) <> [] ->
  handleSendChatMessage_start apiKey (a, r)
  = (a |> setChatMessages
            (fun prev => prev ++ [{| sender := user;
                                     text := Text (chatInput a) |}])
       |> setChatInput []
       |> setError [],
     r |> set_chatRef (Some (sendMessageStream (chatInput a) c)),
     SendDispatched (chatInput a)).
Proof.
  intros Hc Hon Ht. unfold handleSendChatMessage_start.
  destruct (trim (chatInput a)) as [|x t]; [done|].
  rewrite Hon, Hc. cbn [negb]. rewrite Hc. reflexivity.
Qed.

(** X11. When no session exists yet, sending opens one first, and opening
    one sets the turn sequence to the greeting alone: the message goes to
    the new session, but the user turn just appended is gone from the turn
    sequence. *)
Theorem handleSendChatMessage_lazy_session (apiKey : option jsstring)
    (a : App) (r : Refs) :
  chatRef r = None ->
  truthy (JStr <$> apiKey) = true ->
  isOnline a = true ->
  trim (chatInput a) <> [] ->
  exists a' r',
    handleSendChatMessage_start apiKey (a, r)
    = (a', r', SendDispatched (chatInput a))
    /\ chatMessages a' = [chat_greeting]
    /\ chatRef r' = Some {| systemInstruction := chat_persona;
                            sent := [chatInput a] |}.
Proof.
  intros Hc Hk Hon Ht. unfold handleSendChatMessage_start.
  destruct (trim (chatInput a)) as [|x t]; [done|].
  rewrite Hon, Hc. cbn [negb]. unfold initializeChat.
  rewrite Hk, Hon, Hc. cbn [negb].
  destruct r as [c d t']. cbn [set_chatRef chatRef].
  do 2 eexists. split; [reflexivity|]. split; [by destruct a | done].
Qed.

(** X12. The updater of a chunk touches the last turn only: the turns
    before it are kept, the last turn afterwards is the assistant's text so
    far, and the sequence grows (by one) exactly when it was empty or ended
    in a user turn holding text. *)
Theorem merge_chunk_last_only (acc : jsstring) (prev : list ChatMessage) :
  let new := merge_chunk acc prev in
  last new = Some {| sender := ai; text := Text acc |}
  /\ take (length prev - 1) new = take (length prev - 1) prev
  /\ length new
     = match last prev with
       | Some l => if is_element l || bool_decide (sender l = ai)
                   then length prev else S (length prev)
       | None => S (length prev)
       end.
Proof.
  cbn zeta. destruct prev as [|x prev _] using rev_ind.
  - by vm_compute.
  - unfold merge_chunk. rewrite last_snoc, length_app. cbn [length].
    replace (length prev + 1 - 1)%nat with (length prev) by lia.
    destruct (is_element x) eqn:Ee; [|destruct (bool_decide (sender x = ai))];
      cbn [orb]; rewrite ?replace_last_snoc, ?last_snoc, ?length_app;
      cbn [length]; split_and!; try done; try lia.
    + by rewrite !take_app_length.
    + by rewrite !take_app_length.
    + rewrite <- app_assoc. by rewrite !take_app_length.
Qed.

(** X13. A failed stream never leaves the placeholder as the last turn:
    the last turn afterwards is the failure text.  It takes the place of
    the last turn when that is the assistant's placeholder (or the
    assistant's text ["..."]), and is appended otherwise, so that a partial
    reply stays in the sequence. *)
Theorem stream_failed_last (s : App) :
  let new := chatMessages (stream_failed s) in
  let prev := chatMessages s in
  last new = Some chat_failure
  /\ match last prev with
     | Some l =>
       if bool_decide (sender l = ai)
          && (is_element l || bool_decide (text l = Text (js "...")))
       then new = take (length prev - 1) prev ++ [chat_failure]
       else new = prev ++ [chat_failure]
     | None => new = [chat_failure]
     end.
Proof.
  destruct s. unfold stream_failed. app_simpl. cbn zeta.
  destruct chatMessages0 as [|x prev _] using rev_ind; [done|].
  rewrite last_snoc.
  destruct (bool_decide (sender x = ai) && _).
  - rewrite replace_last_snoc, last_snoc, length_app. cbn [length].
    replace (length prev + 1 - 1)%nat with (length prev) by lia.
    by rewrite take_app_length.
  - by rewrite last_snoc.
Qed.

(** X14. When a stream fails after some text has arrived, and that text is
    not ["..."], the partial reply is kept and the failure turn follows it;
    when it fails before any text, the failure turn takes the place of the
    placeholder. *)
Theorem stream_failed_after_chunks (s : App)
    (chunks : list (option jsstring)) :
  fragments_text chunks <> js "..." ->
  let s' := stream_failed
              (stream_chunks chunks [] (stream_opened s)).2 in
  chatMessages s'
  = chatMessages s
    ++ match fragments_text chunks with
       | [] => [chat_failure]
       | t => [{| sender := ai; text := Text t |}; chat_failure]
       end.
Proof.
  intros Hd. cbn zeta.
  destruct (decide (fragments_text chunks = [])) as [E|E].
  - rewrite E.
    assert (Hs : (stream_chunks chunks [] (stream_opened s)).2
                 = stream_opened s).
    { generalize (stream_opened s). clear Hd. revert E.
      induction chunks as [|[[|y z]|] chunks IH]; cbn; intros E a;
        try done; by apply IH. }
    rewrite Hs. destruct s. unfold stream_failed, stream_opened. app_simpl.
    rewrite last_snoc. cbn. by rewrite replace_last_snoc.
  - pose proof (stream_chunks_assistant chunks [] (stream_opened s)
                  (chatMessages s) (Spinner (js "ভাবছি..."))) as H.
    destruct (stream_chunks chunks [] (stream_opened s)) as [acc s1].
    destruct H as [_ H]; [by destruct s | done |]. cbn [snd app] in *.
    destruct s1. unfold stream_failed. app_simpl. cbn in H. subst.
    rewrite last_snoc. cbn [sender text is_element orb andb].
    rewrite bool_decide_eq_true_2 by done.
    rewrite (bool_decide_eq_false_2 (Text _ = _)) by congruence.
    cbn [andb]. rewrite <- app_assoc.
    by destruct (fragments_text chunks).
Qed.

(** * The base64 helpers *)

Lemma triple_ind (P : list N -> Prop) :
  P [] -> (forall a, P [a]) -> (forall a b, P [a; b]) ->
  (forall a b c r, P r -> P (a :: b :: c :: r)) ->
  forall l, P l.
Proof.
  intros H0 H1 H2 H3. fix IH 1.
  intros [|a [|b [|c r]]]; [apply H0 | apply H1 | apply H2 | apply H3, IH].
Qed.

Lemma elem_of_octets (a : N) : (a <= 255)%N -> a ∈ octets.
Proof.
  intros Ha. unfold octets. apply list_elem_of_fmap.
  exists (N.to_nat a). split; [by rewrite N2Nat.id|].
  apply elem_of_seq. lia.
Qed.

(** A check that ran over all pairs of octets holds of every pair. *)
Lemma octets_check (P : N -> N -> bool) :
  forallb (fun a => forallb (P a) octets) octets = true ->
  forall a b, (a <= 255)%N -> (b <= 255)%N -> P a b = true.
Proof.
  intros H a b Ha Hb. rewrite forallb_forall in H.
  specialize (H a (proj1 (list_elem_of_In _ _) (elem_of_octets a Ha))).
  rewrite forallb_forall in H.
  apply H, list_elem_of_In, elem_of_octets, Hb.
Qed.

Lemma alphabet_checked :
  forallb (fun a => forallb (alphabet_check a) octets) octets = true.
Proof. vm_compute. reflexivity. Qed.

Lemma sextet_bound_checked :
  forallb (fun a => forallb (sextet_bound_check a) octets) octets = true.
Proof. vm_compute. reflexivity. Qed.

Lemma regroup_checked :
  forallb (fun a => forallb (regroup_check a) octets) octets = true.
Proof. vm_compute. reflexivity. Qed.

Lemma sextet_roundtrip (x : N) :
  (x <= 63)%N -> Base64.char_sextet (Base64.sextet_char x) = Some x.
Proof.
  intros Hx.
  assert (Hx' : (x <= 255)%N) by lia.
  assert (H0 : (0 <= 255)%N) by lia.
  pose proof (octets_check alphabet_check alphabet_checked x 0%N Hx' H0) as H.
  apply orb_prop in H as [H|H].
  - apply N.ltb_lt in H. lia.
  - apply bool_decide_eq_true_1 in H. exact H.
Qed.

Lemma sextets_valid l :
  Forall (fun a => a <= 255)%N l -> Forall (fun x => x <= 63)%N (sextets l).
Proof.
  pose proof (octets_check sextet_bound_check sextet_bound_checked) as H1.
  induction l as [|a|a b|a b c r IH] using triple_ind; intros Hl.
  - constructor.
  - apply Forall_cons in Hl as [Ha _].
    specialize (H1 a a Ha Ha). repeat apply andb_prop in H1 as [H1 ?].
    cbn [sextets]. repeat constructor; by apply N.leb_le.
  - apply Forall_cons in Hl as [Ha [Hb _]%Forall_cons].
    pose proof (H1 a b Ha Hb) as H. repeat apply andb_prop in H as [H ?].
    cbn [sextets]. repeat constructor; by apply N.leb_le.
  - apply Forall_cons in Hl as [Ha [Hb [Hc Hr]%Forall_cons]%Forall_cons].
    pose proof (H1 a b Ha Hb) as H. repeat apply andb_prop in H as [H ?].
    pose proof (H1 b c Hb Hc) as H'. repeat apply andb_prop in H' as [H' ?].
    cbn [sextets]. repeat (apply Forall_cons; split); try by apply N.leb_le.
    by apply IH.
Qed.

Lemma btoa_groups_split l :
  Base64.btoa_groups l = (Base64.sextet_char <$> sextets l) ++ padding l.
Proof.
  induction l as [|a|a b|a b c r IH] using triple_ind; try reflexivity.
  cbn [Base64.btoa_groups sextets padding]. rewrite IH, fmap_app.
  by rewrite <- app_assoc.
Qed.

Lemma sextets_bytes_quad a b c d r :
  Base64.sextets_bytes (a :: b :: c :: d :: r)
  = N.lor (N.shiftl a 2) (N.shiftr b 4)
    :: N.lor (N.shiftl (N.land b 15) 4) (N.shiftr c 2)
    :: N.lor (N.shiftl (N.land c 3) 6) d :: Base64.sextets_bytes r.
Proof. reflexivity. Qed.

Lemma sextets_bytes_sextets l :
  Forall (fun a => a <= 255)%N l -> Base64.sextets_bytes (sextets l) = l.
Proof.
  pose proof (octets_check regroup_check regroup_checked) as H1.
  assert (H2 : forall a b, (a <= 255)%N -> (b <= 255)%N ->
    N.lor (N.shiftl (N.shiftr a 2) 2)
      (N.shiftr (N.lor (N.shiftl (N.land a 3) 4) (N.shiftr b 4)) 4) = a
    /\ N.lor (N.shiftl (N.shiftr a 2) 2)
         (N.shiftr (N.shiftl (N.land a 3) 4) 4) = a
    /\ N.land (N.lor (N.shiftl (N.land a 3) 4) (N.shiftr b 4)) 15
       = N.shiftr b 4
    /\ N.shiftr (N.lor (N.shiftl (N.land a 15) 2) (N.shiftr b 6)) 2
       = N.land a 15
    /\ N.shiftr (N.shiftl (N.land a 15) 2) 2 = N.land a 15
    /\ N.lor (N.shiftl (N.shiftr a 4) 4) (N.land a 15) = a
    /\ N.lor (N.shiftl
                (N.land (N.lor (N.shiftl (N.land a 15) 2) (N.shiftr b 6)) 3)
                6) (N.land b 63) = b).
  { intros a b Ha Hb. specialize (H1 a b Ha Hb).
    repeat apply andb_prop in H1 as [H1 ?].
    split_and!; by apply N.eqb_eq. }
  clear H1.
  induction l as [|a|a b|a b c r IH] using triple_ind; intros Hl.
  - done.
  - apply Forall_cons in Hl as [Ha _].
    destruct (H2 a a Ha Ha) as (_ & E & _).
    cbn [sextets Base64.sextets_bytes]. by rewrite E.
  - apply Forall_cons in Hl as [Ha [Hb _]%Forall_cons].
    destruct (H2 a b Ha Hb) as (E1 & _ & E3 & _).
    destruct (H2 b b Hb Hb) as (_ & _ & _ & _ & E5 & E6 & _).
    cbn [sextets Base64.sextets_bytes]. by rewrite E1, E3, E5, E6.
  - apply Forall_cons in Hl as [Ha [Hb [Hc Hr]%Forall_cons]%Forall_cons].
    destruct (H2 a b Ha Hb) as (E1 & _ & E3 & _).
    destruct (H2 b c Hb Hc) as (_ & _ & _ & E4 & _ & E6 & E7).
    change (sextets (a :: b :: c :: r)) with
      (N.shiftr a 2 :: N.lor (N.shiftl (N.land a 3) 4) (N.shiftr b 4)
       :: N.lor (N.shiftl (N.land b 15) 2) (N.shiftr c 6) :: N.land c 63
       :: sextets r).
    rewrite sextets_bytes_quad, E1, E3, E4, E6, E7, IH by done. reflexivity.
Qed.

Lemma char_sextet_not_space c x :
  Base64.char_sextet c = Some x -> Base64.is_ascii_space c = false.
Proof.
  intros H. destruct (Base64.is_ascii_space c) eqn:E; [|done].
  unfold Base64.is_ascii_space in E.
  repeat (apply orb_prop in E as [E|E]); apply N.eqb_eq in E; subst c;
    vm_compute in H; discriminate.
Qed.

Lemma char_sextet_not_pad c x : Base64.char_sextet c = Some x -> c <> 61%N.
Proof. intros H ->. vm_compute in H. discriminate. Qed.

Lemma pad_not_space : Base64.is_ascii_space 61 = false.
Proof. reflexivity. Qed.

Lemma filter_all {A} (P : A -> Prop) `{!forall x, Decision (P x)} (l : list A) :
  Forall P l -> filter P l = l.
Proof.
  induction 1 as [|x l Hx _ IH]; [done|].
  by rewrite filter_cons_True, IH.
Qed.

Lemma padding_cases l :
  padding l = [] \/ padding l = [61%N] \/ padding l = [61%N; 61%N].
Proof. induction l using triple_ind; cbn [padding]; auto. Qed.

Lemma strip_padding_app x p :
  Forall (fun c => c <> 61%N) x ->
  p = [] \/ p = [61%N] \/ p = [61%N; 61%N] ->
  Base64.strip_padding (x ++ p) = x.
Proof.
  intros Hx Hp. unfold Base64.strip_padding. rewrite reverse_app.
  apply Forall_reverse in Hx.
  destruct Hp as [->|[->| ->]].
  - rewrite app_nil_r. cbn [reverse rev_append Datatypes.app].
    destruct (reverse x) as [|c r] eqn:E; [done|].
    apply Forall_cons in Hx as [Hc _].
    apply N.eqb_neq in Hc. by rewrite Hc.
  - change (reverse [61%N]) with [61%N]. cbn [Datatypes.app N.eqb Pos.eqb].
    destruct (reverse x) as [|c r] eqn:E.
    + by rewrite <- E, reverse_involutive.
    + apply Forall_cons in Hx as [Hc _].
      apply N.eqb_neq in Hc. by rewrite Hc, <- E, reverse_involutive.
  - change (reverse [61%N; 61%N]) with [61%N; 61%N]. cbn [Datatypes.app N.eqb Pos.eqb].
    apply reverse_involutive.
Qed.

Lemma btoa_groups_length l : (length (Base64.btoa_groups l) mod 4 = 0)%nat.
Proof.
  induction l as [|a|a b|a b c r IH] using triple_ind; try reflexivity.
  cbn [Base64.btoa_groups]. rewrite length_app.
  change (length [_; _; _; _]) with 4%nat.
  rewrite <- Nat.Div0.add_mod_idemp_r, IH. reflexivity.
Qed.

Lemma sextets_length l : (length (sextets l) mod 4 <> 1)%nat.
Proof.
  induction l as [|a|a b|a b c r IH] using triple_ind; try (cbn; lia).
  cbn [sextets]. rewrite length_app.
  change (length [_; _; _; _]) with 4%nat.
  rewrite <- Nat.Div0.add_mod_idemp_l. exact IH.
Qed.

Lemma mapM_char_sextet xs :
  Forall (fun x => x <= 63)%N xs ->
  mapM Base64.char_sextet (Base64.sextet_char <$> xs) = Some xs.
Proof.
  intros H. apply mapM_Some. apply Forall2_fmap_l, Forall_Forall2_diag.
  eapply Forall_impl; [exact H|]. intros x Hx. by apply sextet_roundtrip.
Qed.

Lemma atob_btoa_groups l :
  Forall (fun a => a <= 255)%N l ->
  Base64.atob (Base64.btoa_groups l) = Some l.
Proof.
  intros Hl. pose proof (sextets_valid l Hl) as Hs.
  assert (Hc : Forall (fun c => exists x, Base64.char_sextet c = Some x)
                 (Base64.sextet_char <$> sextets l)).
  { apply Forall_fmap. eapply Forall_impl; [exact Hs|].
    intros x Hx. exists x. by apply sextet_roundtrip. }
  unfold Base64.atob, jsstring.
  rewrite filter_all.
  2:{ rewrite btoa_groups_split. apply Forall_app. split.
      - eapply Forall_impl; [exact Hc|]. intros c [x Hx].
        by eapply char_sextet_not_space.
      - destruct (padding_cases l) as [->|[->| ->]]; repeat constructor. }
  rewrite btoa_groups_length. cbn [Nat.eqb].
  rewrite btoa_groups_split, strip_padding_app.
  2:{ eapply Forall_impl; [exact Hc|]. intros c [x Hx].
      by eapply char_sextet_not_pad. }
  2:{ apply padding_cases. }
  rewrite length_fmap.
  destruct (Nat.eqb_spec (length (sextets l) mod 4) 1) as [E|_].
  { by apply sextets_length in E. }
  rewrite mapM_char_sextet by done. cbn [fmap option_fmap option_map].
  by rewrite sextets_bytes_sextets.
Qed.

Lemma to_uint8_to_N b : Base64.to_uint8 (Byte.to_N b) = b.
Proof.
  unfold Base64.to_uint8. pose proof (Byte.to_N_bounded b).
  rewrite N.mod_small by lia. by rewrite Byte.of_to_N.
Qed.

Lemma octets_forallb l :
  Forall (fun a => a <= 255)%N l -> forallb (fun c => c <=? 255)%N l = true.
Proof.
  induction 1 as [|a l Ha _ IH]; [done|].
  cbn [forallb]. rewrite IH, andb_true_r. by apply N.leb_le.
Qed.

(** X15. Round trip of the base64 helpers, [btoa] and [atob] being those
    of the HTML standard: [encode] succeeds on every byte array, and
    [decode] gives the bytes back from its result. *)
Theorem decode_encode (bytes : list Init.Byte.byte) :
  exists t, Base64.encode bytes = Some t /\ Base64.decode t = Some bytes.
Proof.
  assert (Hl : Forall (fun a => a <= 255)%N (map Byte.to_N bytes)).
  { apply Forall_fmap, Forall_forall. intros b _. apply Byte.to_N_bounded. }
  exists (Base64.btoa_groups (map Byte.to_N bytes)). split.
  - unfold Base64.encode, Base64.btoa.
    by rewrite octets_forallb.
  - unfold Base64.decode. rewrite atob_btoa_groups by done.
    f_equal. rewrite map_map. rewrite <- (map_id bytes) at 2.
    apply map_ext. apply to_uint8_to_N.
Qed.

(** * Further properties of the effects *)

Section Effects.

Variable JSON_parse : jsstring -> option json.
Variable StringToNumber : jsstring -> number.

Ltac effect_simpl :=
  unfold driverEffect_cleanup, trackingEffect_cleanup, driverEffect_body,
    trackingEffect_body, geolocationEffect_body, setInterval, clearInterval;
  app_simpl.

(** ** The polling callbacks through an effects pass *)

Lemma trackingEffect_cleanup_polls w id c :
  intervals (trackingEffect_cleanup w) !! id = Some (simulateDriverActivity c) ->
  intervals w !! id = Some (simulateDriverActivity c).
Proof.
  unfold trackingEffect_cleanup. rewrite clearInterval_lookup.
  by case_decide.
Qed.

Lemma trackingEffect_body_polls a w id c :
  intervals (trackingEffect_body a w) !! id = Some (simulateDriverActivity c) ->
  intervals w !! id = Some (simulateDriverActivity c).
Proof.
  destruct w as [s [k d t] iv n o q g]. effect_simpl.
  case_bool_decide; [|destruct t as [i|]]; app_simpl.
  - by intros [[_ [=]]|[_ Hl]]%lookup_insert_Some.
  - by intros [_ Hl]%lookup_delete_Some.
  - done.
Qed.

Lemma driverEffect_body_polls a w id c :
  intervals (driverEffect_body a w) !! id = Some (simulateDriverActivity c) ->
  c = a \/ intervals w !! id = Some (simulateDriverActivity c).
Proof.
  destruct w as [s [k d t] iv n o q g]. effect_simpl.
  destruct d as [i|]; case_bool_decide; app_simpl; auto.
  - intros [_ Hl]%lookup_delete_Some. by right.
  - intros [[_ [= ->]]|[_ Hl]]%lookup_insert_Some; auto.
Qed.

Lemma effects_pass_app prev a w :
  app (effects_pass prev a w)
  = if bool_decide (isOnline prev = isOnline a) then app w
    else app (geolocationEffect_body a w).
Proof.
  unfold effects_pass.
  destruct (bool_decide (isOnline prev = isOnline a)); cbn [negb];
    repeat match goal with
    | |- context [if ?b then _ else id] => destruct b
    end; cbn [Datatypes.id];
    rewrite ?trackingEffect_body_app, ?driverEffect_body_app; try done;
    unfold trackingEffect_cleanup, driverEffect_cleanup;
    rewrite ?clearInterval_refs;
    destruct w as [s [k d t] iv n o q g];
    unfold geolocationEffect_body, clearInterval; app_simpl;
    destruct d, t; app_simpl; try done;
    by destruct (geolocation g && isOnline a), (negb (isOnline a)).
Qed.

Lemma geolocationEffect_body_isOnline a w :
  isOnline (app (geolocationEffect_body a w)) = isOnline (app w).
Proof.
  destruct w as [s r iv n o q g]. unfold geolocationEffect_body.
  app_simpl. destruct (geolocation g), (isOnline a); by destruct s.
Qed.

Lemma effects_pass_isOnline prev a w :
  isOnline (app (effects_pass prev a w)) = isOnline (app w).
Proof.
  rewrite effects_pass_app. destruct (bool_decide _); [done|].
  apply geolocationEffect_body_isOnline.
Qed.

Lemma effects_chain_polls (a : App) (drv trk geo : bool) w i c :
  intervals
    ((if trk then trackingEffect_body a else Datatypes.id)
       ((if drv then driverEffect_body a else Datatypes.id)
          ((if geo then geolocationEffect_body a else Datatypes.id)
             ((if trk then trackingEffect_cleanup else Datatypes.id) w))))
    !! i = Some (simulateDriverActivity c) ->
  (drv = true /\ c = a) \/ intervals w !! i = Some (simulateDriverActivity c).
Proof.
  intros H.
  assert (H1 : (drv = true /\ c = a)
               \/ intervals
                    ((if geo then geolocationEffect_body a else Datatypes.id)
                       ((if trk then trackingEffect_cleanup else Datatypes.id)
                          w)) !! i = Some (simulateDriverActivity c)).
  { destruct trk; [apply trackingEffect_body_polls in H|];
      cbn [Datatypes.id] in H; (destruct drv; cbn [Datatypes.id] in H;
        [apply driverEffect_body_polls in H as [->|H]; auto | auto]). }
  destruct H1 as [?|H1]; [auto|]. right.
  assert (H2 : intervals
                 ((if trk then trackingEffect_cleanup else Datatypes.id) w)
                 !! i = Some (simulateDriverActivity c)).
  { destruct geo; cbn [Datatypes.id] in H1; [|done].
    by rewrite (proj1 (proj2 (geolocationEffect_body_frame a _))) in H1. }
  destruct trk; [by apply trackingEffect_cleanup_polls | done].
Qed.

(** After a pass the closures are those of the render the pass ran for. *)
Lemma effects_pass_polls prev w :
  timers_owned w ->
  (forall i c, intervals w !! i = Some (simulateDriverActivity c) ->
     driverEffect_deps c = driverEffect_deps prev) ->
  forall i c,
    intervals (effects_pass prev (app w) w) !! i
    = Some (simulateDriverActivity c) ->
    driverEffect_deps c = driverEffect_deps (app w).
Proof.
  intros Ho Hc i c H. unfold effects_pass in H.
  destruct (bool_decide (driverEffect_deps prev = driverEffect_deps (app w)))
    eqn:Ed; cbn [negb] in H.
  - apply bool_decide_eq_true in Ed.
    apply (effects_chain_polls _ false) in H as [[[=] _]|H].
    rewrite <- Ed. by eapply Hc.
  - apply (effects_chain_polls _ true) in H as [[_ ->]|H]; [done|].
    by apply (driverEffect_cleanup_owned w Ho) in H.
Qed.

Lemma fire_polls_current e w :
  timers_owned w -> polls_only_online w -> polls_current w ->
  polls_current (fire JSON_parse StringToNumber e w).
Proof.
  intros Ho Hp Hc. unfold fire, run_effects.
  destruct (dispatch_timers JSON_parse StringToNumber e w Ho) as [Ho0 Hnew].
  set (w0 := dispatch JSON_parse StringToNumber e w) in *.
  destruct (effects_pass_owned (app w) w0 Ho0) as [Ho1 _].
  { intros Hst Hoff i c Hl. apply Hnew in Hl.
    rewrite <- Hst in Hoff. by apply (Hp Hoff i c). }
  pose proof (effects_pass_polls (app w) w0 Ho0) as H1.
  set (w1 := effects_pass (app w) (app w0) w0) in *.
  intros i c Hl. apply effects_pass_polls in Hl.
  - rewrite Hl. f_equal. rewrite effects_pass_app.
    rewrite bool_decide_eq_true_2; [done|].
    symmetry. apply effects_pass_isOnline.
  - done.
  - apply H1. intros j c' Hj. apply (Hc j). by apply Hnew.
Qed.

Lemma reachable_polls_current w :
  reachable JSON_parse StringToNumber w -> polls_current w.
Proof.
  induction 1 as [g o|w e w' Hr IH Hs].
  - intros i c. by rewrite initialWorld_intervals, lookup_empty.
  - destruct Hs. apply reachable_timers in Hr as [Ho Hp].
    by apply fire_polls_current.
Qed.

Lemma effects_pass_driver_only prev a w :
  isOnline prev = isOnline a ->
  trackingEffect_deps prev = trackingEffect_deps a ->
  driverEffect_deps prev <> driverEffect_deps a ->
  effects_pass prev a w = driverEffect_body a (driverEffect_cleanup w).
Proof.
  intros E1 E2 E3. unfold effects_pass.
  rewrite (bool_decide_eq_true_2 _ E1), (bool_decide_eq_true_2 _ E2),
    (bool_decide_eq_false_2 _ E3).
  reflexivity.
Qed.

(** X16. No polling callback is stale: in every reachable world an
    installed polling callback closes over a render that agrees with the
    current state on the four dependencies of its effect, so the guard it
    evaluates is the guard of the current state; and the driver is
    [online]. *)
Theorem poll_closure_current (w : World) (i : positive) (c : App) :
  reachable JSON_parse StringToNumber w ->
  intervals w !! i = Some (simulateDriverActivity c) ->
  driverStatus (app w) = online
  /\ driverStatus c = online
  /\ isOnline c = isOnline (app w)
  /\ loading c = loading (app w)
  /\ (currentRideOffer c = None <-> currentRideOffer (app w) = None).
Proof.
  intros Hr Hl.
  pose proof (reachable_polls_current w Hr i c Hl) as Hd.
  destruct (reachable_timers _ _ w Hr) as [_ Hp].
  assert (Hst : driverStatus (app w) = online).
  { destruct (decide (driverStatus (app w) = online)) as [|Hn]; [done|].
    by apply Hp in Hn; apply Hn in Hl. }
  injection Hd as E1 E2 E3 E4.
  split_and!; try congruence.
  destruct (currentRideOffer c), (currentRideOffer (app w)); done.
Qed.

(** X17. The polling interval fires once: when its tick finds the driver
    online, connected, not loading and without an offer, the request is
    issued and [loading] is set, which re-runs the effect; its cleanup
    cancels the interval, and its body, finding the ref still set, installs
    no new one.  Afterwards no polling callback is installed while the ref
    still names the cancelled interval. *)
Theorem poll_fires_once (w : World) (i : positive) (c : App) :
  reachable JSON_parse StringToNumber w ->
  intervals w !! i = Some (simulateDriverActivity c) ->
  isOnline (app w) = true ->
  loading (app w) = false ->
  currentRideOffer (app w) = None ->
  let w' := fire JSON_parse StringToNumber (Tick i) w in
  app w' = (app w |> setLoading true |> setError [])
  /\ inflight w' = inflight w ++ [DriverRequest]
  /\ no_polls w'
  /\ driverRequestIntervalRef (refs w') = Some i.
Proof.
  intros Hr Hl Hon Hld Hof.
  pose proof (reachable_polls_current w Hr i c Hl) as Hd.
  destruct (reachable_timers _ _ w Hr) as [(H1 & H2 & H3) Hp].
  assert (Hst : driverStatus (app w) = online).
  { destruct (decide (driverStatus (app w) = online)) as [|Hn]; [done|].
    by apply Hp in Hn; apply Hn in Hl. }
  pose proof (H1 _ _ Hl) as Href.
  injection Hd as E1 E2 E3 E4.
  assert (Hoc : currentRideOffer c = None).
  { rewrite Hof in E4. by destruct (currentRideOffer c). }
  cbn zeta. unfold fire. cbn [dispatch]. rewrite Hl.
  unfold simulateDriverActivity_start.
  rewrite E1, E2, E3, Hst, Hon, Hld, Hoc.
  rewrite !bool_decide_eq_true_2 by done. cbn [andb negb].
  destruct w as [s [k d t] iv n o q g]. app_simpl. subst d.
  assert (Hrun : run_effects s
            (MkWorld (setError [] (setLoading true s)) (MkRefs k (Some i) t)
               iv n o (q ++ [DriverRequest]) g)
          = MkWorld (setError [] (setLoading true s)) (MkRefs k (Some i) t)
              (delete i iv) n o (q ++ [DriverRequest]) g).
  { assert (Hp1 : effects_pass s (setError [] (setLoading true s))
              (MkWorld (setError [] (setLoading true s))
                 (MkRefs k (Some i) t) iv n o (q ++ [DriverRequest]) g)
            = MkWorld (setError [] (setLoading true s)) (MkRefs k (Some i) t)
                (delete i iv) n o (q ++ [DriverRequest]) g).
    { rewrite effects_pass_driver_only.
      - unfold driverEffect_cleanup, driverEffect_body, clearInterval.
        app_simpl. by rewrite bool_decide_eq_true_2 by (by destruct s).
      - by destruct s.
      - by destruct s.
      - unfold driverEffect_deps. intros [= _ _ E _]. destruct s.
        app_simpl. congruence. }
    unfold run_effects. app_simpl. rewrite Hp1. app_simpl.
    by apply effects_pass_idle. }
  rewrite Hrun. app_simpl. split_and!; try done.
  intros j c' Hj. cbn [intervals] in Hj.
  apply lookup_delete_Some in Hj as [Hne Hj]. apply H1 in Hj. congruence.
Qed.

(** ** A polling interval that was cleared while its ref stays set *)

Lemma dispatch_driver_ref e w :
  driverRequestIntervalRef (refs (dispatch JSON_parse StringToNumber e w))
  = driverRequestIntervalRef (refs w)
  \/ (driverStatus (app (dispatch JSON_parse StringToNumber e w)) = offline
      /\ driverRequestIntervalRef
           (refs (dispatch JSON_parse StringToNumber e w)) = None).
Proof.
  destruct e; cbn [dispatch]; try (left; by destruct w).
  - destruct (handleFindRide_start (app w)) as [s issued].
    left; by destruct w.
  - right. destruct w as [s [k d t] iv n o q g], s.
    unfold resetAppState, clearInterval. app_simpl.
    by destruct d, t.
  - destruct (intervals w !! id) as [[c|eta]|]; [| |by left].
    + destruct (simulateDriverActivity_start c (app w)) as [s issued].
      left; by destruct w.
    + left. unfold trackingTick_run. destruct (gt0 StringToNumber eta).
      * by destruct w.
      * destruct w as [s [k d t] iv n o q g]. by destruct t.
  - destruct (inflight w !! i) as [[p d'| | |acc]|]; left; by destruct w.
  - destruct (inflight w !! i) as [[p d'| | |acc]|]; left; by destruct w.
  - pose proof (handleToggleChat_frame (apiKey (env w)) (app w) (refs w))
      as [Hr _].
    destruct (handleToggleChat _ _) as [s r]. injection Hr as Hr1 Hr2.
    left; by destruct w.
  - pose proof (handleSendChatMessage_start_frame (apiKey (env w)) (app w)
                  (refs w)) as [Hr _].
    destruct (handleSendChatMessage_start _ _) as [[s r] out].
    injection Hr as Hr1 Hr2. left; by destruct w.
  - destruct (inflight w !! i) as [[p d'| | |[acc|]]|], ev;
      try destruct (stream_chunks _ _ _); left; by destruct w.
Qed.

Lemma effects_pass_polling_dead prev a w i :
  driverStatus a = online ->
  driverRequestIntervalRef (refs w) = Some i ->
  no_polls w ->
  driverRequestIntervalRef (refs (effects_pass prev a w)) = Some i
  /\ no_polls (effects_pass prev a w).
Proof.
  intros Ha.
  pose (Q := fun w : World =>
               driverRequestIntervalRef (refs w) = Some i /\ no_polls w).
  assert (Q1 : forall w, Q w -> Q (driverEffect_cleanup w)).
  { intros w' [Hr Hn]. split.
    - unfold driverEffect_cleanup. by rewrite clearInterval_refs.
    - intros j c. unfold driverEffect_cleanup.
      rewrite clearInterval_lookup. case_decide; [done | apply Hn]. }
  assert (Q2 : forall w, Q w -> Q (trackingEffect_cleanup w)).
  { intros w' [Hr Hn]. split.
    - unfold trackingEffect_cleanup. by rewrite clearInterval_refs.
    - intros j c Hl. by apply trackingEffect_cleanup_polls, Hn in Hl. }
  assert (Q3 : forall a' w, Q w -> Q (geolocationEffect_body a' w)).
  { intros a' w' [Hr Hn].
    destruct (geolocationEffect_body_frame a' w') as (E1 & E2 & _).
    unfold Q, no_polls. by rewrite E1, E2. }
  assert (Q4 : forall w, Q w -> Q (driverEffect_body a w)).
  { intros w' [Hr Hn]. unfold driverEffect_body. rewrite Hr.
    by rewrite bool_decide_eq_true_2. }
  assert (Q5 : forall a' w, Q w -> Q (trackingEffect_body a' w)).
  { intros a' w' [Hr Hn]. split.
    - destruct w' as [s [k d t] iv n o q g]. effect_simpl.
      case_bool_decide; [|destruct t]; app_simpl; done.
    - intros j c Hl. by apply trackingEffect_body_polls, Hn in Hl. }
  intros Hr Hn. assert (H : Q w) by done.
  enough (Q (effects_pass prev a w)) by done. unfold effects_pass.
  repeat match goal with
  | |- context [if ?b then _ else Datatypes.id] => destruct b
  end; cbn [Datatypes.id]; auto 10.
Qed.

Lemma fire_polling_dead e w i :
  timers_owned w ->
  driverRequestIntervalRef (refs w) = Some i ->
  no_polls w ->
  driverStatus (app (fire JSON_parse StringToNumber e w)) = online ->
  driverRequestIntervalRef (refs (fire JSON_parse StringToNumber e w)) = Some i
  /\ no_polls (fire JSON_parse StringToNumber e w).
Proof.
  intros Ho Hr Hn Hst. unfold fire in *.
  destruct (dispatch_timers JSON_parse StringToNumber e w Ho) as [_ Hnew].
  pose proof (run_effects_ride_view (app w)
                (dispatch JSON_parse StringToNumber e w)) as Hv.
  apply driverStatus_ride_view in Hv as [Hv _]. rewrite Hst in Hv.
  set (w0 := dispatch JSON_parse StringToNumber e w) in *.
  assert (Hr0 : driverRequestIntervalRef (refs w0) = Some i).
  { destruct (dispatch_driver_ref e w) as [E|[E _]]; fold w0 in E;
      congruence. }
  assert (Hn0 : no_polls w0).
  { intros j c Hl. apply Hnew in Hl. by apply Hn in Hl. }
  unfold run_effects.
  destruct (effects_pass_polling_dead (app w) (app w0) w0 i) as [Hr1 Hn1];
    try done.
  apply effects_pass_polling_dead; try done.
  pose proof (effects_pass_ride_view (app w) (app w0) w0) as Hv1.
  apply driverStatus_ride_view in Hv1 as [Hv1 _]. congruence.
Qed.

(** ** The polling ref is set exactly while the driver is online *)

Lemma driverEffect_body_ref a w :
  driverStatus a = online
  <-> driverRequestIntervalRef (refs (driverEffect_body a w)) <> None.
Proof.
  destruct w as [s [k d t] iv n o q g]. effect_simpl.
  destruct d as [i|]; case_bool_decide; app_simpl; split; done.
Qed.

Lemma trackingEffect_body_driver_ref a w :
  driverRequestIntervalRef (refs (trackingEffect_body a w))
  = driverRequestIntervalRef (refs w).
Proof.
  destruct w as [s [k d t] iv n o q g]. effect_simpl.
  case_bool_decide; [|destruct t]; reflexivity.
Qed.

Lemma effects_pass_ref_iff prev a w :
  (driverEffect_deps prev = driverEffect_deps a ->
   (driverStatus a = online
    <-> driverRequestIntervalRef (refs w) <> None)) ->
  driverStatus a = online
  <-> driverRequestIntervalRef (refs (effects_pass prev a w)) <> None.
Proof.
  intros H. unfold effects_pass.
  destruct (bool_decide (driverEffect_deps prev = driverEffect_deps a))
    eqn:Ed; cbn [negb].
  - apply bool_decide_eq_true in Ed. specialize (H Ed).
    repeat match goal with
    | |- context [if ?b then _ else Datatypes.id] => destruct b
    end; cbn [Datatypes.id]; unfold trackingEffect_cleanup;
    by rewrite ?trackingEffect_body_driver_ref,
         ?(proj1 (geolocationEffect_body_frame _ _)), ?clearInterval_refs.
  - repeat match goal with
    | |- context [if ?b then _ else Datatypes.id] => destruct b
    end; cbn [Datatypes.id]; rewrite ?trackingEffect_body_driver_ref;
    apply driverEffect_body_ref.
Qed.

Lemma fire_ref_iff e w :
  (driverStatus (app w) = online
   <-> driverRequestIntervalRef (refs w) <> None) ->
  driverStatus (app (fire JSON_parse StringToNumber e w)) = online
  <-> driverRequestIntervalRef (refs (fire JSON_parse StringToNumber e w))
      <> None.
Proof.
  intros Hi. unfold fire, run_effects.
  set (w0 := dispatch JSON_parse StringToNumber e w).
  pose proof (effects_pass_ref_iff (app w) (app w0) w0) as H1.
  set (w1 := effects_pass (app w) (app w0) w0) in *.
  pose proof (effects_pass_ride_view (app w) (app w0) w0) as Hv1.
  apply driverStatus_ride_view in Hv1 as [Hv1 _]. fold w1 in Hv1.
  pose proof (effects_pass_ride_view (app w0) (app w1) w1) as Hv2.
  apply driverStatus_ride_view in Hv2 as [Hv2 _].
  rewrite Hv2. apply effects_pass_ref_iff. intros _.
  rewrite Hv1. apply H1. intros [= E _ _ _].
  destruct (dispatch_driver_ref e w) as [Er|[Er1 Er2]].
  - fold w0 in Er. by rewrite Er, <- E.
  - fold w0 in Er1, Er2. by rewrite Er1, Er2.
Qed.

Lemma reachable_ref_iff w :
  reachable JSON_parse StringToNumber w ->
  driverStatus (app w) = online
  <-> driverRequestIntervalRef (refs w) <> None.
Proof.
  induction 1 as [g o|w e w' Hr IH Hs].
  - by destruct g as [[] k], o.
  - destruct Hs. by apply fire_ref_iff.
Qed.

(** X18. Polling is not resumed while the driver stays online: from a
    reachable world in which the driver is [online] and no polling callback
    is installed (as after the first tick), along any run of offered events
    after each of which the status is [online], no polling callback is
    installed again and no tick issues a request.  In particular a driver
    whose request failed receives no further request until the status
    changes. *)
Theorem polling_not_resumed (w w' : World) :
  reachable JSON_parse StringToNumber w ->
  driverStatus (app w) = online ->
  no_polls w ->
  online_run (P := JSON_parse) (N := StringToNumber) w w' ->
  no_polls w'
  /\ forall i, inflight (fire JSON_parse StringToNumber (Tick i) w')
               = inflight w'.
Proof.
  intros Hr Hon Hn Hl.
  enough (H : reachable JSON_parse StringToNumber w'
              /\ driverStatus (app w') = online /\ no_polls w').
  { destruct H as (_ & _ & H). split; [done|].
    intros i. by apply tick_without_polls. }
  induction Hl as [|w1 e w2 _ (Hr1 & Hon1 & Hn1) Hs Hon2]; [done|].
  split; [by eapply reachable_step|]. split; [done|].
  destruct Hs as [e He].
  apply (reachable_ref_iff w1 Hr1) in Hon1.
  destruct (driverRequestIntervalRef (refs w1)) as [i|] eqn:Ei; [|done].
  apply reachable_timers in Hr1 as [Ho _].
  by destruct (fire_polling_dead e w1 i) as [E1 E2].
Qed.

(** ** Connectivity and the geolocation effect *)

Lemma effects_pass_inflight_eq prev a w :
  inflight (effects_pass prev a w)
  = if bool_decide (isOnline prev = isOnline a) then inflight w
    else inflight (geolocationEffect_body a w).
Proof.
  unfold effects_pass.
  destruct (bool_decide (isOnline prev = isOnline a)); cbn [negb];
    repeat match goal with
    | |- context [if ?b then _ else id] => destruct b
    end; cbn [Datatypes.id];
    rewrite ?trackingEffect_body_inflight, ?driverEffect_body_inflight;
    unfold trackingEffect_cleanup, driverEffect_cleanup;
    rewrite ?clearInterval_inflight; try done;
    rewrite ?clearInterval_refs;
    destruct w as [s [k d t] iv n o q g];
    unfold geolocationEffect_body, clearInterval; app_simpl;
    destruct d, t; app_simpl; try done;
    by destruct (geolocation g && isOnline a), (negb (isOnline a)).
Qed.

(** What the effects do to the state and the outstanding requests after a
    handler that changed connectivity. *)
Lemma run_effects_connectivity prev w :
  isOnline prev <> isOnline (app w) ->
  app (run_effects prev w) = app (geolocationEffect_body (app w) w)
  /\ inflight (run_effects prev w)
     = inflight (geolocationEffect_body (app w) w).
Proof.
  intros Hne. unfold run_effects.
  rewrite effects_pass_app, effects_pass_inflight_eq.
  rewrite bool_decide_eq_true_2.
  2:{ symmetry. apply effects_pass_isOnline. }
  rewrite effects_pass_app, effects_pass_inflight_eq.
  by rewrite bool_decide_eq_false_2.
Qed.

Lemma driverEffect_cleanup_idemp w :
  driverEffect_cleanup (driverEffect_cleanup w) = driverEffect_cleanup w.
Proof.
  destruct w as [s [k d t] iv n o q g]. effect_simpl.
  destruct d as [i|]; app_simpl; [|done].
  f_equal. apply map_eq. intros j.
  destruct (decide (i = j)) as [->|Hne].
  - by rewrite !lookup_delete_eq.
  - by rewrite !lookup_delete_ne.
Qed.

Lemma effects_pass_cleanup prev a w :
  driverEffect_deps prev <> driverEffect_deps a ->
  effects_pass prev a (driverEffect_cleanup w) = effects_pass prev a w.
Proof.
  intros Hne. unfold effects_pass.
  rewrite (bool_decide_eq_false_2 _ Hne). cbn [negb].
  by rewrite driverEffect_cleanup_idemp.
Qed.

(** A change of a dependency of the polling effect while the driver is
    online leaves no polling callback behind. *)
Lemma fire_deps_change_no_polls e w :
  reachable JSON_parse StringToNumber w ->
  driverStatus (app w) = online ->
  driverEffect_deps (app w)
  <> driverEffect_deps (app (dispatch JSON_parse StringToNumber e w)) ->
  no_polls (fire JSON_parse StringToNumber e w).
Proof.
  intros Hr Hon Hne.
  destruct (reachable_timers _ _ w Hr) as [Ho Hp].
  destruct (decide (driverStatus (app (fire JSON_parse StringToNumber e w))
                    = online)) as [Hst|Hst].
  2:{ by apply (fire_timers JSON_parse StringToNumber e w Ho Hp). }
  apply (reachable_ref_iff w Hr) in Hon.
  destruct (driverRequestIntervalRef (refs w)) as [i|] eqn:Ei; [|done].
  unfold fire in *.
  destruct (dispatch_timers JSON_parse StringToNumber e w Ho) as [Ho0 _].
  pose proof (run_effects_ride_view (app w)
                (dispatch JSON_parse StringToNumber e w)) as Hv.
  apply driverStatus_ride_view in Hv as [Hv _]. rewrite Hst in Hv.
  set (w0 := dispatch JSON_parse StringToNumber e w) in *.
  assert (Hr0 : driverRequestIntervalRef (refs w0) = Some i).
  { destruct (dispatch_driver_ref e w) as [E|[E _]]; fold w0 in E;
      congruence. }
  unfold run_effects. rewrite <- (effects_pass_cleanup (app w)) by done.
  destruct (driverEffect_cleanup_owned w0 Ho0) as [_ Hn0].
  destruct (effects_pass_polling_dead (app w) (app w0)
              (driverEffect_cleanup w0) i) as [Hr1 Hn1]; try done.
  { unfold driverEffect_cleanup. by rewrite clearInterval_refs. }
  apply (effects_pass_polling_dead _ _ _ i); try done.
  pose proof (effects_pass_ride_view (app w) (app w0)
                (driverEffect_cleanup w0)) as Hv1.
  apply driverStatus_ride_view in Hv1 as [Hv1 _].
  unfold driverEffect_cleanup in Hv1 at 2.
  rewrite clearInterval_app in Hv1. congruence.
Qed.

Lemma connectivity_no_polls b w :
  reachable JSON_parse StringToNumber w ->
  isOnline (app w) <> b ->
  no_polls (run_effects (app w) (with_app (setIsOnline b) w))
  /\ fire JSON_parse StringToNumber
       (if b then BrowserOnline else BrowserOffline) w
     = run_effects (app w) (with_app (setIsOnline b) w).
Proof.
  intros Hr Hne.
  assert (Hf : fire JSON_parse StringToNumber
                 (if b then BrowserOnline else BrowserOffline) w
               = run_effects (app w) (with_app (setIsOnline b) w)).
  { by destruct b. }
  split; [|done]. rewrite <- Hf.
  destruct (decide (driverStatus (app w) = online)) as [Hon|Hoff].
  - apply fire_deps_change_no_polls; try done.
    intros [= _ E _ _]. apply Hne. rewrite E.
    destruct b, w as [s r iv n o q g], s; reflexivity.
  - destruct (reachable_timers _ _ w Hr) as [Ho Hp].
    apply (fire_timers JSON_parse StringToNumber _ w Ho Hp).
    rewrite Hf.
    pose proof (run_effects_ride_view (app w) (with_app (setIsOnline b) w))
      as Hv.
    apply driverStatus_ride_view in Hv as [Hv _]. rewrite Hv.
    by destruct w as [s r iv n o q g], s.
Qed.

(** X19. Losing connectivity: the geolocation effect sets the offline
    error, replaces the current location by the manual-entry text, empties
    the pickup field (whatever had been typed) and releases [loading]
    (whatever request is outstanding); no request is issued, and no polling
    callback is left installed. *)
Theorem browser_offline (w : World) :
  reachable JSON_parse StringToNumber w ->
  isOnline (app w) = true ->
  let w' := fire JSON_parse StringToNumber BrowserOffline w in
  app w'
  = (app w
       |> setIsOnline false
       |> setError
            (js "You are offline. Geolocation requires internet connection.")
       |> setCurrentLocation (js "Manual Entry Needed (Offline)")
       |> setPickupLocation (Some (JStr []))
       |> setLoading false)
  /\ inflight w' = inflight w
  /\ no_polls w'.
Proof.
  intros Hr Hon. cbn zeta.
  destruct (connectivity_no_polls false w Hr) as [Hn Hf];
    [by rewrite Hon|].
  rewrite Hf.
  destruct (run_effects_connectivity (app w) (with_app (setIsOnline false) w))
    as [Ha Hi].
  { rewrite Hon. by destruct w as [s r iv n o q g], s. }
  rewrite Ha, Hi. split_and!; [| |done].
  - destruct w as [s r iv n o q g], s. unfold geolocationEffect_body.
    app_simpl. by rewrite andb_false_r.
  - destruct w as [s r iv n o q g], s. unfold geolocationEffect_body.
    app_simpl. by rewrite andb_false_r.
Qed.

(** X20. Regaining connectivity: where the runtime has geolocation, a
    position request is issued and [loading] set, and nothing else of the
    state changes; where it has none, the not-supported error and the
    manual-entry text are set and the pickup field is emptied.  In either
    case no polling callback is installed afterwards, also for a driver who
    is [online]. *)
Theorem browser_online (w : World) :
  reachable JSON_parse StringToNumber w ->
  isOnline (app w) = false ->
  let w' := fire JSON_parse StringToNumber BrowserOnline w in
  (if geolocation (env w)
   then app w' = (app w |> setIsOnline true |> setLoading true)
        /\ inflight w' = inflight w ++ [PositionRequest]
   else app w'
        = (app w
             |> setIsOnline true
             |> setError
                  (js "Geolocation not supported. Please enter locations manually.")
             |> setCurrentLocation (js "Manual Entry Needed")
             |> setPickupLocation (Some (JStr []))
             |> setLoading false)
        /\ inflight w' = inflight w)
  /\ no_polls w'.
Proof.
  intros Hr Hon. cbn zeta.
  destruct (connectivity_no_polls true w Hr) as [Hn Hf];
    [by rewrite Hon|].
  rewrite Hf.
  destruct (run_effects_connectivity (app w) (with_app (setIsOnline true) w))
    as [Ha Hi].
  { rewrite Hon. by destruct w as [s r iv n o q g], s. }
  rewrite Ha, Hi. split; [|done].
  destruct w as [s r iv n o q g], s. unfold geolocationEffect_body.
  app_simpl. by destruct (geolocation g).
Qed.

(** ** The tracking callback is installed only while a ride is tracked *)

Lemma dispatch_no_ticks e w :
  no_ticks w -> no_ticks (dispatch JSON_parse StringToNumber e w).
Proof.
  intros Hn.
  destruct e; cbn [dispatch]; try (by destruct w).
  - destruct (handleFindRide_start (app w)) as [s issued]. by destruct w.
  - intros j eta Hl.
    apply (resetAppState_lookup w) in Hl as [Hl _]. by apply Hn in Hl.
  - destruct (intervals w !! id) as [[c|eta]|] eqn:El; [| |done].
    + destruct (simulateDriverActivity_start c (app w)) as [s issued].
      by destruct w.
    + by apply Hn in El.
  - destruct (inflight w !! i) as [[p d'| | |acc]|]; by destruct w.
  - destruct (inflight w !! i) as [[p d'| | |acc]|]; by destruct w.
  - destruct (handleToggleChat _ _) as [s r]. by destruct w.
  - destruct (handleSendChatMessage_start _ _) as [[s r] out]. by destruct w.
  - destruct (inflight w !! i) as [[p d'| | |[acc|]]|], ev;
      try destruct (stream_chunks _ _ _); by destruct w.
Qed.

Lemma driverEffect_cleanup_no_ticks w :
  no_ticks w -> no_ticks (driverEffect_cleanup w).
Proof.
  intros Hn j eta. unfold driverEffect_cleanup.
  rewrite clearInterval_lookup. case_decide; [done | apply Hn].
Qed.

Lemma trackingEffect_body_no_ticks a w :
  passengerRideStatus a <> Some tracking ->
  no_ticks w -> no_ticks (trackingEffect_body a w).
Proof.
  intros Ha Hn. destruct w as [s [k d t] iv n o q g]. effect_simpl.
  rewrite bool_decide_eq_false_2 by done.
  destruct t as [i|]; [|done]. app_simpl.
  intros j eta Hl. cbn [intervals] in Hl.
  apply lookup_delete_Some in Hl as [_ Hl]. by apply Hn in Hl.
Qed.

Lemma effects_pass_no_ticks prev w :
  timers_owned w ->
  passengerRideStatus (app w) <> Some tracking ->
  (passengerRideStatus prev = passengerRideStatus (app w) -> no_ticks w) ->
  no_ticks (effects_pass prev (app w) w).
Proof.
  intros Ho Ha Hn. unfold effects_pass.
  set (a := app w) in *.
  set (drv := negb (bool_decide (driverEffect_deps prev = driverEffect_deps a))).
  set (geo := negb (bool_decide (isOnline prev = isOnline a))).
  assert (O1 : timers_owned ((if drv then driverEffect_cleanup else Datatypes.id) w)).
  { destruct drv; [|done]. by apply driverEffect_cleanup_owned. }
  set (w1 := (if drv then driverEffect_cleanup else Datatypes.id) w) in *.
  assert (G : forall w', no_ticks w' ->
            no_ticks ((if geo then geolocationEffect_body a else Datatypes.id) w')).
  { intros w' H. destruct geo; [|done].
    destruct (geolocationEffect_body_frame a w') as (_ & E & _).
    unfold no_ticks. by rewrite E. }
  assert (O : forall w', timers_owned w' ->
            timers_owned ((if geo then geolocationEffect_body a else Datatypes.id) w')).
  { intros w' H. destruct geo; [|done].
    destruct (geolocationEffect_body_frame a w') as (E1 & E2 & E3 & _).
    apply (timers_owned_ext w'); by rewrite ?E1. }
  assert (D : forall w', timers_owned w' -> no_ticks w' ->
            no_ticks ((if drv then driverEffect_body a else Datatypes.id) w')).
  { intros w' H1 H2. destruct drv; [|done].
    by apply (driverEffect_body_owned a w' H1). }
  destruct (bool_decide (trackingEffect_deps prev = trackingEffect_deps a))
    eqn:Et; cbn [negb Datatypes.id].
  - apply bool_decide_eq_true in Et. injection Et as Et _.
    apply D; [by apply O|]. apply G. specialize (Hn Et).
    subst w1. destruct drv; [by apply driverEffect_cleanup_no_ticks | done].
  - destruct (trackingEffect_cleanup_owned w1 O1) as (O2 & N2 & _).
    apply trackingEffect_body_no_ticks; [done|].
    apply D; [by apply O|]. by apply G.
Qed.

Lemma fire_no_ticks e w :
  timers_owned w -> polls_only_online w ->
  (passengerRideStatus (app w) <> Some tracking -> no_ticks w) ->
  passengerRideStatus (app (fire JSON_parse StringToNumber e w))
  <> Some tracking ->
  no_ticks (fire JSON_parse StringToNumber e w).
Proof.
  intros Ho Hp Hi Hst. unfold fire in *.
  destruct (dispatch_timers JSON_parse StringToNumber e w Ho) as [Ho0 Hnew].
  pose proof (run_effects_ride_view (app w)
                (dispatch JSON_parse StringToNumber e w)) as Hv.
  apply driverStatus_ride_view in Hv as (_ & _ & _ & Hv).
  rewrite Hv in Hst.
  set (w0 := dispatch JSON_parse StringToNumber e w) in *.
  unfold run_effects.
  pose proof (effects_pass_no_ticks (app w) w0 Ho0 Hst) as H1.
  pose proof (effects_pass_ride_view (app w) (app w0) w0) as Hv1.
  apply driverStatus_ride_view in Hv1 as (_ & _ & _ & Hv1).
  assert (Ho1 : timers_owned (effects_pass (app w) (app w0) w0)).
  { apply effects_pass_owned; [done|].
    intros Hst' Hoff j c Hl. apply Hnew in Hl.
    rewrite <- Hst' in Hoff. by apply (Hp Hoff j c). }
  set (w1 := effects_pass (app w) (app w0) w0) in *.
  apply effects_pass_no_ticks; [done | congruence |].
  intros _. apply H1. intros E. apply dispatch_no_ticks, Hi. congruence.
Qed.

Lemma reachable_no_ticks w :
  reachable JSON_parse StringToNumber w ->
  passengerRideStatus (app w) <> Some tracking -> no_ticks w.
Proof.
  induction 1 as [g o|w e w' Hr IH Hs]; intros Hst.
  - intros i eta. by rewrite initialWorld_intervals, lookup_empty.
  - destruct Hs. apply reachable_timers in Hr as [Ho Hp].
    by apply fire_no_ticks.
Qed.

(** X21. The countdown runs only while a ride is tracked: in every
    reachable world in which the passenger status is not [tracking] no
    tracking callback is installed, so no tick changes the passenger status
    or the message. *)
Theorem ticks_only_tracking (w : World) :
  reachable JSON_parse StringToNumber w ->
  passengerRideStatus (app w) <> Some tracking ->
  no_ticks w
  /\ forall i,
       let w' := fire JSON_parse StringToNumber (Tick i) w in
       passengerRideStatus (app w') = passengerRideStatus (app w)
       /\ apiResponse (app w') = apiResponse (app w).
Proof.
  intros Hr Hst. pose proof (reachable_no_ticks w Hr Hst) as Hn.
  split; [done|]. intros i. cbn zeta. unfold fire.
  assert (Hd : passengerRideStatus
                 (app (dispatch JSON_parse StringToNumber (Tick i) w))
               = passengerRideStatus (app w)
               /\ apiResponse
                    (app (dispatch JSON_parse StringToNumber (Tick i) w))
                  = apiResponse (app w)
               /\ isOnline
                    (app (dispatch JSON_parse StringToNumber (Tick i) w))
                  = isOnline (app w)).
  { cbn [dispatch]. destruct (intervals w !! i) as [[c|eta]|] eqn:El.
    - unfold simulateDriverActivity_start. destruct (_ && _).
      + by destruct w as [s r iv n o q g], s.
      + by destruct w as [s r iv n o q g], s.
    - by apply Hn in El.
    - done. }
  destruct Hd as (H1 & H2 & H3).
  destruct (run_effects_quiet (app w)
              (dispatch JSON_parse StringToNumber (Tick i) w)) as [Ha _];
    [done|]. by rewrite Ha.
Qed.

(** ** Small consequences of the invariants *)

(** X22. In every reachable world the polling ref is set exactly when the
    driver status is [online]. *)
Theorem driver_ref_iff_online (w : World) :
  reachable JSON_parse StringToNumber w ->
  driverRequestIntervalRef (refs w) <> None
  <-> driverStatus (app w) = online.
Proof. intros Hr. symmetry. by apply reachable_ref_iff. Qed.

(** X23. In every reachable world at most one polling interval and at
    most one tracking interval are installed, and each installed interval is
    the one its ref names: no interval is leaked. *)
Theorem intervals_one_of_each (w : World) :
  reachable JSON_parse StringToNumber w ->
  (forall i j c c',
     intervals w !! i = Some (simulateDriverActivity c) ->
     intervals w !! j = Some (simulateDriverActivity c') -> i = j)
  /\ (forall i j eta eta',
        intervals w !! i = Some (trackingTick eta) ->
        intervals w !! j = Some (trackingTick eta') -> i = j)
  /\ (forall i cb,
        intervals w !! i = Some cb ->
        match cb with
        | simulateDriverActivity _ =>
          driverRequestIntervalRef (refs w) = Some i
        | trackingTick _ => rideTrackingIntervalRef (refs w) = Some i
        end).
Proof.
  intros [(H1 & H2 & _) _]%reachable_timers. split_and!.
  - intros i j c c' Hi Hj. apply H1 in Hi, Hj. congruence.
  - intros i j eta eta' Hi Hj. apply H2 in Hi, Hj. congruence.
  - intros i [c|eta] Hi; eauto.
Qed.

(** X24. Of the effects only the geolocation effect sets state: after an
    event whose handler leaves connectivity as it was, the state and the
    outstanding requests are those the handler left. *)
Theorem effects_leave_state (e : Event) (w : World) :
  isOnline (app (dispatch JSON_parse StringToNumber e w)) = isOnline (app w) ->
  app (fire JSON_parse StringToNumber e w)
  = app (dispatch JSON_parse StringToNumber e w)
  /\ inflight (fire JSON_parse StringToNumber e w)
     = inflight (dispatch JSON_parse StringToNumber e w).
Proof. intros E. unfold fire. by apply run_effects_quiet. Qed.

(** X25. Mounting, connected and with geolocation, issues one position
    request and sets [loading], which disables the choice of a mode; when
    the request settles, either way, [loading] is released and the choice
    is enabled, given an API key. *)
Theorem mount_waits_for_position (g : Env) (r : jsstring + jsstring)
    (m : UserMode) :
  geolocation g = true ->
  let w := initialWorld g true in
  let w' := fire JSON_parse StringToNumber (Position 0 r) w in
  (inflight w = [PositionRequest] /\ loading (app w) = true
   /\ enabled w (SelectMode m) = false)
  /\ (inflight w' = [] /\ loading (app w') = false
      /\ enabled w' (SelectMode m)
         = truthy (JStr <$> apiKey g) && negb (bool_decide (m = mode_none))).
Proof.
  destruct g as [geo k]. cbn [geolocation]. intros ->.
  destruct k as [[|c s]|], r, m; vm_compute; auto.
Qed.

(** X28. Going online starts polling: when a driver who is [offline],
    connected and without an offer toggles, the status is [online] and a
    fresh interval is installed, with a callback that closes over the
    render of the new state, and is named by the polling ref. *)
Theorem toggle_online_starts_polling (w : World) :
  reachable JSON_parse StringToNumber w ->
  driverStatus (app w) = offline ->
  isOnline (app w) = true ->
  currentRideOffer (app w) = None ->
  let w' := fire JSON_parse StringToNumber DriverToggle w in
  driverStatus (app w') = online
  /\ loading (app w') = false
  /\ intervals w' !! next_interval w = Some (simulateDriverActivity (app w'))
  /\ driverRequestIntervalRef (refs w') = Some (next_interval w)
  /\ inflight w' = inflight w.
Proof.
  intros Hr Hst Hon Hof.
  assert (Href : driverRequestIntervalRef (refs w) = None).
  { destruct (driverRequestIntervalRef (refs w)) as [i|] eqn:Ei; [|done].
    assert (H : driverStatus (app w) = online)
      by (apply (reachable_ref_iff w Hr); by rewrite Ei).
    congruence. }
  cbn zeta. unfold fire. cbn [dispatch].
  destruct w as [s [k d t] iv n o q g]. app_simpl. subst d.
  unfold handleDriverToggleOnline. rewrite Hon, Hst. cbn [negb].
  rewrite !decide_True by done.
  set (a := setCurrentRideOffer None _).
  assert (Hp1 : effects_pass s a (MkWorld a (MkRefs k None t) iv n o q g)
                = MkWorld a (MkRefs k (Some n) t)
                    (<[n := simulateDriverActivity a]> iv) (Pos.succ n) o q
                    g).
  { rewrite effects_pass_driver_only.
    - unfold driverEffect_cleanup, driverEffect_body, clearInterval,
        setInterval. app_simpl.
      by rewrite bool_decide_eq_true_2 by (by destruct s).
    - subst a. by destruct s.
    - subst a. destruct s. app_simpl. by subst.
    - unfold driverEffect_deps. intros [= E _ _ _]. subst a. destruct s.
      app_simpl. congruence. }
  unfold run_effects. app_simpl. rewrite Hp1. app_simpl.
  rewrite effects_pass_idle by done. app_simpl.
  split_and!; try done; try (subst a; by destruct s).
  apply lookup_insert_eq.
Qed.

End Effects.

(** * Sample runs of the further properties *)

Lemma handleFindRide_turned_down_witness :
  exists msg,
    msg <> [] /\ handleFindRide_start (initialApp true)
                 = (setError msg (initialApp true), false).
Proof.
  apply (handleFindRide_turned_down (initialApp true)).
  left. vm_compute. reflexivity.
Defined.


Lemma found_offer_carries_response_witness :
  exists o,
    currentRideOffer
      (handleFindRide_settled sample_parse (pickupLocation sample_form)
         (destination sample_form) 0 (Fulfilled (Some sample_offer_text))
         sample_form) = Some o
    /\ obj_id o = 0%nat
    /\ forall k, k <> js "pickup" -> k <> js "destination" ->
         props o !! k = get_prop sample_offer k.
Proof.
  apply (found_offer_carries_response sample_parse sample_form
           (pickupLocation sample_form) (destination sample_form) 0
           sample_offer_text sample_offer);
    try (vm_compute; reflexivity); vm_compute; discriminate.
Defined.

Lemma null_response_is_parse_failure_witness :
  handleFindRide_settled sample_parse_more None None 0
    (Fulfilled (Some (js "null"))) sample_form
  = sample_form |> setApiResponse parse_failed_ride
      |> setPassengerRideStatus None |> setLoading false
  /\ simulateDriverActivity_settled sample_parse_more 0
       (Fulfilled (Some (js "null"))) sample_form
     = sample_form |> setApiResponse parse_failed_request |> setLoading false.
Proof.
  apply (null_response_is_parse_failure sample_parse_more sample_form None
           None 0 (js "null")).
  - vm_compute. discriminate.
  - vm_compute. reflexivity.
Defined.


Lemma simulateDriverActivity_pending_witness :
  let s' := simulateDriverActivity_settled sample_parse 0
              (Fulfilled (Some sample_request_text)) (app sample_polled) in
  driverStatus s' = request_pending
  /\ loading s' = false
  /\ exists o,
      currentRideOffer s' = Some o
      /\ obj_id o = 0%nat
      /\ offer_get o "estimatedFare" = get_prop sample_request (js "fare")
      /\ forall k, k <> js "estimatedFare" ->
           props o !! k = get_prop sample_request k.
Proof.
  apply (simulateDriverActivity_pending sample_parse (app sample_polled) 0
           sample_request_text sample_request);
    try (vm_compute; reflexivity); vm_compute; discriminate.
Defined.

Lemma simulateDriverActivity_bad_fare_witness :
  let s' := simulateDriverActivity_settled sample_parse_fare 0
              (Fulfilled (Some sample_farestring_text)) (app sample_polled) in
  apiResponse s' = parse_failed_request
  /\ driverStatus s' = request_pending
  /\ loading s' = false
  /\ (exists o,
        currentRideOffer s' = Some o
        /\ offer_get o "estimatedFare" = get_prop sample_farestring (js "fare")
        /\ (get_prop sample_farestring (js "fare") <> None ->
            get_prop sample_farestring (js "fare") <> Some JNull ->
            opt_toFixed2 (offer_get o "estimatedFare") = None))
  /\ (userMode (app sample_polled) = driver ->
      passengerRideStatus (app sample_polled) <> Some canceled ->
      passengerRideStatus (app sample_polled) <> Some completed ->
      apiResponse_rendered s' = false).
Proof.
  apply (simulateDriverActivity_bad_fare sample_parse_fare (app sample_polled)
           0 sample_farestring_text sample_farestring).
  - vm_compute. discriminate.
  - vm_compute. reflexivity.
  - discriminate.
  - intros x. vm_compute. discriminate.
Defined.

Lemma handleDriverCompleteRide_fare_witness :
  handleDriverCompleteRide (app sample_on_ride)
  = app sample_on_ride
      |> setDriverStatus ride_completed
      |> setApiResponse (js "রাইড সম্পন্ন হয়েছে! আপনি ৳"
                         ++ toFixed2 (number_of_Z 200)
                         ++ js " উপার্জন করেছেন। যাত্রীকে রেটিং দিন।")
      |> setCurrentRideOffer None.
Proof.
  apply (handleDriverCompleteRide_fare (app sample_on_ride)
           sample_pending_offer).
  vm_compute. reflexivity.
Defined.

Lemma initializeChat_keeps_session_witness :
  let sr := initializeChat (Some (js "key")) sample_sent.1 sample_sent in
  sr.2 = sample_sent.2
  /\ chatMessages sr.1 = chatMessages sample_sent.1
  /\ (truthy (JStr <$> Some (js "key")) = true ->
      isOnline sample_sent.1 = true -> sr = (sample_sent.1, sample_sent.2))
  /\ initializeChat (Some (js "key")) sample_sent.1 sr = sr.
Proof.
  apply (initializeChat_keeps_session (Some (js "key")) sample_sent.1
           sample_sent.1 sample_sent.2
           (sendMessageStream (js "hello") sample_session)).
  vm_compute. reflexivity.
Defined.

Lemma handleSendChatMessage_sent_witness :
  handleSendChatMessage_start (Some (js "key")) sample_chat
  = (sample_chat.1
       |> setChatMessages
            (fun prev => prev ++ [{| sender := user;
                                     text := Text (js "hello") |}])
       |> setChatInput []
       |> setError [],
     sample_chat.2
       |> set_chatRef (Some (sendMessageStream (js "hello") sample_session)),
     SendDispatched (js "hello")).
Proof.
  apply (handleSendChatMessage_sent (Some (js "key")) sample_chat.1
           sample_chat.2 sample_session).
  - vm_compute. reflexivity.
  - vm_compute. reflexivity.
  - vm_compute. discriminate.
Defined.

Lemma handleSendChatMessage_lazy_session_witness :
  exists a' r',
    handleSendChatMessage_start (Some (js "key"))
      (initialApp true |> setChatInput (js "hello"), MkRefs None None None)
    = (a', r', SendDispatched (js "hello"))
    /\ chatMessages a' = [chat_greeting]
    /\ chatRef r' = Some {| systemInstruction := chat_persona;
                            sent := [js "hello"] |}.
Proof.
  apply (handleSendChatMessage_lazy_session (Some (js "key"))
           (initialApp true |> setChatInput (js "hello"))
           (MkRefs None None None)).
  - reflexivity.
  - vm_compute. reflexivity.
  - vm_compute. reflexivity.
  - vm_compute. discriminate.
Defined.

Lemma stream_failed_after_chunks_witness :
  chatMessages
    (stream_failed
       (stream_chunks [Some (js "Hi")] [] (stream_opened sample_dispatched)).2)
  = chatMessages sample_dispatched
    ++ [{| sender := ai; text := Text (js "Hi") |}; chat_failure].
Proof.
  apply (stream_failed_after_chunks sample_dispatched [Some (js "Hi")]).
  vm_compute. discriminate.
Defined.

Lemma sample_polling_reachable :
  reachable sample_parse sample_number sample_polling.
Proof. apply sample_world_reachable. vm_compute. discriminate. Qed.

Lemma sample_polled_reachable :
  reachable sample_parse sample_number sample_polled.
Proof. apply sample_world_reachable. vm_compute. discriminate. Qed.

Lemma sample_offline_reachable :
  reachable sample_parse sample_number sample_offline.
Proof. apply sample_world_reachable. vm_compute. discriminate. Qed.

Lemma poll_closure_current_witness :
  driverStatus (app sample_polling) = online
  /\ driverStatus (app sample_polling) = online
  /\ isOnline (app sample_polling) = isOnline (app sample_polling)
  /\ loading (app sample_polling) = loading (app sample_polling)
  /\ (currentRideOffer (app sample_polling) = None
      <-> currentRideOffer (app sample_polling) = None).
Proof.
  apply (poll_closure_current sample_parse sample_number sample_polling 1
           (app sample_polling)).
  - apply sample_polling_reachable.
  - vm_compute. reflexivity.
Defined.

Lemma poll_fires_once_witness :
  let w' := fire sample_parse sample_number (Tick 1) sample_polling in
  app w' = (app sample_polling |> setLoading true |> setError [])
  /\ inflight w' = inflight sample_polling ++ [DriverRequest]
  /\ no_polls w'
  /\ driverRequestIntervalRef (refs w') = Some 1%positive.
Proof.
  apply (poll_fires_once sample_parse sample_number sample_polling 1
           (app sample_polling)).
  - apply sample_polling_reachable.
  - vm_compute. reflexivity.
  - vm_compute. reflexivity.
  - vm_compute. reflexivity.
  - vm_compute. reflexivity.
Defined.

Lemma polling_not_resumed_witness :
  let w' := fire sample_parse sample_number (Settle 0 (Rejected None))
              sample_polled in
  no_polls w'
  /\ forall i, inflight (fire sample_parse sample_number (Tick i) w')
               = inflight w'.
Proof.
  apply (polling_not_resumed sample_parse sample_number sample_polled).
  - apply sample_polled_reachable.
  - vm_compute. reflexivity.
  - intros i c. vm_compute. destruct i; discriminate.
  - eapply online_step; [apply online_refl | |].
    + constructor. vm_compute. reflexivity.
    + vm_compute. reflexivity.
Defined.

Lemma browser_offline_witness :
  let w' := fire sample_parse sample_number BrowserOffline sample_polling in
  app w'
  = (app sample_polling
       |> setIsOnline false
       |> setError
            (js "You are offline. Geolocation requires internet connection.")
       |> setCurrentLocation (js "Manual Entry Needed (Offline)")
       |> setPickupLocation (Some (JStr []))
       |> setLoading false)
  /\ inflight w' = inflight sample_polling
  /\ no_polls w'.
Proof.
  apply (browser_offline sample_parse sample_number sample_polling).
  - apply sample_polling_reachable.
  - vm_compute. reflexivity.
Defined.

Lemma browser_online_witness :
  let w' := fire sample_parse sample_number BrowserOnline sample_offline in
  (app w' = (app sample_offline |> setIsOnline true |> setLoading true)
   /\ inflight w' = inflight sample_offline ++ [PositionRequest])
  /\ no_polls w'.
Proof.
  apply (browser_online sample_parse sample_number sample_offline).
  - apply sample_offline_reachable.
  - vm_compute. reflexivity.
Defined.

Lemma ticks_only_tracking_witness :
  no_ticks sample_polling
  /\ forall i,
       let w' := fire sample_parse sample_number (Tick i) sample_polling in
       passengerRideStatus (app w') = passengerRideStatus (app sample_polling)
       /\ apiResponse (app w') = apiResponse (app sample_polling).
Proof.
  apply (ticks_only_tracking sample_parse sample_number sample_polling).
  - apply sample_polling_reachable.
  - vm_compute. discriminate.
Defined.

Lemma driver_ref_iff_online_witness :
  driverRequestIntervalRef (refs sample_polled) <> None
  <-> driverStatus (app sample_polled) = online.
Proof.
  apply (driver_ref_iff_online sample_parse sample_number sample_polled).
  apply sample_polled_reachable.
Defined.

Lemma intervals_one_of_each_witness :
  (forall i j c c',
     intervals sample_tracking !! i = Some (simulateDriverActivity c) ->
     intervals sample_tracking !! j = Some (simulateDriverActivity c') -> i = j)
  /\ (forall i j eta eta',
        intervals sample_tracking !! i = Some (trackingTick eta) ->
        intervals sample_tracking !! j = Some (trackingTick eta') -> i = j)
  /\ (forall i cb,
        intervals sample_tracking !! i = Some cb ->
        match cb with
        | simulateDriverActivity _ =>
          driverRequestIntervalRef (refs sample_tracking) = Some i
        | trackingTick _ =>
          rideTrackingIntervalRef (refs sample_tracking) = Some i
        end).
Proof.
  apply (intervals_one_of_each sample_parse sample_number sample_tracking).
  apply sample_tracking_reachable.
Defined.

Lemma effects_leave_state_witness :
  app (fire sample_parse sample_number DriverToggle sample_polling)
  = app (dispatch sample_parse sample_number DriverToggle sample_polling)
  /\ inflight (fire sample_parse sample_number DriverToggle sample_polling)
     = inflight (dispatch sample_parse sample_number DriverToggle
                   sample_polling).
Proof.
  apply (effects_leave_state sample_parse sample_number DriverToggle
           sample_polling).
  vm_compute. reflexivity.
Defined.

Lemma mount_waits_for_position_witness :
  let w := initialWorld sample_env true in
  let w' := fire sample_parse sample_number
              (Position 0 (inl sample_location)) w in
  (inflight w = [PositionRequest] /\ loading (app w) = true
   /\ enabled w (SelectMode passenger) = false)
  /\ (inflight w' = [] /\ loading (app w') = false
      /\ enabled w' (SelectMode passenger)
         = truthy (JStr <$> apiKey sample_env)
           && negb (bool_decide (passenger = mode_none))).
Proof.
  apply (mount_waits_for_position sample_parse sample_number sample_env
           (inl sample_location) passenger).
  reflexivity.
Defined.

Lemma accept_starts_countdown_witness :
  let w := sample_world trace_found in
  let w' := fire sample_parse sample_number PassengerAccept w in
  let eta := default (JNum (number_of_Z 5))
               (js_or (offer_get sample_found_offer "etaMinutes")
                  (Some (JNum (number_of_Z 5)))) in
  passengerRideStatus (app w') = Some tracking
  /\ intervals w' !! next_interval w = Some (trackingTick eta)
  /\ rideTrackingIntervalRef (refs w') = Some (next_interval w).
Proof.
  apply (accept_starts_countdown sample_parse sample_number
           (sample_world trace_found) sample_found_offer).
  - vm_compute. reflexivity.
  - vm_compute. discriminate.
Defined.

Lemma resetAppState_no_interval_witness :
  intervals (resetAppState sample_tracking) = ∅.
Proof.
  apply (resetAppState_no_interval sample_parse sample_number sample_tracking).
  apply sample_tracking_reachable.
Defined.

Lemma toggle_online_starts_polling_witness :
  let w := sample_world (take 2 trace_pending) in
  let w' := fire sample_parse sample_number DriverToggle w in
  driverStatus (app w') = online
  /\ loading (app w') = false
  /\ intervals w' !! next_interval w = Some (simulateDriverActivity (app w'))
  /\ driverRequestIntervalRef (refs w') = Some (next_interval w)
  /\ inflight w' = inflight w.
Proof.
  apply (toggle_online_starts_polling sample_parse sample_number
           (sample_world (take 2 trace_pending))).
  - apply sample_world_reachable. vm_compute. discriminate.
  - vm_compute. reflexivity.
  - vm_compute. reflexivity.
  - vm_compute. reflexivity.
Defined.
